(** * target-postgres: the schema-and-record pipeline, embedded and verified

    A shallow embedding of the stream buffer ([singer_stream.py]), the record
    denester and the batch writer ([postgres.py]) and the schema upserter
    ([sql_base.py]), with the properties of the specification stated and
    proved (or refuted) over it. *)

From Stdlib Require Import ZArith List String Ascii Bool Lia.
From Stdlib Require Import DecimalString DecimalPos DecimalZ.
Import ListNotations.

Local Open Scope string_scope.
Local Open Scope Z_scope.

Set Implicit Arguments.
Set Warnings "-register-all".

(** ** Python values *)

(** A record value as the tap delivers it: JSON documents without fractional
    numbers.  A Python [dict] keeps its keys in insertion order and the code
    iterates over [.items()], so a dict is an association list; the keys of a
    well-formed dict are pairwise distinct ([NoDup (keys d)]). *)
Inductive value : Type :=
| VNone
| VBool (b : bool)
| VInt (n : Z)
| VStr (s : string)
| VList (items : list value)
| VDict (items : list (string * value)).

Definition dict : Type := list (string * value).

Definition keys {V : Type} (d : list (string * V)) : list string := map fst d.

(** Other dicts of the code (column schemas by name, mappings by name) are
    association lists too; the operations are those of any value type. *)
Section Dict.
Context {V : Type}.

(** [d.get(k)] with the option made explicit: [None] when [k not in d]. *)
Fixpoint dict_lookup (d : list (string * V)) (k : string) : option V :=
  match d with
  | [] => None
  | (k', v) :: rest => if String.eqb k k' then Some v else dict_lookup rest k
  end.

(** [k in d] *)
Definition dict_mem (d : list (string * V)) (k : string) : bool :=
  match dict_lookup d k with Some _ => true | None => false end.

(** [d[k] = v]: an existing key keeps its position, a new key goes last. *)
Fixpoint dict_set (d : list (string * V)) (k : string) (v : V) : list (string * V) :=
  match d with
  | [] => [(k, v)]
  | (k', v') :: rest =>
      if String.eqb k k' then (k', v) :: rest else (k', v') :: dict_set rest k v
  end.

(** [del d[k]] *)
Fixpoint dict_del (d : list (string * V)) (k : string) : list (string * V) :=
  match d with
  | [] => []
  | (k', v') :: rest =>
      if String.eqb k k' then rest else (k', v') :: dict_del rest k
  end.

End Dict.

(** [d.get(k)]: Python's [None] for a missing key. *)
Definition py_get (d : dict) (k : string) : value :=
  match dict_lookup d k with Some v => v | None => VNone end.

(** [isinstance(v, dict)], [isinstance(v, list)], [v is None] *)
Definition is_dict (v : value) : bool :=
  match v with VDict _ => true | _ => false end.
Definition is_list (v : value) : bool :=
  match v with VList _ => true | _ => false end.
Definition is_None (v : value) : bool :=
  match v with VNone => true | _ => false end.

(** A scalar that is not null: what the denester writes as a column value. *)
Definition is_literal (v : value) : bool :=
  match v with VBool _ | VInt _ | VStr _ => true | _ => false end.

(** [jsonschema.exceptions.ValidationError], with its message. *)
Inductive ValidationError : Type :=
| MkValidationError (message : string).

(** ** The stream buffer: [singer_stream.py] *)
Module SingerStream.

Definition SINGER_RECEIVED_AT := "_sdc_received_at".
Definition SINGER_BATCHED_AT := "_sdc_batched_at".
Definition SINGER_SEQUENCE := "_sdc_sequence".
Definition SINGER_TABLE_VERSION := "_sdc_table_version".
Definition SINGER_PK := "_sdc_primary_key".
Definition SINGER_SOURCE_PK_PREFIX := "_sdc_source_key_".

(** [SINGER_LEVEL.format(i)] for ['_sdc_level_{}_id'] *)
Definition SINGER_LEVEL (i : Z) : string :=
  "_sdc_level_" ++ NilZero.string_of_int (Z.to_int i) ++ "_id".

Definition DEFAULT__MAX_ROWS := 200000.
Definition DEFAULT__MAX_BUFFER_SIZE := 104857600.

(** A parsed RECORD line.  The protocol types [version] and [sequence] as
    integers; an absent key is [None], which is also what the code's
    [record_message.get('version')] returns for it. *)
Record record_message : Type := {
  record : value;
  version : option Z;
  time_extracted : option string;
  sequence : option Z
}.

(** The fields of [BufferedSingerStream].  [validator] is the
    [Draft4Validator] object the buffer holds: [validate] either returns or
    raises a [ValidationError].  [debug_reporting_interval] is
    [math.ceil(max_rows / 10.0)] as computed once by [__init__]. *)
Record BufferedSingerStream : Type := {
  stream : string;
  key_properties : list string;
  use_uuid_pk : bool;
  validator : value -> option ValidationError;
  invalid_records : list (ValidationError * record_message);
  max_rows : Z;
  max_buffer_size : Z;
  invalid_records_detect : bool;
  invalid_records_threshold : Z;
  buffer : list record_message;
  count : Z;
  size : Z;
  lifetime_max_version : option Z;
  debug_reporting_interval : Z
}.

Definition with_buffer (sb : BufferedSingerStream)
    (b : list record_message) (c s : Z) : BufferedSingerStream :=
  {| stream := stream sb; key_properties := key_properties sb;
     use_uuid_pk := use_uuid_pk sb; validator := validator sb;
     invalid_records := invalid_records sb; max_rows := max_rows sb;
     max_buffer_size := max_buffer_size sb;
     invalid_records_detect := invalid_records_detect sb;
     invalid_records_threshold := invalid_records_threshold sb;
     buffer := b; count := c; size := s;
     lifetime_max_version := lifetime_max_version sb;
     debug_reporting_interval := debug_reporting_interval sb |}.

Definition with_lifetime_max_version (sb : BufferedSingerStream)
    (v : option Z) : BufferedSingerStream :=
  {| stream := stream sb; key_properties := key_properties sb;
     use_uuid_pk := use_uuid_pk sb; validator := validator sb;
     invalid_records := invalid_records sb; max_rows := max_rows sb;
     max_buffer_size := max_buffer_size sb;
     invalid_records_detect := invalid_records_detect sb;
     invalid_records_threshold := invalid_records_threshold sb;
     buffer := buffer sb; count := count sb; size := size sb;
     lifetime_max_version := v;
     debug_reporting_interval := debug_reporting_interval sb |}.

Definition with_invalid_records (sb : BufferedSingerStream)
    (l : list (ValidationError * record_message)) : BufferedSingerStream :=
  {| stream := stream sb; key_properties := key_properties sb;
     use_uuid_pk := use_uuid_pk sb; validator := validator sb;
     invalid_records := l; max_rows := max_rows sb;
     max_buffer_size := max_buffer_size sb;
     invalid_records_detect := invalid_records_detect sb;
     invalid_records_threshold := invalid_records_threshold sb;
     buffer := buffer sb; count := count sb; size := size sb;
     lifetime_max_version := lifetime_max_version sb;
     debug_reporting_interval := debug_reporting_interval sb |}.

(** The two messages the code words as warnings.  The other [LOGGER.debug]
    lines (fill reports, "flushing buffer...") carry no state and are left
    out. *)
Inductive log_entry : Type :=
| DroppingRecords (stream : string) (dropped : Z) (from_version : option Z) (to_version : Z)
| DroppingRecord (stream : string) (expected got : option Z).

Inductive exn : Type :=
| SingerStreamError (threshold : Z) (payload : list (ValidationError * record_message))
| ZeroDivisionError.

(** What a method call leaves behind: the object after the call (mutations
    made before a [raise] stay), the lines logged, and how the call ended. *)
Record effect : Type := {
  after : BufferedSingerStream;
  logged : list log_entry;
  raised : option exn
}.

(** [buffer_full] (lines 124-145) *)
Definition buffer_full (sb : BufferedSingerStream) : bool :=
  if count sb >=? max_rows sb then true
  else if count sb >? 0 then
         if size sb >=? max_buffer_size sb then true else false
       else false.

(** [flush_buffer] (lines 243-250) *)
Definition flush_buffer (sb : BufferedSingerStream) : BufferedSingerStream :=
  with_buffer sb [] 0 0.

(** [max_version] *)
Definition max_version (sb : BufferedSingerStream) : option Z :=
  lifetime_max_version sb.

(** [__update_version] (lines 151-164) *)
Definition __update_version (sb : BufferedSingerStream) (version : option Z)
  : BufferedSingerStream * list log_entry :=
  match version with
  | None => (sb, [])
  | Some v =>
      match lifetime_max_version sb with
      | Some m => if m >=? v then (sb, []) else
          (with_lifetime_max_version (flush_buffer sb) (Some v),
           if count sb =? 0 then []
           else [DroppingRecords (stream sb) (count sb) (Some m) v])
      | None =>
          (with_lifetime_max_version (flush_buffer sb) (Some v),
           if count sb =? 0 then []
           else [DroppingRecords (stream sb) (count sb) None v])
      end
  end.

(** [option] equality on versions: the code's [!=] between two values that
    are each [None] or an integer. *)
Definition version_eqb (a b : option Z) : bool :=
  match a, b with
  | None, None => true
  | Some x, Some y => x =? y
  | _, _ => false
  end.

Section AddRecord.

(** [pysize.get_size]: the in-memory size estimate of a line, a function of
    the package that lives outside the modelled files. *)
Variable get_size : record_message -> Z.

(** [_debug_report_on_buffer_sizes] (lines 166-179): it only logs, but
    [count % interval] raises when the interval is zero. *)
Definition _debug_report_on_buffer_sizes (sb : BufferedSingerStream)
    (logs : list log_entry) : effect :=
  if debug_reporting_interval sb =? 0
  then {| after := sb; logged := logs; raised := Some ZeroDivisionError |}
  else {| after := sb; logged := logs; raised := None |}.

(** Lines 194-211 of [add_record_message]: validate, then buffer or count
    the record as invalid. *)
Definition validate_and_buffer (sb : BufferedSingerStream)
    (record_message : record_message) (logs : list log_entry) : effect :=
  match validator sb (record record_message) with
  | None =>
      _debug_report_on_buffer_sizes
        (with_buffer sb (buffer sb ++ [record_message])
                     (count sb + 1)
                     (size sb + get_size record_message))
        logs
  | Some error =>
      let sb' := with_invalid_records sb
                   (invalid_records sb ++ [(error, record_message)]) in
      if invalid_records_detect sb'
         && (Z.of_nat (List.length (invalid_records sb')) >=? invalid_records_threshold sb')
      then {| after := sb'; logged := logs;
              raised := Some (SingerStreamError (invalid_records_threshold sb')
                                                (invalid_records sb')) |}
      else _debug_report_on_buffer_sizes sb' logs
  end.

(** [add_record_message] (lines 181-211) *)
Definition add_record_message (sb : BufferedSingerStream)
    (record_message : record_message) : effect :=
  let '(sb1, logs) := __update_version sb (version record_message) in
  if negb (version_eqb (lifetime_max_version sb1) (version record_message))
  then {| after := sb1;
          logged := logs ++ [DroppingRecord (stream sb1)
                                            (lifetime_max_version sb1)
                                            (version record_message)];
          raised := None |}
  else validate_and_buffer sb1 record_message logs.

(** Feeding lines one after the other, as [stream_to_target] does: the first
    exception ends the run. *)
Fixpoint feed (sb : BufferedSingerStream) (lines : list record_message) : effect :=
  match lines with
  | [] => {| after := sb; logged := []; raised := None |}
  | line :: rest =>
      let e := add_record_message sb line in
      match raised e with
      | Some _ => e
      | None =>
          let e' := feed (after e) rest in
          {| after := after e'; logged := logged e ++ logged e'; raised := raised e' |}
      end
  end.

End AddRecord.

(** [peek_buffer], [peek_invalid_records] *)
Definition peek_buffer (sb : BufferedSingerStream) : list record_message := buffer sb.
Definition peek_invalid_records (sb : BufferedSingerStream) := invalid_records sb.

(** [__init__] (lines 31-77), with the schema handling of [update_schema]
    reduced to what it does to [key_properties] and [use_uuid_pk].
    [max_rows or DEFAULT__MAX_ROWS] replaces a falsy value only: zero. *)
Definition ceil_div10 (n : Z) : Z := - ((- n) / 10).

Definition init (stream : string) (key_properties : list string)
    (validator : value -> option ValidationError)
    (invalid_records_detect : option bool) (invalid_records_threshold : option Z)
    (max_rows max_buffer_size : Z) : BufferedSingerStream :=
  let max_rows := if max_rows =? 0 then DEFAULT__MAX_ROWS else max_rows in
  let max_buffer_size :=
    if max_buffer_size =? 0 then DEFAULT__MAX_BUFFER_SIZE else max_buffer_size in
  {| stream := stream;
     key_properties := match key_properties with [] => [SINGER_PK] | _ => key_properties end;
     use_uuid_pk := match key_properties with [] => true | _ => false end;
     validator := validator;
     invalid_records := [];
     max_rows := max_rows;
     max_buffer_size := max_buffer_size;
     invalid_records_detect :=
       match invalid_records_detect with None => true | Some b => b end;
     invalid_records_threshold :=
       match invalid_records_threshold with None => 0 | Some t => t end;
     buffer := []; count := 0; size := 0;
     lifetime_max_version := None;
     debug_reporting_interval := ceil_div10 max_rows |}.

End SingerStream.

(** ** Exceptions of the batch writer *)

(** The exceptions the modelled code of [postgres.py] and [sql_base.py] can
    raise.  For a record that is not a [dict] the interpreter raises
    [TypeError] or [AttributeError] depending on the operation that meets it
    first; both are reported here as [TypeError].  [PyException] is a plain
    [Exception] raised with a message.  [DriverError] stands for
    whatever the database driver raises.  [PostgresError] carries its message
    and the wrapped exception, when there is one. *)
Inductive exception : Type :=
| TypeError (message : string)
| KeyError (key : string)
| ValueError (message : string)
| RecursionError
| PyException (message : string)
| DriverError (message : string)
| PostgresError (message : string) (cause : option exception).

(** ** The record denester and the batch writer: [postgres.py] *)
Module Postgres.
Import SingerStream.

(** Modelled from the spec: the constant [NESTED_SEPARATOR] of
    [sql_schema.py], a file of the package that is not among the modelled
    ones.  The spec gives the separator as the literal [__], which is also the
    value of [SEPARATOR] in [sql_base.py]. *)
Definition NESTED_SEPARATOR := "__".

(** [records_map]: table name to the rows denested for it so far. *)
Definition records_map : Type := list (string * list dict).

Fixpoint rm_lookup (rm : records_map) (table_name : string) : option (list dict) :=
  match rm with
  | [] => None
  | (t, rows) :: rest => if String.eqb table_name t then Some rows else rm_lookup rest table_name
  end.

Definition rm_rows (rm : records_map) (table_name : string) : list dict :=
  match rm_lookup rm table_name with Some rows => rows | None => [] end.

(** [if table_name not in records_map: records_map[table_name] = []] followed
    by [records_map[table_name].append(row)] *)
Fixpoint rm_append (rm : records_map) (table_name : string) (row : dict) : records_map :=
  match rm with
  | [] => [(table_name, [row])]
  | (t, rows) :: rest =>
      if String.eqb table_name t then (t, (rows ++ [row])%list) :: rest
      else (t, rows) :: rm_append rest table_name row
  end.

(** The denester works on objects it shares with its caller: [record[key] =
    value] in [denest_records] writes into the very dicts of the array being
    walked, which are the dicts held by the buffered line.  Every function
    below therefore returns, next to its result, the objects it was given as
    they are after the call, also when the call raises. *)
Record denested (A : Type) : Type := {
  objects : A;
  map_after : records_map;
  error : option exception
}.

(** The result of a loop over [record.items()]: the row being filled, the
    items walked (with their arrays as the nested calls left them), the map. *)
Record walked : Type := {
  row : dict;
  items_after : dict;
  walked_map : records_map;
  walked_error : option exception
}.

Definition cons_item (prop : string) (v : value) (w : walked) : walked :=
  {| row := row w; items_after := (prop, v) :: items_after w;
     walked_map := walked_map w; walked_error := walked_error w |}.

Section Methods.

(** [self.denest_records], as the two methods below call it. *)
Variable self_denest_records :
  string -> list value -> records_map -> list string -> option dict -> Z ->
  denested (list value).

(** [denest_subrecord] (lines 229-250).  The call for an object inside the
    object passes six arguments to a method of eight parameters: the
    interpreter raises [TypeError] before the callee runs. *)
Fixpoint denest_subrecord (table_name current_path : string) (parent_record : dict)
    (record : dict) (records_map : records_map) (key_properties : list string)
    (pk_fks : dict) (level : Z) : walked :=
  match record with
  | [] => {| row := parent_record; items_after := [];
             walked_map := records_map; walked_error := None |}
  | (prop, value) :: rest =>
      let next_path := current_path ++ NESTED_SEPARATOR ++ prop in
      match value with
      | VDict _ =>
          {| row := parent_record; items_after := record; walked_map := records_map;
             walked_error :=
               Some (TypeError "denest_subrecord() missing 2 required positional arguments: 'pk_fks' and 'level'") |}
      | VList items =>
          let r := self_denest_records (table_name ++ NESTED_SEPARATOR ++ next_path)
                     items records_map key_properties (Some pk_fks) (level + 1) in
          match error r with
          | Some e =>
              {| row := parent_record; items_after := (prop, VList (objects r)) :: rest;
                 walked_map := map_after r; walked_error := Some e |}
          | None =>
              cons_item prop (VList (objects r))
                (denest_subrecord table_name current_path parent_record rest
                   (map_after r) key_properties pk_fks level)
          end
      | _ =>
          cons_item prop value
            (denest_subrecord table_name current_path
               (dict_set parent_record next_path value) rest
               records_map key_properties pk_fks level)
      end
  end.

(** The loop of [denest_record] (lines 254-279) over [record.items()]. *)
Fixpoint denest_record_items (table_name : string) (current_path : option string)
    (record : dict) (denested_record : dict) (records_map : records_map)
    (key_properties : list string) (pk_fks : dict) (level : Z) : walked :=
  match record with
  | [] => {| row := denested_record; items_after := [];
             walked_map := records_map; walked_error := None |}
  | (prop, value) :: rest =>
      let next_path :=
        match current_path with
        | Some p => if String.eqb p "" then prop else p ++ NESTED_SEPARATOR ++ prop
        | None => prop
        end in
      match value with
      | VDict sub =>
          let w := denest_subrecord table_name next_path denested_record sub
                     records_map key_properties pk_fks level in
          match walked_error w with
          | Some e =>
              {| row := row w; items_after := (prop, VDict (items_after w)) :: rest;
                 walked_map := walked_map w; walked_error := Some e |}
          | None =>
              cons_item prop (VDict (items_after w))
                (denest_record_items table_name current_path rest (row w)
                   (walked_map w) key_properties pk_fks level)
          end
      | VList items =>
          let r := self_denest_records (table_name ++ NESTED_SEPARATOR ++ next_path)
                     items records_map key_properties (Some pk_fks) (level + 1) in
          match error r with
          | Some e =>
              {| row := denested_record; items_after := (prop, VList (objects r)) :: rest;
                 walked_map := map_after r; walked_error := Some e |}
          | None =>
              cons_item prop (VList (objects r))
                (denest_record_items table_name current_path rest denested_record
                   (map_after r) key_properties pk_fks level)
          end
      | VNone =>
          cons_item prop value
            (denest_record_items table_name current_path rest denested_record
               records_map key_properties pk_fks level)
      | _ =>
          cons_item prop value
            (denest_record_items table_name current_path rest
               (dict_set denested_record next_path value)
               records_map key_properties pk_fks level)
      end
  end.

(** [denest_record] (lines 252-283): the row is appended only when the loop
    ran to its end. *)
Definition denest_record (table_name : string) (current_path : option string)
    (record : value) (records_map : records_map) (key_properties : list string)
    (pk_fks : dict) (level : Z) : denested value :=
  match record with
  | VDict items =>
      let w := denest_record_items table_name current_path items []
                 records_map key_properties pk_fks level in
      match walked_error w with
      | Some e => {| objects := VDict (items_after w); map_after := walked_map w;
                     error := Some e |}
      | None => {| objects := VDict (items_after w);
                   map_after := rm_append (walked_map w) table_name (row w);
                   error := None |}
      end
  | _ => {| objects := record; map_after := records_map;
            error := Some (TypeError "object has no attribute 'items'") |}
  end.

(** [for key, value in record_pk_fks.items(): record[key] = value] *)
Definition merge_pk_fks (record record_pk_fks : dict) : dict :=
  fold_left (fun r kv => dict_set r (fst kv) (snd kv)) record_pk_fks record.

(** The top-level branch of [denest_records] (lines 295-299): the keys of the
    root record, and its sequence when it has one. *)
Fixpoint source_keys (record : dict) (key_properties : list string) (acc : dict)
  : exception + dict :=
  match key_properties with
  | [] => inr acc
  | key :: rest =>
      match dict_lookup record key with
      | None => inl (KeyError key)
      | Some v => source_keys record rest (dict_set acc (SINGER_SOURCE_PK_PREFIX ++ key) v)
      end
  end.

Definition top_level_pk_fks (record : dict) (key_properties : list string)
  : exception + dict :=
  match source_keys record key_properties [] with
  | inl e => inl e
  | inr fks =>
      match dict_lookup record SINGER_SEQUENCE with
      | Some v => inr (dict_set fks SINGER_SEQUENCE v)
      | None => inr fks
      end
  end.

(** [if pk_fks:] holds for a dict that is not empty. *)
Definition truthy (pk_fks : option dict) : option dict :=
  match pk_fks with
  | Some (kv :: d) => Some (kv :: d)
  | _ => None
  end.

(** The loop of [denest_records] (lines 287-300), [row_index] threaded. *)
Fixpoint denest_records_loop (table_name : string) (records : list value)
    (records_map : records_map) (key_properties : list string)
    (pk_fks : option dict) (level : Z) (row_index : Z) : denested (list value) :=
  match records with
  | [] => {| objects := []; map_after := records_map; error := None |}
  | record :: rest =>
      let raise e := {| objects := records; map_after := records_map; error := Some e |} in
      let continue (record_pk_fks : dict) (record' : value) (row_index' : Z) :=
        let r := denest_record table_name None record' records_map
                   key_properties record_pk_fks level in
        match error r with
        | Some e => {| objects := objects r :: rest; map_after := map_after r;
                       error := Some e |}
        | None =>
            let r' := denest_records_loop table_name rest (map_after r)
                        key_properties pk_fks level row_index' in
            {| objects := objects r :: objects r'; map_after := map_after r';
               error := error r' |}
        end in
      match truthy pk_fks with
      | Some fks =>
          let record_pk_fks := dict_set fks (SINGER_LEVEL level) (VInt row_index) in
          match record with
          | VDict items =>
              continue record_pk_fks (VDict (merge_pk_fks items record_pk_fks))
                       (row_index + 1)
          | _ => raise (TypeError "object does not support item assignment")
          end
      | None =>
          match record with
          | VDict items =>
              match top_level_pk_fks items key_properties with
              | inl e => raise e
              | inr record_pk_fks => continue record_pk_fks record row_index
              end
          | _ => raise (TypeError "record is not a dict")
          end
      end
  end.

End Methods.

(** [denest_records] (lines 285-300).  The method reaches itself through
    [denest_record] and [denest_subrecord]; [fuel] bounds the nesting of these
    calls as the interpreter's recursion limit does, and running out of it is
    [RecursionError]. *)
Fixpoint denest_records (fuel : nat) (table_name : string) (records : list value)
    (records_map : records_map) (key_properties : list string)
    (pk_fks : option dict) (level : Z) : denested (list value) :=
  match fuel with
  | O => {| objects := records; map_after := records_map; error := Some RecursionError |}
  | S fuel' =>
      denest_records_loop (denest_records fuel') table_name records records_map
        key_properties pk_fks level 0
  end.

(** *** [write_batch] *)

(** What the database and the clock answer during one [write_batch]: the
    driver, [uuid], [arrow] and the schema classes of [sql_schema.py] are
    collaborators outside the modelled code.  An [option exception] is [None]
    when the call returns. *)
Record table_metadata : Type := {
  meta_key_properties : list string;
  meta_version : option Z
}.

Record backend : Type := {
  execute_begin : option exception;
  (** [self.get_postgres_datetime()] *)
  now : string;
  (** [uuid.uuid4()] and [arrow.get().timestamp] for the [i]-th buffered line *)
  uuid4 : nat -> string;
  timestamp : nat -> Z;
  (** [get_table_metadata]: the table comment, [None] when there is none *)
  get_table_metadata : exception + option table_metadata;
  (** lines 109-129: [SQLSchema] and the DDL of [upsert_table_schema] for the
      root table and the nested ones; on return, the names of the nested
      tables ([sql_schema.get_tables()[1:]]) *)
  upsert_table_schemas : string -> exception + list string;
  (** [persist_rows] for one table *)
  persist_rows : string -> list dict -> option exception;
  execute_commit : option exception;
  execute_rollback : option exception;
  (** the interpreter's recursion limit, as [denest_records] meets it *)
  recursion_limit : nat
}.

Definition with_record (m : record_message) (r : value) : record_message :=
  {| record := r; version := version m; time_extracted := time_extracted m;
     sequence := sequence m |}.

(** [process_record_message] (lines 208-227): it writes into the record of
    the line, which stays the record the buffer holds.  The [UUID] object of
    [uuid.uuid4()] is kept as its string. *)
Definition process_record_message (use_uuid_pk : bool) (batched_at : string)
    (uuid : string) (timestamp : Z) (record_message : record_message)
  : exception + dict :=
  match record record_message with
  | VDict record =>
      let record :=
        match version record_message with
        | Some v => dict_set record SINGER_TABLE_VERSION (VInt v)
        | None => record
        end in
      let record :=
        match time_extracted record_message with
        | Some t => if is_None (py_get record SINGER_RECEIVED_AT)
                    then dict_set record SINGER_RECEIVED_AT (VStr t) else record
        | None => record
        end in
      let record :=
        if use_uuid_pk && is_None (py_get record SINGER_PK)
        then dict_set record SINGER_PK (VStr uuid) else record in
      let record := dict_set record SINGER_BATCHED_AT (VStr batched_at) in
      let record :=
        match sequence record_message with
        | Some s => dict_set record SINGER_SEQUENCE (VInt s)
        | None => dict_set record SINGER_SEQUENCE (VInt timestamp)
        end in
      inr record
  | _ => inl (TypeError "object does not support item assignment")
  end.

(** Python's [<] on the values a version can be: integers (a [bool] is an
    integer) and strings; [None], dicts and mixed operands raise. *)
Definition number (v : value) : option Z :=
  match v with
  | VInt n => Some n
  | VBool b => Some (if b then 1 else 0)
  | _ => None
  end.

Definition py_lt (a b : value) : exception + bool :=
  match number a, number b, a, b with
  | Some x, Some y, _, _ => inr (x <? y)
  | _, _, VStr s, VStr t => inr (String.ltb s t)
  | _, _, _, _ => inl (TypeError "'<' not supported between these instances")
  end.

(** [==] on hashable values *)
Definition py_eq (a b : value) : bool :=
  match number a, number b, a, b with
  | Some x, Some y, _, _ => x =? y
  | _, _, VStr s, VStr t => String.eqb s t
  | _, _, VNone, VNone => true
  | _, _, _, _ => false
  end.

Definition hashable (v : value) : bool := negb (is_dict v || is_list v).

(** [versions.add(v)] *)
Definition set_add (versions : list value) (v : value) : list value :=
  if existsb (py_eq v) versions then versions else (versions ++ [v])%list.

(** [min(versions)] for a set that is not empty *)
Fixpoint py_min_from (least : value) (rest : list value) : exception + value :=
  match rest with
  | [] => inr least
  | v :: rest' =>
      match py_lt v least with
      | inl e => inl e
      | inr true => py_min_from v rest'
      | inr false => py_min_from least rest'
      end
  end.

Definition py_min (versions : list value) : exception + value :=
  match versions with
  | [] => inl (ValueError "min() arg is an empty sequence")
  | v :: rest => py_min_from v rest
  end.

(** [str(target_table_version)] *)
Definition py_str (v : value) : string :=
  match v with
  | VInt n => NilZero.string_of_int (Z.to_int n)
  | VBool true => "True"
  | VBool false => "False"
  | VStr s => s
  | _ => "None"
  end.

(** The loop of lines 58-64 over the lazily mapped buffer: each line is
    processed when the loop reaches it.  Returns the buffered lines as the
    loop leaves them, [max_version], [versions]. *)
Record scanned : Type := {
  lines : list record_message;
  scanned_max_version : value;
  scanned_versions : list value;
  scanned_error : option exception
}.

Fixpoint scan_buffer (b : backend) (use_uuid_pk : bool) (i : nat)
    (buffered : list record_message) (max_version : value) (versions : list value)
  : scanned :=
  match buffered with
  | [] => {| lines := []; scanned_max_version := max_version;
             scanned_versions := versions; scanned_error := None |}
  | m :: rest =>
      let stop m' e := {| lines := m' :: rest; scanned_max_version := max_version;
                          scanned_versions := versions; scanned_error := Some e |} in
      match process_record_message use_uuid_pk (now b) (uuid4 b i) (timestamp b i) m with
      | inl e => stop m e
      | inr record =>
          let m' := with_record m (VDict record) in
          let record_version := py_get record SINGER_TABLE_VERSION in
          let next max_version :=
            if hashable record_version then
              let s := scan_buffer b use_uuid_pk (S i) rest max_version
                         (set_add versions record_version) in
              {| lines := m' :: lines s; scanned_max_version := scanned_max_version s;
                 scanned_versions := scanned_versions s; scanned_error := scanned_error s |}
            else stop m' (TypeError "unhashable type") in
          if is_None record_version then next max_version
          else if is_None max_version then next record_version
          else match py_lt max_version record_version with
               | inl e => stop m' e
               | inr true => next record_version
               | inr false => next max_version
               end
      end
  end.

(** Writing the records the denester was given back into the buffered lines
    they belong to. *)
Fixpoint scatter (selected : record_message -> bool) (buffered : list record_message)
    (records : list value) : list record_message :=
  match buffered with
  | [] => []
  | m :: rest =>
      if selected m then
        match records with
        | r :: records' => with_record m r :: scatter selected rest records'
        | [] => m :: scatter selected rest []
        end
      else m :: scatter selected rest records
  end.

Definition record_items (v : value) : dict :=
  match v with VDict d => d | _ => [] end.

Fixpoint persist_nested (b : backend) (tables : list string) (rm : records_map)
  : option exception :=
  match tables with
  | [] => None
  | t :: rest =>
      match rm_lookup rm t with
      | None => Some (KeyError t)
      | Some rows =>
          match persist_rows b t rows with
          | Some e => Some e
          | None => persist_nested b rest rm
          end
      end
  end.

(** How a call of [write_batch] or of its [try] block ends: the buffer
    object after it, the transaction statements that returned, in order, and
    the exception that left it, if any. *)
Inductive sql : Type := BEGIN | COMMIT | ROLLBACK.

Record attempt : Type := {
  buffer_after : BufferedSingerStream;
  executed : list sql;
  failure : option exception
}.

(** [set(a) == set(b)], for the [key_properties] of the buffer and of the
    table comment *)
Definition same_elements (a b : list string) : bool :=
  forallb (fun x => existsb (String.eqb x) b) a
  && forallb (fun x => existsb (String.eqb x) a) b.

(** The [try] block of [write_batch] (lines 49-150), on the cursor the [with]
    statement opened.  The two [logger.warn] lines only log and are left out,
    but the comparison that guards the first one is made, since it can raise. *)
Definition write_batch_try (b : backend) (stream_buffer : BufferedSingerStream)
  : attempt :=
  let fails sb trace e := {| buffer_after := sb; executed := trace; failure := Some e |} in
  match execute_begin b with
  | Some e => fails stream_buffer [] e
  | None =>
  let s := scan_buffer b (use_uuid_pk stream_buffer) 0 (peek_buffer stream_buffer) VNone [] in
  let sb1 := with_buffer stream_buffer (lines s) (count stream_buffer) (size stream_buffer) in
  match scanned_error s with
  | Some e => fails sb1 [BEGIN] e
  | None =>
  let max_version := scanned_max_version s in
  let versions := scanned_versions s in
  match get_table_metadata b with
  | inl e => fails sb1 [BEGIN] e
  | inr table_metadata =>
  let key_properties_changed :=
    match table_metadata with
    | Some meta => negb (same_elements (key_properties stream_buffer) (meta_key_properties meta))
    | None => false
    end in
  if key_properties_changed
  then fails sb1 [BEGIN] (PostgresError "`key_properties` change detected." None)
  else
  let current_table_version :=
    match table_metadata with Some meta => meta_version meta | None => None end in
  let target_table_version := max_version in
  let earlier_check :=
    match current_table_version with
    | Some c =>
        match py_min versions with
        | inl e => Some e
        | inr least => match py_lt least (VInt c) with inl e => Some e | inr _ => None end
        end
    | None => None
    end in
  match earlier_check with
  | Some e => fails sb1 [BEGIN] e
  | None =>
  let newer :=
    match current_table_version with
    | Some c => py_lt (VInt c) target_table_version
    | None => inr false
    end in
  match newer with
  | inl e => fails sb1 [BEGIN] e
  | inr newer =>
  let root_table_name :=
    if newer then stream stream_buffer ++ NESTED_SEPARATOR ++ py_str target_table_version
    else stream stream_buffer in
  let selected (m : record_message) :=
    if is_None target_table_version then true
    else py_eq (py_get (record_items (record m)) SINGER_TABLE_VERSION) target_table_version in
  match upsert_table_schemas b root_table_name with
  | inl e => fails sb1 [BEGIN] e
  | inr nested_upsert_tables =>
  let d := denest_records (recursion_limit b) root_table_name
             (map record (filter selected (lines s))) [] (key_properties stream_buffer)
             None (-1) in
  let sb2 := with_buffer stream_buffer (scatter selected (lines s) (objects d))
               (count stream_buffer) (size stream_buffer) in
  match error d with
  | Some e => fails sb2 [BEGIN] e
  | None =>
  let records_map := map_after d in
  match rm_lookup records_map root_table_name with
  | None => fails sb2 [BEGIN] (KeyError root_table_name)
  | Some rows =>
  match persist_rows b root_table_name rows with
  | Some e => fails sb2 [BEGIN] e
  | None =>
  match persist_nested b nested_upsert_tables records_map with
  | Some e => fails sb2 [BEGIN] e
  | None =>
  match execute_commit b with
  | Some e => fails sb2 [BEGIN] e
  | None => {| buffer_after := sb2; executed := [BEGIN; COMMIT]; failure := None |}
  end end end end end end end end end end end.

(** [write_batch] (lines 43-157): the [except] clause issues [ROLLBACK] and
    raises [PostgresError] around the exception caught; an exception of
    [ROLLBACK] itself leaves the clause in its place.  [flush_buffer] is
    reached only when the [with] block ends without exception. *)
Definition write_batch (b : backend) (stream_buffer : BufferedSingerStream) : attempt :=
  if count stream_buffer =? 0
  then {| buffer_after := stream_buffer; executed := []; failure := None |}
  else
    let t := write_batch_try b stream_buffer in
    match failure t with
    | Some ex =>
        match execute_rollback b with
        | Some ex' =>
            {| buffer_after := buffer_after t; executed := executed t;
               failure := Some ex' |}
        | None =>
            {| buffer_after := buffer_after t;
               executed := (executed t ++ [ROLLBACK])%list;
               failure := Some (PostgresError "Exception writing records" (Some ex)) |}
        end
    | None =>
        {| buffer_after := flush_buffer (buffer_after t); executed := executed t;
           failure := None |}
    end.

End Postgres.

(** ** The schema upserter: [sql_base.py] *)
Module SqlBase.

Definition SEPARATOR := "__".

(** The record denester of [sql_base.py] ([_denest_subrecord],
    [_denest_record], [_denest_records], lines 175-290) is, statement for
    statement, the one of [PostgresTarget], with [SEPARATOR] for
    [NESTED_SEPARATOR]; at the inner call of [_denest_subrecord] the source
    itself notes "Throws exception due to wrong number of args". *)
Definition _denest_subrecord := Postgres.denest_subrecord.
Definition _denest_record := Postgres.denest_record.
Definition _denest_records := Postgres.denest_records.

Section Upserter.

(** The column schemas and the three functions of [json_schema.py] the
    upserter calls; that file is outside the modelled code, so they are taken
    as given. *)
Variable schema : Type.
Variable to_sql : schema -> string.
Variable sql_shorthand : schema -> string.
Variable make_nullable : schema -> schema.

(** An entry of [TABLE_SCHEMA['mappings']]: [{'type': ..., 'from': ...}].
    [json_schema.sql_shorthand(mapping)] reads the entry as a schema:
    [mapped_type]. *)
Record mapping : Type := {
  from : string;
  mapped_type : schema
}.

(** A [TABLE_SCHEMA] as far as the upserter reads it.  [mappings] is [None]
    when the key is absent. *)
Record TABLE_SCHEMA : Type := {
  name : string;
  mappings : option (list (string * mapping));
  properties : list (string * schema)
}.

(** [_mapping_name] (lines 48-49) *)
Definition _mapping_name (field : string) (s : schema) : string :=
  field ++ SEPARATOR ++ sql_shorthand s.

(** The abstract methods of [SQLInterface] (lines 336-441).  A method of the
    remote that raises ends the call with its exception; the model follows
    the calls that return, each taking the remote from one state to the next. *)
Class SQLInterface (connection : Type) : Type := {
  get_table_schema : connection -> string -> option TABLE_SCHEMA;
  is_table_empty : connection -> string -> bool;
  canonicalize_identifier : string -> string;
  add_column : connection -> string -> string -> schema -> connection;
  drop_column : connection -> string -> string -> connection;
  migrate_column : connection -> string -> string -> string -> connection;
  make_column_nullable : connection -> string -> string -> connection;
  add_column_mapping : connection -> string -> string -> string -> schema -> connection;
  drop_column_mapping : connection -> string -> string -> connection
}.

(** [_get_mapping] (lines 443-457): [dict([...])] keeps, for a repeated key,
    the pair that comes last. *)
Definition _get_mapping (existing_schema : TABLE_SCHEMA) (field : string) (s : schema)
  : option string :=
  match mappings existing_schema with
  | None => None
  | Some ms =>
      fold_left
        (fun found entry =>
           if String.eqb (from (snd entry)) field
              && String.eqb (sql_shorthand (mapped_type (snd entry))) (sql_shorthand s)
           then Some (fst entry) else found)
        ms None
  end.

(** Truth value of what [_get_mapping] returns. *)
Definition found_mapping (r : option string) : bool :=
  match r with
  | Some to_field => negb (String.eqb to_field "")
  | None => false
  end.

Section Helper.
Context {connection : Type} {self : SQLInterface connection}.

(** The variables the loop of [upsert_table_helper] updates. *)
Record upsert_state : Type := {
  remote : connection;
  existing_columns : list (string * schema);
  existing_columns_raw_names : list string
}.

(** [name in existing_columns and to_sql(s) == to_sql(existing_columns[name])] *)
Definition same_sql (existing_columns : list (string * schema)) (name : string)
    (s : schema) : bool :=
  match dict_lookup existing_columns name with
  | Some e => String.eqb (to_sql s) (to_sql e)
  | None => false
  end.

Definition in_list (x : string) (l : list string) : bool := existsb (String.eqb x) l.

(** The body of the loop (lines 482-656), one local column. *)
Definition upsert_column (existing_schema : TABLE_SCHEMA) (table_name : string)
    (table_empty : bool) (st : upsert_state)
    (raw_column_name : string) (column_schema : schema)
  : exception + upsert_state :=
  let connection := remote st in
  let existing_columns := existing_columns st in
  let existing_columns_raw_names := existing_columns_raw_names st in
  let canonicalized_column_name := canonicalize_identifier raw_column_name in
  let canonicalized_typed_column_name :=
    _mapping_name canonicalized_column_name column_schema in
  let nullable_column_schema := make_nullable column_schema in
  (* NAME COLLISION *)
  if negb (String.eqb raw_column_name canonicalized_column_name)
     && negb (in_list raw_column_name existing_columns_raw_names)
     && (dict_mem existing_columns canonicalized_column_name
         || dict_mem existing_columns canonicalized_typed_column_name)
  then inl (PyException "NAME COLLISION: Cannot handle merging column")
  (* EXISTING COLUMNS *)
  else if same_sql existing_columns canonicalized_column_name column_schema
  then inr st
  else if same_sql existing_columns canonicalized_typed_column_name column_schema
  then inr st
  else if same_sql existing_columns canonicalized_column_name nullable_column_schema
  then inr st
  else if same_sql existing_columns canonicalized_typed_column_name nullable_column_schema
  then inr st
  else
  match dict_lookup existing_columns canonicalized_column_name with
  | Some existing =>
      (* NULL COMPATIBILITY *)
      if String.eqb (to_sql nullable_column_schema) (to_sql (make_nullable existing))
      then
        inr {| remote := make_column_nullable connection table_name canonicalized_column_name;
               existing_columns :=
                 dict_set existing_columns canonicalized_column_name (make_nullable existing);
               existing_columns_raw_names := existing_columns_raw_names |}
      (* FIRST DUPLICATE TYPE *)
      else
        let connection :=
          if found_mapping (_get_mapping existing_schema raw_column_name existing)
          then drop_column_mapping connection table_name canonicalized_column_name
          else connection in
        let existing_column_mapping := _mapping_name canonicalized_column_name existing in
        let new_column_mapping := _mapping_name canonicalized_column_name column_schema in
        let existing_columns :=
          dict_set existing_columns existing_column_mapping (make_nullable existing) in
        let existing_columns :=
          dict_set existing_columns new_column_mapping (make_nullable column_schema) in
        match dict_lookup existing_columns existing_column_mapping,
              dict_lookup existing_columns new_column_mapping with
        | Some existing_mapped, Some new_mapped =>
            let connection :=
              add_column_mapping connection table_name raw_column_name
                existing_column_mapping existing_mapped in
            let connection :=
              add_column_mapping connection table_name raw_column_name
                new_column_mapping new_mapped in
            let connection :=
              add_column connection table_name existing_column_mapping existing_mapped in
            let connection :=
              add_column connection table_name new_column_mapping new_mapped in
            let connection :=
              migrate_column connection table_name canonicalized_column_name
                existing_column_mapping in
            let connection := drop_column connection table_name canonicalized_column_name in
            inr {| remote := connection;
                   existing_columns := dict_del existing_columns canonicalized_column_name;
                   existing_columns_raw_names := existing_columns_raw_names |}
        | _, _ => inl (KeyError existing_column_mapping)
        end
  | None =>
      (* MULTI DUPLICATE TYPE *)
      if in_list raw_column_name existing_columns_raw_names
      then
        let connection :=
          add_column_mapping connection table_name raw_column_name
            canonicalized_typed_column_name nullable_column_schema in
        let connection :=
          add_column connection table_name canonicalized_typed_column_name
            nullable_column_schema in
        inr {| remote := connection;
               existing_columns :=
                 dict_set existing_columns canonicalized_typed_column_name
                   nullable_column_schema;
               existing_columns_raw_names :=
                 existing_columns_raw_names ++ [canonicalized_typed_column_name] |}
      (* NEW COLUMN, VALID NAME, EMPTY TABLE *)
      else if String.eqb canonicalized_column_name raw_column_name && table_empty
      then
        inr {| remote := add_column connection table_name canonicalized_column_name
                           column_schema;
               existing_columns :=
                 dict_set existing_columns canonicalized_column_name column_schema;
               existing_columns_raw_names := existing_columns_raw_names |}
      (* NEW COLUMN, VALID NAME *)
      else if String.eqb canonicalized_column_name raw_column_name
      then
        inr {| remote := add_column connection table_name canonicalized_column_name
                           nullable_column_schema;
               existing_columns :=
                 dict_set existing_columns canonicalized_column_name nullable_column_schema;
               existing_columns_raw_names := existing_columns_raw_names |}
      (* NEW COLUMN, INVALID NAME, EMPTY TABLE *)
      else if table_empty
      then
        let connection :=
          add_column_mapping connection table_name raw_column_name
            canonicalized_column_name column_schema in
        inr {| remote := add_column connection table_name canonicalized_column_name
                           column_schema;
               existing_columns :=
                 dict_set existing_columns canonicalized_column_name column_schema;
               existing_columns_raw_names :=
                 existing_columns_raw_names ++ [canonicalized_column_name] |}
      (* NEW COLUMN, INVALID NAME *)
      else
        let connection :=
          add_column_mapping connection table_name raw_column_name
            canonicalized_column_name nullable_column_schema in
        inr {| remote := add_column connection table_name canonicalized_column_name
                           nullable_column_schema;
               existing_columns :=
                 dict_set existing_columns canonicalized_column_name nullable_column_schema;
               existing_columns_raw_names :=
                 existing_columns_raw_names ++ [canonicalized_column_name] |}
  end.

Fixpoint upsert_columns (existing_schema : TABLE_SCHEMA) (table_name : string)
    (table_empty : bool) (st : upsert_state) (new_columns : list (string * schema))
  : exception + upsert_state :=
  match new_columns with
  | [] => inr st
  | (raw_column_name, column_schema) :: rest =>
      match upsert_column existing_schema table_name table_empty st
              raw_column_name column_schema with
      | inl e => inl e
      | inr st' => upsert_columns existing_schema table_name table_empty st' rest
      end
  end.

(** [upsert_table_helper] (lines 459-658): the remote after the call, and the
    schema the closing [get_table_schema] reads from it. *)
Definition upsert_table_helper (connection0 : connection) (local : TABLE_SCHEMA)
  : exception + (connection * option TABLE_SCHEMA) :=
  let table_name := name local in
  match get_table_schema connection0 table_name with
  | None => inl (PyException "No remote table found. Have you run a `CREATE TABLE` operation?")
  | Some existing_schema =>
      let new_columns := properties local in
      let existing_columns_raw_names :=
        match mappings existing_schema with
        | Some ms => map (fun entry => from (snd entry)) ms
        | None => []
        end in
      let table_empty := is_table_empty connection0 table_name in
      match upsert_columns existing_schema table_name table_empty
              {| remote := connection0;
                 existing_columns := properties existing_schema;
                 existing_columns_raw_names := existing_columns_raw_names |}
              new_columns with
      | inl e => inl e
      | inr st => inr (remote st, get_table_schema (remote st) table_name)
      end
  end.

End Helper.
End Upserter.
End SqlBase.

(** ** Tables, columns and versions: [postgres.py] *)
Module PostgresTables.
Import SingerStream Postgres.

(** What the methods below send to the cursor, statement by statement.  The
    statement of [activate_version] that swaps a table for its versioned one
    ends with [COMMIT]. *)
Inductive statement : Type :=
| Begin
| Rollback
| CreateTable (table_name : string) (columns : list (string * string))
              (comment : option (list string * value))
| AddColumn (table_name column_name data_type : string) (default_value : option value)
| SelectTablesLike (pattern : string)
| RenameDropCommit (stream_table_old stream_table version_table : string).

(** The exceptions of this part of the code: those of [exception], and
    [IndexError] for [json_type[0]] of an empty sequence. *)
Inductive raised : Type :=
| Raised (e : exception)
| IndexError.

(** [needle in s] for two strings *)
Fixpoint substring_of (needle s : string) : bool :=
  String.prefix needle s
  || match s with
     | EmptyString => false
     | String _ rest => substring_of needle rest
     end.

Definition is_str (s : string) (v : value) : bool :=
  match v with VStr t => String.eqb t s | _ => false end.

(** ['null' in json_type] *)
Definition contains_null (json_type : value) : raised + bool :=
  match json_type with
  | VList l => inr (existsb (is_str "null") l)
  | VStr s => inr (substring_of "null" s)
  | VDict d => inr (dict_mem d "null")
  | _ => inl (Raised (TypeError "argument is not iterable"))
  end.

(** [len(json_type)] of a list, a string or a dict *)
Definition py_len (v : value) : nat :=
  match v with
  | VList l => List.length l
  | VStr s => String.length s
  | VDict d => List.length d
  | _ => 0
  end.

(** [json_type[i]] *)
Definition item (json_type : value) (i : nat) : raised + value :=
  match json_type with
  | VList l => match nth_error l i with Some v => inr v | None => inl IndexError end
  | VStr s => match String.get i s with
              | Some c => inr (VStr (String c EmptyString))
              | None => inl IndexError
              end
  | VDict _ => inl (Raised (KeyError "0"))
  | _ => inl (Raised (TypeError "object is not subscriptable"))
  end.

(** [get_null_default] (lines 534-552), for a schema that is a JSON object. *)
Definition get_null_default (column : string) (target_json_schema : value)
  : raised + value :=
  match target_json_schema with
  | VDict schema =>
      match dict_lookup schema "default" with
      | Some default => inr default
      | None =>
          match dict_lookup schema "type" with
          | None => inl (Raised (KeyError "type"))
          | Some json_type =>
              match contains_null json_type with
              | inl e => inl e
              | inr true => inr VNone
              | inr false =>
                  let _type :=
                    if Nat.eqb (py_len json_type) 1 || negb (is_str "null" json_type)
                    then item json_type 0 else item json_type 1 in
                  match _type with
                  | inl e => inl e
                  | inr _type =>
                      if is_str "string" _type then inr (VStr "")
                      else if is_str "boolean" _type then inr (VStr "FALSE")
                      else inl (Raised (PostgresError
                                  "Non-trival default needed on new non-null column" None))
                  end
              end
          end
      end
  | _ => inl (Raised (TypeError "schema is not an object"))
  end.

(** [add_column] (lines 554-567): the [DEFAULT] clause is there for a
    default that is not [None]. *)
Definition add_column (table_name column_name data_type : string)
    (default_value : value) : statement :=
  AddColumn table_name column_name data_type
    (if is_None default_value then None else Some default_value).

Section Tables.

(** [json_schema.to_sql], of the file [json_schema.py] outside the modelled
    code *)
Variable to_sql : value -> string.

(** What [merge_put_schemas] leaves: the properties of [existing_schema],
    which it writes into, the statements sent, and the exception, if any. *)
Record merged : Type := {
  merged_properties : dict;
  added : list statement;
  merge_error : option raised
}.

(** [merge_put_schemas] (lines 569-585): the loop over [new_properties]. *)
Fixpoint merge_put_schemas (table_name : string) (existing_properties : dict)
    (new_properties : dict) : merged :=
  match new_properties with
  | [] => {| merged_properties := existing_properties; added := []; merge_error := None |}
  | (prop, new_schema) :: rest =>
      if dict_mem existing_properties prop
      then merge_put_schemas table_name existing_properties rest
      else
        let existing_properties := dict_set existing_properties prop new_schema in
        let data_type := to_sql new_schema in
        match get_null_default prop new_schema with
        | inl e => {| merged_properties := existing_properties; added := [];
                      merge_error := Some e |}
        | inr default_value =>
            let r := merge_put_schemas table_name existing_properties rest in
            {| merged_properties := merged_properties r;
               added := add_column table_name prop data_type default_value :: added r;
               merge_error := merge_error r |}
        end
  end.

(** [create_table] (lines 472-493): the comment is written when
    [key_properties] is neither [None] nor empty. *)
Definition create_table (table_name : string) (properties : dict)
    (key_properties : option (list string)) (table_version : value) : statement :=
  CreateTable table_name
    (map (fun kv => (fst kv, to_sql (snd kv))) properties)
    match key_properties with
    | Some (k :: ks) => Some (k :: ks, table_version)
    | _ => None
    end.

(** [get_temp_table_name] (lines 495-496), [uuid_hex] being
    [str(uuid.uuid4()).replace('-', '')] *)
Definition get_temp_table_name (uuid_hex : string) (stream_name : string) : string :=
  stream_name ++ NESTED_SEPARATOR ++ uuid_hex.

(** [upsert_table_schema] (lines 302-329).  [existing_table_schema] is what
    [get_schema] read: the properties of the table, [None] for a table
    without columns.  Returns the statements sent and the name of the
    temporary table. *)
Definition upsert_table_schema (existing_table_schema : option dict) (uuid_hex : string)
    (table_name : string) (properties : dict) (key_properties : option (list string))
    (table_version : value) : list statement * (raised + string) :=
  match existing_table_schema with
  | Some existing_properties =>
      let r := merge_put_schemas table_name existing_properties properties in
      match merge_error r with
      | Some e => (added r, inl e)
      | None =>
          let target_table_name := get_temp_table_name uuid_hex table_name in
          ((added r
            ++ [create_table target_table_name (merged_properties r) key_properties
                  table_version])%list,
           inr target_table_name)
      end
  | None =>
      let target_table_name := get_temp_table_name uuid_hex table_name in
      ([create_table table_name properties key_properties table_version;
        create_table target_table_name properties key_properties table_version],
       inr target_table_name)
  end.

End Tables.

(** The pattern [SINGER_LEVEL.format('[0-9]+')] of [persist_rows] (line 456),
    as [re.match] applies it: the header starts with [_sdc_level_], one or
    more digits and [_id]. *)
Definition is_digit (c : ascii) : bool :=
  let n := nat_of_ascii c in (Nat.leb 48 n && Nat.leb n 57)%bool.

Fixpoint skip_digits (s : string) : string :=
  match s with
  | String c rest => if is_digit c then skip_digits rest else s
  | EmptyString => s
  end.

Fixpoint strip_prefix (p s : string) : option string :=
  match p, s with
  | EmptyString, _ => Some s
  | String a p', String b s' => if Ascii.eqb a b then strip_prefix p' s' else None
  | String _ _, EmptyString => None
  end.

Definition matches_level_pattern (header : string) : bool :=
  match strip_prefix "_sdc_level_" header with
  | Some (String c rest) =>
      is_digit c && String.prefix "_id" (skip_digits rest)
  | _ => false
  end.

(** [subkeys] of [persist_rows] (lines 456-457) *)
Definition subkeys (headers : list string) : list string :=
  filter matches_level_pattern headers.

(** *** [activate_version] *)

(** What the database answers during one [activate_version]. *)
Record version_backend : Type := {
  begin : option exception;
  table_comment : exception + option table_metadata;
  (** [SELECT tablename FROM pg_tables WHERE ... tablename like pattern] *)
  tables_like : string -> exception + list string;
  (** the statement that renames and drops, for the versioned table given *)
  rename_drop_commit : string -> option exception;
  rollback : option exception
}.

(** [s[n:]] *)
Fixpoint drop_chars (n : nat) (s : string) : string :=
  match n, s with
  | O, _ => s
  | S n', String _ rest => drop_chars n' rest
  | S _, EmptyString => EmptyString
  end.

(** The loop of lines 185-198 over the tables the [SELECT] returned. *)
Fixpoint swap_tables (b : version_backend) (stream versioned_root_table : string)
    (versioned_tables : list string) : list statement * option exception :=
  match versioned_tables with
  | [] => ([], None)
  | versioned_table_name :: rest =>
      let table_name :=
        stream ++ drop_chars (String.length versioned_root_table) versioned_table_name in
      match rename_drop_commit b versioned_table_name with
      | Some e => ([], Some e)
      | None =>
          let r := swap_tables b stream versioned_root_table rest in
          (RenameDropCommit (table_name ++ NESTED_SEPARATOR ++ "old") table_name
             versioned_table_name :: fst r,
           snd r)
      end
  end.

(** The [try] block of [activate_version] (lines 161-198); the two logger
    calls only log. *)
Definition activate_version_try (b : version_backend) (stream : string) (version : value)
  : list statement * option exception :=
  match begin b with
  | Some e => ([], Some e)
  | None =>
      match table_comment b with
      | inl e => ([Begin], Some e)
      | inr None => ([Begin], None)
      | inr (Some table_metadata) =>
          if py_eq (match meta_version table_metadata with
                    | Some v => VInt v
                    | None => VNone
                    end) version
          then ([Begin], None)
          else
            let versioned_root_table := stream ++ NESTED_SEPARATOR ++ py_str version in
            match tables_like b (versioned_root_table ++ "%") with
            | inl e => ([Begin], Some e)
            | inr versioned_tables =>
                let r := swap_tables b stream versioned_root_table versioned_tables in
                ((Begin :: SelectTablesLike (versioned_root_table ++ "%") :: fst r)%list,
                 snd r)
            end
      end
  end.

(** [activate_version] (lines 159-206): the [except] clause issues
    [ROLLBACK] and raises [PostgresError] around the exception caught. *)
Definition activate_version (b : version_backend) (stream : string) (version : value)
  : list statement * option exception :=
  let t := activate_version_try b stream version in
  match snd t with
  | Some ex =>
      match rollback b with
      | Some ex' => (fst t, Some ex')
      | None =>
          ((fst t ++ [Rollback])%list,
           Some (PostgresError
                   (stream ++ " - Exception activating table version " ++ py_str version)
                   (Some ex)))
      end
  | None => t
  end.

End PostgresTables.

(** ** Rows for the remote: [sql_base.py] *)
Module SqlBaseRows.
Import Postgres SqlBase.

Section Serializer.

(** [json_schema.sql_shorthand], of the file [json_schema.py] outside the
    modelled code; a column schema is the JSON object it is in the source. *)
Variable sql_shorthand : dict -> string.

(** The two methods a target implements (lines 739-766), taken where they
    return. *)
Variable serialize_table_record_null_value :
  TABLE_SCHEMA dict -> TABLE_SCHEMA dict -> option string -> value -> value.
Variable serialize_table_record_datetime_value :
  TABLE_SCHEMA dict -> TABLE_SCHEMA dict -> string -> value -> value.

(** The order in which the interpreter iterates over the set built from a
    list of names. *)
Variable set_order : list string -> list string.

(** [_serialize_table_record_field_name] (lines 722-737) *)
Definition _serialize_table_record_field_name (remote_schema streamed_schema :
    TABLE_SCHEMA dict) (field : string) : string :=
  match dict_lookup (properties streamed_schema) field with
  | Some s =>
      match _get_mapping sql_shorthand remote_schema field s with
      | Some to_field => if String.eqb to_field "" then field else to_field
      | None => field
      end
  | None => field
  end.

(** The body of the loop over [fields] (lines 808-826), one field of one
    record.  [row[field_name]] raises [KeyError] for a name the row does
    not hold. *)
Definition serialize_field (remote_schema streamed_schema : TABLE_SCHEMA dict)
    (NULL_DEFAULT : value) (remote_fields : list string) (record row : dict)
    (field : string) : exception + dict :=
  let value := py_get record field in
  let value :=
    match dict_lookup (properties streamed_schema) field with
    | Some s =>
        if negb (is_None (py_get s "default")) && is_None value
        then py_get s "default" else value
    | None => value
    end in
  let value :=
    match dict_lookup (properties streamed_schema) field with
    | Some s =>
        if PostgresTables.is_str "date-time" (py_get s "format") && negb (is_None value)
        then serialize_table_record_datetime_value remote_schema streamed_schema
               field value
        else value
    | None => value
    end in
  let value :=
    serialize_table_record_null_value remote_schema streamed_schema (Some field) value in
  let field_name :=
    _serialize_table_record_field_name remote_schema streamed_schema field in
  if in_list field_name remote_fields && negb (dict_mem row field_name)
  then inr (dict_set row field_name value)
  else
    match dict_lookup row field_name with
    | None => inl (KeyError field_name)
    | Some current =>
        if py_eq current NULL_DEFAULT then inr (dict_set row field_name value)
        else inr row
    end.

Fixpoint serialize_fields (remote_schema streamed_schema : TABLE_SCHEMA dict)
    (NULL_DEFAULT : value) (remote_fields : list string) (record row : dict)
    (fields : list string) : exception + dict :=
  match fields with
  | [] => inr row
  | field :: rest =>
      match serialize_field remote_schema streamed_schema NULL_DEFAULT remote_fields
              record row field with
      | inl e => inl e
      | inr row' =>
          serialize_fields remote_schema streamed_schema NULL_DEFAULT remote_fields
            record row' rest
      end
  end.

(** The loop over [records] (lines 805-828) *)
Fixpoint serialize_rows (remote_schema streamed_schema : TABLE_SCHEMA dict)
    (NULL_DEFAULT : value) (remote_fields fields : list string) (default_row : dict)
    (records : list dict) : exception + list dict :=
  match records with
  | [] => inr []
  | record :: rest =>
      match serialize_fields remote_schema streamed_schema NULL_DEFAULT remote_fields
              record default_row fields with
      | inl e => inl e
      | inr row =>
          match serialize_rows remote_schema streamed_schema NULL_DEFAULT remote_fields
                  fields default_row rest with
          | inl e => inl e
          | inr rows => inr (row :: rows)
          end
      end
  end.

(** [_serialize_table_records] (lines 768-830) *)
Definition _serialize_table_records (remote_schema streamed_schema : TABLE_SCHEMA dict)
    (records : list dict) : exception + list dict :=
  let remote_fields := set_order (keys (properties remote_schema)) in
  let fields :=
    set_order (keys (properties remote_schema) ++ keys (properties streamed_schema)) in
  let NULL_DEFAULT :=
    serialize_table_record_null_value remote_schema streamed_schema None VNone in
  let default_row :=
    fold_left (fun row field => dict_set row field NULL_DEFAULT) remote_fields [] in
  serialize_rows remote_schema streamed_schema NULL_DEFAULT remote_fields fields
    default_row records.

End Serializer.

End SqlBaseRows.

(** ** The line loop: [target_tools.py] *)
Module TargetTools.

(** What [stream_to_target] does with its collaborators, in order:
    [_line_handler] returned for the line counted [line_count];
    [state_tracker.flush_streams()]; [state_tracker.flush_streams(force=True)];
    [LOGGER.critical(e)]; [_report_invalid_records]. *)
Inductive event : Type :=
| Handled (line_count : Z)
| Flushed
| ForceFlushed
| Critical
| Reported.

Inductive stopped : Type :=
| Raised (e : exception)
| ZeroDivisionError.

Section Loop.

(** A parsed line, as [load] yields it. *)
Variable line : Type.

(** [_line_handler] and [flush_streams] work on the stream tracker, whose
    file is outside the modelled code: [None] when the call returns, for the
    line counted [line_count]. *)
Variable _line_handler : Z -> line -> option exception.
Variable flush_streams : Z -> bool -> option exception.

(** The loop of lines 51-62 *)
Fixpoint lines_loop (batch_detection_threshold : Z) (lines : list line) (line_count : Z)
  : list event * option stopped :=
  match lines with
  | [] => ([], None)
  | line_data :: rest =>
      match _line_handler line_count line_data with
      | Some e => ([], Some (Raised e))
      | None =>
          let next (flushed : list event) :=
            let r := lines_loop batch_detection_threshold rest (line_count + 1) in
            ((Handled line_count :: flushed ++ fst r)%list, snd r) in
          if 0 <? line_count then
            if batch_detection_threshold =? 0
            then ([Handled line_count], Some ZeroDivisionError)
            else if line_count mod batch_detection_threshold =? 0
            then match flush_streams line_count false with
                 | Some e => ([Handled line_count], Some (Raised e))
                 | None => next [Flushed]
                 end
            else next []
          else next []
      end
  end.

(** [stream_to_target] (lines 29-72), from the loop on; the lines before it
    read the configuration and send the usage statistics. *)
Definition stream_to_target (batch_detection_threshold : Z) (lines : list line)
  : list event * option stopped :=
  let r := lines_loop batch_detection_threshold lines 0 in
  match snd r with
  | Some e => ((fst r ++ [Critical; Reported])%list, Some e)
  | None =>
      match flush_streams (Z.of_nat (List.length lines)) true with
      | Some e => ((fst r ++ [Critical; Reported])%list, Some (Raised e))
      | None => ((fst r ++ [ForceFlushed; Reported])%list, None)
      end
  end.

End Loop.

End TargetTools.

(** ** A reference remote, for worked examples *)

(** Modelled from the spec: the functions of [json_schema.py] (section 4.1),
    a file of the package outside the modelled code.  A column schema keeps
    its list of type names and its [format]; the shorthand is the tag the
    spec lists ([s], [i], [b], [f], [t]); [to_sql] is the type family with
    [NOT NULL] for a schema that does not admit [null]. *)
Module JsonSchema.

Record schema : Type := {
  types : list string;
  format : option string
}.

Definition is_nullable (s : schema) : bool := existsb (String.eqb "null") (types s).

Definition make_nullable (s : schema) : schema :=
  if is_nullable s then s else {| types := "null" :: types s; format := format s |}.

Definition family (s : schema) : string :=
  match filter (fun t => negb (String.eqb t "null")) (types s) with
  | t :: _ =>
      if String.eqb t "string" then
        match format s with
        | Some f => if String.eqb f "date-time" then "date-time" else "string"
        | None => "string"
        end
      else t
  | [] => "null"
  end.

Definition sql_shorthand (s : schema) : string :=
  let f := family s in
  if String.eqb f "string" then "s"
  else if String.eqb f "integer" then "i"
  else if String.eqb f "boolean" then "b"
  else if String.eqb f "number" then "f"
  else if String.eqb f "date-time" then "t"
  else "".

Definition to_sql (s : schema) : string :=
  let f := family s in
  (if String.eqb f "integer" then "bigint"
   else if String.eqb f "boolean" then "boolean"
   else if String.eqb f "number" then "double precision"
   else if String.eqb f "date-time" then "timestamp with time zone"
   else "text")
  ++ (if is_nullable s then "" else " NOT NULL").

(** [{'type': json_schema.get_type(schema)}], what a mapping keeps *)
Definition type_only (s : schema) : schema := {| types := types s; format := None |}.

End JsonSchema.

(** Modelled from the spec: an in-memory remote that implements the abstract
    methods of [SQLInterface] as their docstrings (lines 336-441) and section
    4.5 describe them; the package's implementation of these methods is
    outside the modelled code.  A table has its columns, its mappings and its
    rows (column name to value); [canonicalize_identifier] lowercases. *)
Module Remote.
Import JsonSchema.

Definition mapping := SqlBase.mapping schema.
Definition TABLE_SCHEMA := SqlBase.TABLE_SCHEMA schema.

Record table : Type := {
  columns : list (string * schema);
  column_mappings : list (string * mapping);
  rows : list dict
}.

Definition remote : Type := list (string * table).

Definition alter (r : remote) (table_name : string) (f : table -> table) : remote :=
  match dict_lookup r table_name with
  | Some t => dict_set r table_name (f t)
  | None => r
  end.

Definition lower (c : ascii) : ascii :=
  let n := nat_of_ascii c in
  if (Nat.leb 65 n && Nat.leb n 90)%bool then ascii_of_nat (n + 32) else c.

Fixpoint lowercase (s : string) : string :=
  match s with
  | EmptyString => EmptyString
  | String c rest => String (lower c) (lowercase rest)
  end.

#[export] Instance in_memory : SqlBase.SQLInterface schema remote := {|
  SqlBase.get_table_schema r table_name :=
    match dict_lookup r table_name with
    | Some t => Some {| SqlBase.name := table_name;
                        SqlBase.mappings := Some (column_mappings t);
                        SqlBase.properties := columns t |}
    | None => None
    end;
  SqlBase.is_table_empty r table_name :=
    match dict_lookup r table_name with
    | Some t => match rows t with [] => true | _ => false end
    | None => true
    end;
  SqlBase.canonicalize_identifier := lowercase;
  SqlBase.add_column r table_name name s :=
    alter r table_name (fun t =>
      {| columns := dict_set (columns t) name s;
         column_mappings := column_mappings t; rows := rows t |});
  SqlBase.drop_column r table_name name :=
    alter r table_name (fun t =>
      {| columns := dict_del (columns t) name;
         column_mappings := column_mappings t;
         rows := map (fun row => dict_del row name) (rows t) |});
  SqlBase.migrate_column r table_name from_column to_column :=
    alter r table_name (fun t =>
      {| columns := columns t; column_mappings := column_mappings t;
         rows := map (fun row =>
                        match dict_lookup row from_column with
                        | Some v => dict_set row to_column v
                        | None => row
                        end) (rows t) |});
  SqlBase.make_column_nullable r table_name name :=
    alter r table_name (fun t =>
      {| columns := match dict_lookup (columns t) name with
                    | Some s => dict_set (columns t) name (make_nullable s)
                    | None => columns t
                    end;
         column_mappings := column_mappings t; rows := rows t |});
  SqlBase.add_column_mapping r table_name name mapped_name s :=
    alter r table_name (fun t =>
      {| columns := columns t;
         column_mappings :=
           dict_set (column_mappings t) mapped_name
             {| SqlBase.from := name; SqlBase.mapped_type := type_only s |};
         rows := rows t |});
  SqlBase.drop_column_mapping r table_name name :=
    alter r table_name (fun t =>
      {| columns := columns t;
         column_mappings := dict_del (column_mappings t) name;
         rows := rows t |})
|}.

(** [upsert_table_helper] of [sql_base.py] over this remote. *)
Definition upsert_table_helper (r : remote) (local : TABLE_SCHEMA)
  : exception + (remote * option TABLE_SCHEMA) :=
  SqlBase.upsert_table_helper to_sql sql_shorthand make_nullable r local.

Definition integer : schema := {| types := ["integer"]; format := None |}.
Definition string_ : schema := {| types := ["string"]; format := None |}.
Definition boolean : schema := {| types := ["boolean"]; format := None |}.

Definition local_schema (table_name : string) (props : list (string * schema))
  : TABLE_SCHEMA :=
  {| SqlBase.name := table_name; SqlBase.mappings := Some []; SqlBase.properties := props |}.

End Remote.

(** * Worked inputs *)

(** ** Worked inputs for the stream buffer *)
Module StreamExamples.
Import SingerStream.

(** A validator for the schema [{"id": integer}]: a record passes when its
    [id] is an integer. *)
Definition id_is_integer (r : value) : option ValidationError :=
  match r with
  | VDict d =>
      match py_get d "id" with
      | VInt _ => None
      | _ => Some (MkValidationError "'id' is not of type 'integer'")
      end
  | _ => Some (MkValidationError "record is not of type 'object'")
  end.

Definition line (id : value) (v : option Z) : record_message :=
  {| record := VDict [("id", id)]; version := v; time_extracted := None;
     sequence := None |}.

(** [BufferedSingerStream('users', schema, ['id'], invalid_records_threshold=2)] *)
Definition users : BufferedSingerStream :=
  init "users" ["id"] id_is_integer None (Some 2) DEFAULT__MAX_ROWS DEFAULT__MAX_BUFFER_SIZE.

(** [BufferedSingerStream('users', schema, ['id'], max_rows=-1)] *)
Definition users_negative_ceiling : BufferedSingerStream :=
  init "users" ["id"] id_is_integer None None (-1) DEFAULT__MAX_BUFFER_SIZE.

(** The buffer [users] holding one line of version 5. *)
Definition users_at_5 : BufferedSingerStream :=
  after (add_record_message (fun _ => 64) users (line (VInt 1) (Some 5))).

End StreamExamples.

(** ** Worked inputs for the denester *)
Module DenestExamples.

(** [{"id": 1, "address": {"geo": {"lat": 5}}}] *)
Definition object_in_object : value :=
  VDict [("id", VInt 1); ("address", VDict [("geo", VDict [("lat", VInt 5)])])].

(** [{"id": 1, "name": null, "address": {"city": null, "zip": "75"}}] *)
Definition null_in_object : value :=
  VDict [("id", VInt 1); ("name", VNone);
         ("address", VDict [("city", VNone); ("zip", VStr "75")])].

(** [{"id": 7, "_sdc_sequence": 3, "tags": [{"t": "x"}, {"t": "y", "more": [{"m": 1}]}]}] *)
Definition tags : list value :=
  [VDict [("t", VStr "x")];
   VDict [("t", VStr "y"); ("more", VList [VDict [("m", VInt 1)]])]].

Definition with_arrays : dict :=
  [("id", VInt 7); ("_sdc_sequence", VInt 3); ("tags", VList tags)].

(** What the top-level branch of [denest_records] hands down for it. *)
Definition with_arrays_pk_fks : dict :=
  [("_sdc_source_key_id", VInt 7); ("_sdc_sequence", VInt 3)].

End DenestExamples.

(** ** Worked inputs for the batch writer *)
Module BatchExamples.
Import SingerStream Postgres.

(** A database that answers every statement. *)
Definition healthy : backend :=
  {| execute_begin := None;
     now := "2018-06-01 00:00:00.0000+00:00";
     uuid4 := fun _ => "1b4e28ba2fa111d2883f0016d3cca427";
     timestamp := fun _ => 1527811200;
     get_table_metadata := inr None;
     upsert_table_schemas := fun _ => inr [];
     persist_rows := fun _ _ => None;
     execute_commit := None;
     execute_rollback := None;
     recursion_limit := 1000 |}.

(** The same database losing the connection when the table comment is read. *)
Definition losing_connection : backend :=
  {| execute_begin := None;
     now := "2018-06-01 00:00:00.0000+00:00";
     uuid4 := fun _ => "1b4e28ba2fa111d2883f0016d3cca427";
     timestamp := fun _ => 1527811200;
     get_table_metadata := inl (DriverError "server closed the connection unexpectedly");
     upsert_table_schemas := fun _ => inr [];
     persist_rows := fun _ _ => None;
     execute_commit := None;
     execute_rollback := None;
     recursion_limit := 1000 |}.

End BatchExamples.

(** ** Worked inputs for the schema upserter *)
Module UpsertExamples.
Import JsonSchema Remote.

(** Table [users] with the column [age: integer] and one row. *)
Definition users_age_integer : remote :=
  [("users", {| columns := [("age", integer)]; column_mappings := [];
                rows := [[("age", VInt 41)]] |})].

(** The same table when the column [age] came from the raw name [AGE]. *)
Definition users_age_from_AGE : remote :=
  [("users", {| columns := [("age", integer)];
                column_mappings :=
                  [("age", {| SqlBase.from := "AGE"; SqlBase.mapped_type := integer |})];
                rows := [[("age", VInt 41)]] |})].

Definition nullable_integer : schema := {| types := ["null"; "integer"]; format := None |}.
Definition nullable_string : schema := {| types := ["null"; "string"]; format := None |}.

(** The table after the type split of [age]. *)
Definition users_age_split : remote :=
  [("users",
    {| columns := [("age__i", nullable_integer); ("age__s", nullable_string)];
       column_mappings :=
         [("age__i", {| SqlBase.from := "age"; SqlBase.mapped_type := nullable_integer |});
          ("age__s", {| SqlBase.from := "age"; SqlBase.mapped_type := nullable_string |})];
       rows := [[("age__i", VInt 41)]] |})].

End UpsertExamples.

(** * Properties *)

(** ** The stream buffer *)
Module SingerStreamFacts.
Import SingerStream.

Section Buffer.
Variable get_size : record_message -> Z.

Lemma flush_buffer_zeroes (sb : BufferedSingerStream) :
  buffer (flush_buffer sb) = [] /\ count (flush_buffer sb) = 0 /\ size (flush_buffer sb) = 0.
Proof. repeat split. Qed.

Lemma version_eqb_refl (a : option Z) : version_eqb a a = true.
Proof. destruct a as [x|]; simpl; [apply Z.eqb_refl | reflexivity]. Qed.

Lemma version_eqb_eq (a b : option Z) : version_eqb a b = true <-> a = b.
Proof.
  destruct a as [x|], b as [y|]; simpl; split; intro H;
    try discriminate; try reflexivity.
  - apply Z.eqb_eq in H. now subst.
  - injection H as ->. apply Z.eqb_refl.
Qed.

(** [__update_version] leaves the buffer alone for a version that is not
    newer than the one on record. *)
Lemma update_version_stale (sb : BufferedSingerStream) (m v : Z) :
  lifetime_max_version sb = Some m -> v <= m ->
  __update_version sb (Some v) = (sb, []).
Proof.
  intros Hm Hle. unfold __update_version. rewrite Hm.
  destruct (Z.geb_spec m v) as [_|Hlt]; [reflexivity | lia].
Qed.

Lemma update_version_newer (sb : BufferedSingerStream) (v : Z) :
  (lifetime_max_version sb = None \/
   exists m, lifetime_max_version sb = Some m /\ m < v) ->
  __update_version sb (Some v) =
    (with_lifetime_max_version (flush_buffer sb) (Some v),
     if count sb =? 0 then []
     else [DroppingRecords (stream sb) (count sb) (lifetime_max_version sb) v]).
Proof.
  intros [Hnone | [m [Hm Hlt]]]; unfold __update_version.
  - now rewrite Hnone.
  - rewrite Hm. destruct (Z.geb_spec m v) as [Hge|_]; [lia | reflexivity].
Qed.

(** Whatever the line, a version on record stays on record. *)
Lemma update_version_keeps_some (sb : BufferedSingerStream) (v : option Z) :
  lifetime_max_version sb <> None ->
  lifetime_max_version (fst (__update_version sb v)) <> None.
Proof.
  intro H. unfold __update_version.
  destruct v as [v|]; [|exact H].
  destruct (lifetime_max_version sb) as [m|] eqn:E; [|congruence].
  destruct (m >=? v); simpl; [rewrite E|]; discriminate.
Qed.

Lemma validate_and_buffer_version (sb : BufferedSingerStream) (m : record_message)
    (logs : list log_entry) :
  lifetime_max_version (after (validate_and_buffer get_size sb m logs))
  = lifetime_max_version sb.
Proof.
  unfold validate_and_buffer, _debug_report_on_buffer_sizes.
  destruct (validator sb (record m)); simpl.
  - destruct (invalid_records_detect sb && _); simpl;
      [reflexivity | destruct (debug_reporting_interval sb =? 0); reflexivity].
  - destruct (debug_reporting_interval sb =? 0); reflexivity.
Qed.

Lemma add_record_message_keeps_some (sb : BufferedSingerStream) (m : record_message) :
  lifetime_max_version sb <> None ->
  lifetime_max_version (after (add_record_message get_size sb m)) <> None.
Proof.
  intro H. unfold add_record_message.
  pose proof (@update_version_keeps_some sb (version m) H) as K.
  destruct (__update_version sb (version m)) as [sb1 logs]. simpl in K.
  destruct (negb _); simpl; [exact K|].
  now rewrite validate_and_buffer_version.
Qed.

Lemma feed_keeps_some (lines : list record_message) (sb : BufferedSingerStream) :
  lifetime_max_version sb <> None ->
  lifetime_max_version (after (feed get_size sb lines)) <> None.
Proof.
  revert sb. induction lines as [|l rest IH]; intros sb H; simpl; [exact H|].
  pose proof (@add_record_message_keeps_some sb l H) as K.
  destruct (raised (add_record_message get_size sb l)); [exact K|].
  simpl. now apply IH.
Qed.

(** A line that carries a version leaves a version on record, whether it was
    buffered, found invalid or dropped. *)
Lemma versioned_line_sets_version (sb : BufferedSingerStream) (m : record_message) (v : Z) :
  version m = Some v ->
  lifetime_max_version (after (add_record_message get_size sb m)) <> None.
Proof.
  intro Hv. unfold add_record_message. rewrite Hv.
  assert (K : lifetime_max_version (fst (__update_version sb (Some v))) <> None).
  { unfold __update_version.
    destruct (lifetime_max_version sb) as [x|] eqn:E; simpl; [|discriminate].
    destruct (x >=? v); simpl; [rewrite E|]; discriminate. }
  destruct (__update_version sb (Some v)) as [sb1 logs]. simpl in K.
  destruct (negb _); simpl; [exact K|].
  now rewrite validate_and_buffer_version.
Qed.

(** A line without a version meets a buffer with a version on record. *)
Lemma unversioned_line_dropped (sb : BufferedSingerStream) (m : record_message) :
  lifetime_max_version sb <> None -> version m = None ->
  add_record_message get_size sb m =
    {| after := sb;
       logged := [DroppingRecord (stream sb) (lifetime_max_version sb) None];
       raised := None |}.
Proof.
  intros H Hv. unfold add_record_message. rewrite Hv. simpl.
  destruct (lifetime_max_version sb) as [x|]; [reflexivity | congruence].
Qed.

(** A line reaches the validator when the version check of lines 184-192
    lets it through. *)
Definition reaches_validator (sb : BufferedSingerStream) (m : record_message) : Prop :=
  version_eqb (lifetime_max_version (fst (__update_version sb (version m)))) (version m)
  = true.

Lemma add_record_message_validates (sb : BufferedSingerStream) (m : record_message) :
  reaches_validator sb m ->
  add_record_message get_size sb m =
    validate_and_buffer get_size (fst (__update_version sb (version m))) m
      (snd (__update_version sb (version m))).
Proof.
  unfold reaches_validator, add_record_message.
  destruct (__update_version sb (version m)) as [sb1 logs]. simpl.
  now intros ->.
Qed.

(** C8 (amended).  [buffer_full] is true exactly when [count >= max_rows],
    or [count > 0] and [size >= max_buffer_size]; for a positive [max_rows]
    it is false whenever [count] is 0, whatever [size] is. *)
Theorem buffer_full_iff (sb : BufferedSingerStream) :
  (buffer_full sb = true <->
   (max_rows sb <= count sb \/ (0 < count sb /\ max_buffer_size sb <= size sb)))
  /\ (0 < max_rows sb -> count sb = 0 -> buffer_full sb = false).
Proof.
  unfold buffer_full. split.
  - destruct (Z.geb_spec (count sb) (max_rows sb)) as [Hr|Hr].
    + split; [intros _; left; exact Hr | reflexivity].
    + destruct (Z.gtb_spec (count sb) 0) as [Hc|Hc].
      * destruct (Z.geb_spec (size sb) (max_buffer_size sb)) as [Hs|Hs].
        -- split; [intros _; right; split; assumption | reflexivity].
        -- split; [discriminate | intros [H|[_ H]]; lia].
      * split; [discriminate | intros [H|[H _]]; lia].
  - intros Hpos Hzero. rewrite Hzero.
    destruct (Z.geb_spec 0 (max_rows sb)) as [Hr|_]; [lia | reflexivity].
Qed.

(** C9.  A line dropped as stale (its version is below
    [lifetime_max_version]) leaves [count], [size] and the buffered lines as
    they were; indeed the whole buffer object is untouched and the call
    returns, logging the drop. *)
Theorem stale_record_leaves_buffer (sb : BufferedSingerStream) (msg : record_message)
    (m v : Z) :
  lifetime_max_version sb = Some m -> version msg = Some v -> v < m ->
  count (after (add_record_message get_size sb msg)) = count sb
  /\ size (after (add_record_message get_size sb msg)) = size sb
  /\ buffer (after (add_record_message get_size sb msg)) = buffer sb
  /\ add_record_message get_size sb msg =
       {| after := sb;
          logged := [DroppingRecord (stream sb) (Some m) (Some v)];
          raised := None |}.
Proof.
  intros Hm Hv Hlt.
  assert (E : add_record_message get_size sb msg =
              {| after := sb;
                 logged := [DroppingRecord (stream sb) (Some m) (Some v)];
                 raised := None |}).
  { unfold add_record_message. rewrite Hv.
    rewrite (@update_version_stale sb m v Hm) by lia.
    rewrite Hm. simpl.
    destruct (Z.eqb_spec m v) as [->|_]; [lia | reflexivity]. }
  rewrite E. simpl. repeat split.
Qed.

(** C3.  For a line with an integer version [v]: when no version is on
    record, or [v] exceeds it, the buffer is flushed first (a warning with
    the number of dropped lines is logged when there are any) and
    [lifetime_max_version] becomes [v], and the line then goes through
    validation and buffering as any line does; when [v] is below the version
    on record the line is dropped with a warning and the buffer is as it was. *)
Theorem versioned_line (sb : BufferedSingerStream) (msg : record_message) (v : Z) :
  version msg = Some v ->
  ((lifetime_max_version sb = None \/
    exists m, lifetime_max_version sb = Some m /\ m < v) ->
   let flushed := with_lifetime_max_version (flush_buffer sb) (Some v) in
   buffer flushed = [] /\ count flushed = 0 /\ size flushed = 0
   /\ lifetime_max_version flushed = Some v
   /\ add_record_message get_size sb msg =
        validate_and_buffer get_size flushed msg
          (if count sb =? 0 then []
           else [DroppingRecords (stream sb) (count sb) (lifetime_max_version sb) v])
   /\ (validator sb (record msg) = None -> debug_reporting_interval sb <> 0 ->
       raised (add_record_message get_size sb msg) = None
       /\ buffer (after (add_record_message get_size sb msg)) = [msg]
       /\ count (after (add_record_message get_size sb msg)) = 1
       /\ size (after (add_record_message get_size sb msg)) = get_size msg
       /\ lifetime_max_version (after (add_record_message get_size sb msg)) = Some v))
  /\ (forall m, lifetime_max_version sb = Some m -> v < m ->
      add_record_message get_size sb msg =
        {| after := sb;
           logged := [DroppingRecord (stream sb) (Some m) (Some v)];
           raised := None |}).
Proof.
  intro Hv. split.
  - intros Hnew flushed.
    assert (E : add_record_message get_size sb msg =
                validate_and_buffer get_size flushed msg
                  (if count sb =? 0 then []
                   else [DroppingRecords (stream sb) (count sb)
                                         (lifetime_max_version sb) v])).
    { unfold add_record_message. rewrite Hv, (@update_version_newer sb v Hnew).
      simpl. now rewrite Z.eqb_refl. }
    split; [reflexivity|]. split; [reflexivity|]. split; [reflexivity|].
    split; [reflexivity|]. split; [exact E|].
    intros Hvalid Hint. rewrite E.
    unfold validate_and_buffer, _debug_report_on_buffer_sizes. simpl.
    rewrite Hvalid. simpl.
    destruct (Z.eqb_spec (debug_reporting_interval sb) 0) as [H0|_];
      [contradiction | repeat split].
  - intros m Hm Hlt.
    unfold add_record_message. rewrite Hv.
    rewrite (@update_version_stale sb m v Hm) by lia.
    rewrite Hm. simpl.
    destruct (Z.eqb_spec m v) as [->|_]; [lia | reflexivity].
Qed.

(** C10.  Once a line with a version has gone through [add_record_message],
    a version is on record and stays on record through any later lines; a
    line without a version that comes after is dropped: it is not buffered,
    not validated and not counted as invalid, and [count] and [size] do not
    move. *)
Theorem unversioned_line_after_version (sb : BufferedSingerStream)
    (first : record_message) (v : Z) (between : list record_message)
    (msg : record_message) :
  version first = Some v -> version msg = None ->
  let sb' := after (feed get_size (after (add_record_message get_size sb first)) between) in
  lifetime_max_version sb' <> None
  /\ raised (add_record_message get_size sb' msg) = None
  /\ after (add_record_message get_size sb' msg) = sb'
  /\ buffer (after (add_record_message get_size sb' msg)) = buffer sb'
  /\ invalid_records (after (add_record_message get_size sb' msg)) = invalid_records sb'
  /\ count (after (add_record_message get_size sb' msg)) = count sb'
  /\ size (after (add_record_message get_size sb' msg)) = size sb'
  /\ logged (add_record_message get_size sb' msg)
     = [DroppingRecord (stream sb') (lifetime_max_version sb') None].
Proof.
  intros Hfirst Hmsg sb'.
  assert (Hset : lifetime_max_version sb' <> None).
  { apply feed_keeps_some. now apply versioned_line_sets_version with (v := v). }
  rewrite (@unversioned_line_dropped sb' msg Hset Hmsg). simpl.
  repeat split; exact Hset.
Qed.

(** C5 (amended).  A line that reaches the validator and fails it is
    appended to [invalid_records], and [SingerStreamError] is raised, with
    all the invalid records so far as payload, exactly when
    [invalid_records_detect] holds and their number, this one included, has
    reached [invalid_records_threshold].  With the threshold at 2, feeding
    invalid lines therefore raises at the second one, the payload holding the
    two errors met; lines after it are not read. *)
Theorem invalid_record_threshold (sb : BufferedSingerStream) (msg : record_message)
    (err : ValidationError) :
  (reaches_validator sb msg -> validator sb (record msg) = Some err ->
   invalid_records (after (add_record_message get_size sb msg))
     = (invalid_records sb ++ [(err, msg)])%list
   /\ (raised (add_record_message get_size sb msg)
         = Some (SingerStreamError (invalid_records_threshold sb)
                   (invalid_records sb ++ [(err, msg)])%list)
       <-> invalid_records_detect sb = true
           /\ invalid_records_threshold sb
              <= Z.of_nat (List.length (invalid_records sb)) + 1)
   /\ ((exists t p, raised (add_record_message get_size sb msg)
                    = Some (SingerStreamError t p))
       -> invalid_records_detect sb = true
          /\ invalid_records_threshold sb
             <= Z.of_nat (List.length (invalid_records sb)) + 1))
  /\ (forall (second : record_message) (err2 : ValidationError)
             (rest : list record_message),
      invalid_records sb = [] -> invalid_records_detect sb = true ->
      invalid_records_threshold sb = 2 -> debug_reporting_interval sb <> 0 ->
      lifetime_max_version sb = None ->
      version msg = None -> version second = None ->
      validator sb (record msg) = Some err ->
      validator sb (record second) = Some err2 ->
      raised (feed get_size sb (msg :: second :: rest))
        = Some (SingerStreamError 2 [(err, msg); (err2, second)])).
Proof.
  split.
  - intros Hreach Hinvalid.
    rewrite (@add_record_message_validates sb msg Hreach).
    assert (Hsame : forall sb1,
               sb1 = fst (__update_version sb (version msg)) ->
               validator sb1 = validator sb
               /\ invalid_records sb1 = invalid_records sb
               /\ invalid_records_detect sb1 = invalid_records_detect sb
               /\ invalid_records_threshold sb1 = invalid_records_threshold sb).
    { intros sb1 ->. unfold __update_version.
      destruct (version msg) as [x|]; [|repeat split].
      destruct (lifetime_max_version sb) as [y|]; [destruct (y >=? x)|]; repeat split. }
    destruct (Hsame _ eq_refl) as (Hval & Hinv & Hdet & Hthr).
    set (sb1 := fst (__update_version sb (version msg))) in *.
    set (logs := snd (__update_version sb (version msg))).
    unfold validate_and_buffer. rewrite Hval, Hinvalid. simpl.
    rewrite Hinv, Hdet, Hthr, length_app. simpl.
    replace (Z.of_nat (List.length (invalid_records sb) + 1))
      with (Z.of_nat (List.length (invalid_records sb)) + 1) by lia.
    assert (Hcond : invalid_records_detect sb
                    && (Z.of_nat (List.length (invalid_records sb)) + 1
                        >=? invalid_records_threshold sb) = true
                    <-> invalid_records_detect sb = true
                        /\ invalid_records_threshold sb
                           <= Z.of_nat (List.length (invalid_records sb)) + 1).
    { rewrite andb_true_iff, Z.geb_le. tauto. }
    destruct (invalid_records_detect sb
              && (Z.of_nat (List.length (invalid_records sb)) + 1
                  >=? invalid_records_threshold sb)) eqn:Hc.
    + simpl. split; [reflexivity|]. split.
      * split; [intros _; now apply Hcond | reflexivity].
      * intros _. now apply Hcond.
    + assert (Hno : ~ (invalid_records_detect sb = true
                       /\ invalid_records_threshold sb
                          <= Z.of_nat (List.length (invalid_records sb)) + 1)).
      { intro H. apply Hcond in H. discriminate. }
      unfold _debug_report_on_buffer_sizes.
      destruct (debug_reporting_interval
                  (with_invalid_records sb1 (invalid_records sb ++ [(err, msg)])) =? 0);
        simpl.
      * split; [reflexivity|]. split.
        -- split; [discriminate | intro H; contradiction].
        -- intros (t & p & H). discriminate.
      * split; [reflexivity|]. split.
        -- split; [discriminate | intro H; contradiction].
        -- intros (t & p & H). discriminate.
  - intros second err2 rest Hinv Hdet Hthr Hint Hlmv Hv1 Hv2 Hval1 Hval2.
    simpl.
    assert (E1 : add_record_message get_size sb msg =
                 {| after := with_invalid_records sb [(err, msg)];
                    logged := []; raised := None |}).
    { unfold add_record_message. rewrite Hv1. simpl. rewrite Hlmv. simpl.
      unfold validate_and_buffer. rewrite Hval1. simpl.
      rewrite Hdet, Hthr, Hinv. simpl.
      unfold _debug_report_on_buffer_sizes. simpl.
      destruct (Z.eqb_spec (debug_reporting_interval sb) 0); [contradiction|].
      reflexivity. }
    rewrite E1. simpl.
    assert (E2 : add_record_message get_size (with_invalid_records sb [(err, msg)]) second =
                 {| after := with_invalid_records sb [(err, msg); (err2, second)];
                    logged := [];
                    raised := Some (SingerStreamError 2 [(err, msg); (err2, second)]) |}).
    { unfold add_record_message. rewrite Hv2. simpl. rewrite Hlmv. simpl.
      unfold validate_and_buffer. simpl. rewrite Hval2. simpl.
      rewrite Hdet, Hthr. reflexivity. }
    rewrite E2. reflexivity.
Qed.

End Buffer.

(** C8: the claim as stated fails for a buffer built with a negative row
    ceiling, [BufferedSingerStream(..., max_rows=-1)]: nothing is buffered
    and [buffer_full] answers true. *)
Lemma buffer_full_on_empty_buffer :
  count StreamExamples.users_negative_ceiling = 0
  /\ size StreamExamples.users_negative_ceiling = 0
  /\ buffer_full StreamExamples.users_negative_ceiling = true.
Proof. repeat split. Qed.

(** [buffer_full_iff] at the buffer [users], whose row ceiling is the default. *)
Lemma buffer_full_iff_witness :
  0 < max_rows StreamExamples.users
  /\ count StreamExamples.users = 0
  /\ buffer_full StreamExamples.users = false.
Proof.
  assert (Hpos : 0 < max_rows StreamExamples.users) by reflexivity.
  assert (Hzero : count StreamExamples.users = 0) by reflexivity.
  exact (conj Hpos (conj Hzero
           (proj2 (@buffer_full_iff StreamExamples.users) Hpos Hzero))).
Defined.

(** [stale_record_leaves_buffer] at the buffer holding version 5, for a line
    of version 3. *)
Lemma stale_record_leaves_buffer_witness :
  lifetime_max_version StreamExamples.users_at_5 = Some 5
  /\ count (after (add_record_message (fun _ => 64) StreamExamples.users_at_5
                     (StreamExamples.line (VInt 2) (Some 3)))) = 1
  /\ size (after (add_record_message (fun _ => 64) StreamExamples.users_at_5
                    (StreamExamples.line (VInt 2) (Some 3)))) = 64.
Proof.
  assert (Hm : lifetime_max_version StreamExamples.users_at_5 = Some 5) by reflexivity.
  assert (Hv : version (StreamExamples.line (VInt 2) (Some 3)) = Some 3) by reflexivity.
  assert (Hlt : 3 < 5) by reflexivity.
  destruct (@stale_record_leaves_buffer (fun _ => 64) StreamExamples.users_at_5
              (StreamExamples.line (VInt 2) (Some 3)) 5 3 Hm Hv Hlt) as (Hc & Hs & _).
  exact (conj Hm (conj Hc Hs)).
Defined.

(** [versioned_line] at the buffer holding version 5, for a line of version
    7: the buffered line is dropped with a warning. *)
Lemma versioned_line_witness :
  version (StreamExamples.line (VInt 2) (Some 7)) = Some 7
  /\ add_record_message (fun _ => 64) StreamExamples.users_at_5
       (StreamExamples.line (VInt 2) (Some 7))
     = validate_and_buffer (fun _ => 64)
         (with_lifetime_max_version (flush_buffer StreamExamples.users_at_5) (Some 7))
         (StreamExamples.line (VInt 2) (Some 7))
         [DroppingRecords "users" 1 (Some 5) 7].
Proof.
  assert (Hv : version (StreamExamples.line (VInt 2) (Some 7)) = Some 7) by reflexivity.
  assert (Hnew : lifetime_max_version StreamExamples.users_at_5 = None \/
                 exists m, lifetime_max_version StreamExamples.users_at_5 = Some m /\ m < 7).
  { right. exists 5. split; reflexivity. }
  destruct (proj1 (@versioned_line (fun _ => 64) StreamExamples.users_at_5
                     (StreamExamples.line (VInt 2) (Some 7)) 7 Hv) Hnew)
    as (_ & _ & _ & _ & E & _).
  exact (conj Hv E).
Defined.

(** [unversioned_line_after_version] at the buffer [users]: a line of version
    5, then a line without version. *)
Lemma unversioned_line_after_version_witness :
  version (StreamExamples.line (VInt 1) (Some 5)) = Some 5
  /\ version (StreamExamples.line (VInt 2) None) = None
  /\ count (after (add_record_message (fun _ => 64) StreamExamples.users_at_5
                     (StreamExamples.line (VInt 2) None))) = 1.
Proof.
  assert (H1 : version (StreamExamples.line (VInt 1) (Some 5)) = Some 5) by reflexivity.
  assert (H2 : version (StreamExamples.line (VInt 2) None) = None) by reflexivity.
  destruct (@unversioned_line_after_version (fun _ => 64) StreamExamples.users
              (StreamExamples.line (VInt 1) (Some 5)) 5 []
              (StreamExamples.line (VInt 2) None) H1 H2)
    as (_ & _ & _ & _ & _ & Hc & _).
  exact (conj H1 (conj H2 Hc)).
Defined.

(** C5: the claim as stated fails on the buffer
    [BufferedSingerStream('users', schema, ['id'], invalid_records_threshold=2)]
    fed three lines whose [id] is a string: the error is raised at the second
    line, its payload holds the errors of the first two lines, and the third
    line is never validated. *)
Lemma three_invalid_records_raise_with_two :
  raised (feed (fun _ => 64) StreamExamples.users
            [StreamExamples.line (VStr "a") None;
             StreamExamples.line (VStr "b") None;
             StreamExamples.line (VStr "c") None])
  = Some (SingerStreamError 2
            [(MkValidationError "'id' is not of type 'integer'",
              StreamExamples.line (VStr "a") None);
             (MkValidationError "'id' is not of type 'integer'",
              StreamExamples.line (VStr "b") None)])
  /\ List.length
       (invalid_records
          (after (feed (fun _ => 64) StreamExamples.users
                    [StreamExamples.line (VStr "a") None;
                     StreamExamples.line (VStr "b") None;
                     StreamExamples.line (VStr "c") None]))) = 2%nat.
Proof. split; reflexivity. Qed.

(** [invalid_record_threshold] at the buffer [users], for a line whose [id]
    is a string. *)
Lemma invalid_record_threshold_witness :
  reaches_validator StreamExamples.users (StreamExamples.line (VStr "a") None)
  /\ invalid_records
       (after (add_record_message (fun _ => 64) StreamExamples.users
                 (StreamExamples.line (VStr "a") None)))
     = [(MkValidationError "'id' is not of type 'integer'",
         StreamExamples.line (VStr "a") None)].
Proof.
  assert (Hr : reaches_validator StreamExamples.users (StreamExamples.line (VStr "a") None))
    by reflexivity.
  assert (Hi : validator StreamExamples.users (record (StreamExamples.line (VStr "a") None))
               = Some (MkValidationError "'id' is not of type 'integer'")) by reflexivity.
  exact (conj Hr (proj1 (proj1 (@invalid_record_threshold (fun _ => 64)
                                  StreamExamples.users
                                  (StreamExamples.line (VStr "a") None)
                                  (MkValidationError "'id' is not of type 'integer'"))
                           Hr Hi))).
Defined.

End SingerStreamFacts.

(** ** Dicts and names *)
Module DictFacts.

Section Lookup.
Context {V : Type}.
Implicit Types (d : list (string * V)) (k : string) (v : V).

Lemma lookup_set_same d k v : dict_lookup (dict_set d k v) k = Some v.
Proof.
  induction d as [|[k' v'] d IH]; simpl.
  - now rewrite String.eqb_refl.
  - destruct (String.eqb k k') eqn:E; simpl; rewrite E; [reflexivity | exact IH].
Qed.

Lemma lookup_set_other d k k' v :
  k' <> k -> dict_lookup (dict_set d k v) k' = dict_lookup d k'.
Proof.
  intro Hne. induction d as [|[k0 v0] d IH]; simpl.
  - destruct (String.eqb_spec k' k); [contradiction | reflexivity].
  - destruct (String.eqb_spec k k0) as [->|Hk]; simpl.
    + destruct (String.eqb_spec k' k0); [contradiction | reflexivity].
    + destruct (String.eqb k' k0); [reflexivity | exact IH].
Qed.

Lemma lookup_none_not_in d k : dict_lookup d k = None <-> ~ In k (keys d).
Proof.
  induction d as [|[k' v'] d IH]; simpl.
  - tauto.
  - destruct (String.eqb_spec k k') as [->|Hne].
    + split; [discriminate | intro H; exfalso; apply H; now left].
    + rewrite IH. split; intro H; [intros [E|E]; [now subst | contradiction] | tauto].
Qed.

Lemma lookup_in d k v : dict_lookup d k = Some v -> In (k, v) d.
Proof.
  induction d as [|[k' v'] d IH]; simpl; [discriminate|].
  destruct (String.eqb_spec k k') as [->|Hne].
  - intros [= ->]. now left.
  - intro H. right. now apply IH.
Qed.

Lemma in_lookup d k v : NoDup (keys d) -> In (k, v) d -> dict_lookup d k = Some v.
Proof.
  induction d as [|[k' v'] d IH]; simpl; [contradiction|].
  intros Hnd [E|Hin].
  - injection E as -> ->. now rewrite String.eqb_refl.
  - inversion Hnd as [|? ? Hnotin Hnd']; subst.
    destruct (String.eqb_spec k k') as [->|_].
    + exfalso. apply Hnotin. change k' with (fst (k', v)). now apply in_map.
    + now apply IH.
Qed.

Lemma keys_set d k v :
  keys (dict_set d k v) = if dict_mem d k then keys d else (keys d ++ [k])%list.
Proof.
  unfold dict_mem. induction d as [|[k' v'] d IH]; simpl; [reflexivity|].
  destruct (String.eqb_spec k k') as [->|Hne]; simpl; [reflexivity|].
  rewrite IH. now destruct (dict_lookup d k).
Qed.

Lemma set_nodup d k v : NoDup (keys d) -> NoDup (keys (dict_set d k v)).
Proof.
  intro H. rewrite keys_set. unfold dict_mem.
  destruct (dict_lookup d k) eqn:E; [exact H|].
  apply lookup_none_not_in in E.
  apply NoDup_app; [exact H | repeat constructor; intros [] | ].
  intros x Hx [<-|[]]. contradiction.
Qed.

Lemma in_set d k v k' v' :
  In (k', v') (dict_set d k v) -> In (k', v') d \/ (k', v') = (k, v).
Proof.
  induction d as [|[k0 v0] d IH]; simpl.
  - intros [E|[]]. now right.
  - destruct (String.eqb_spec k k0) as [->|Hne]; simpl.
    + intros [E|H]; [right; exact (eq_sym E) | left; now right].
    + intros [E|H]; [left; now left |].
      destruct (IH H) as [H'|H']; [left; now right | now right].
Qed.

Lemma set_not_nil d k v : dict_set d k v <> [].
Proof. destruct d as [|[k' v'] d]; simpl; [|destruct (String.eqb k k')]; discriminate. Qed.

End Lookup.

(** *** The separator in column names *)

(** [has_sep s]: the string contains [__]. *)
Fixpoint has_sep (s : string) : bool :=
  match s with
  | String "_" (String "_" _ as rest) => true
  | String _ rest => has_sep rest
  | EmptyString => false
  end.

Lemma has_sep_app (p q : string) : has_sep (p ++ "__" ++ q) = true.
Proof.
  induction p as [|c p IH]; simpl; [reflexivity|].
  destruct (p ++ String "_" (String "_" q))%string eqn:E.
  - destruct p; discriminate.
  - simpl in IH. rewrite E in IH.
    destruct c as [[] [] [] [] [] [] [] []]; try exact IH.
    destruct a as [[] [] [] [] [] [] [] []]; try exact IH; reflexivity.
Qed.

Lemma append_inv_head (p a b : string) : (p ++ a = p ++ b)%string -> a = b.
Proof. induction p as [|c p IH]; simpl; [tauto | intros [= H]; auto]. Qed.

Lemma append_length (a b : string) :
  String.length (a ++ b) = (String.length a + String.length b)%nat.
Proof. induction a as [|c a IH]; simpl; [reflexivity | now rewrite IH]. Qed.

Lemma append_assoc (a b c : string) : ((a ++ b) ++ c = a ++ (b ++ c))%string.
Proof. induction a as [|x a IH]; simpl; [reflexivity | now rewrite IH]. Qed.

(** A name with a suffix added is another name. *)
Lemma append_sep_neq (t p s : string) : t <> ((t ++ "__" ++ p) ++ s)%string.
Proof.
  intro H. apply (f_equal String.length) in H.
  rewrite !append_length in H. simpl in H. lia.
Qed.

Lemma append_inv_tail (a b c : string) : (a ++ c = b ++ c)%string -> a = b.
Proof.
  revert b. induction a as [|x a IH]; intros [|y b] H; simpl in H.
  - reflexivity.
  - apply (f_equal String.length) in H. simpl in H. rewrite append_length in H. lia.
  - apply (f_equal String.length) in H. simpl in H. rewrite append_length in H. lia.
  - injection H as -> H. f_equal. now apply IH.
Qed.

Lemma has_sep_cons (a b : ascii) (r : string) :
  has_sep (String a (String b r))
  = (Ascii.eqb a "_" && Ascii.eqb b "_") || has_sep (String b r).
Proof.
  destruct a as [[] [] [] [] [] [] [] []]; try reflexivity.
  destruct b as [[] [] [] [] [] [] [] []]; reflexivity.
Qed.

(** [clean s]: no underscore in [s]. *)
Fixpoint clean (s : string) : bool :=
  match s with
  | EmptyString => true
  | String c rest => negb (Ascii.eqb c "_") && clean rest
  end.

Lemma clean_has_sep_id (s : string) : clean s = true -> has_sep (s ++ "_id") = false.
Proof.
  induction s as [|c s IH]; simpl clean; [reflexivity|].
  intro H. apply andb_true_iff in H. destruct H as [Hc Hs].
  specialize (IH Hs).
  change (String c s ++ "_id")%string with (String c (s ++ "_id")).
  destruct (s ++ "_id")%string as [|b r] eqn:E.
  - destruct s; discriminate.
  - rewrite has_sep_cons, IH. apply negb_true_iff in Hc. now rewrite Hc.
Qed.

Lemma clean_uint (d : Decimal.uint) : clean (NilEmpty.string_of_uint d) = true.
Proof. induction d; simpl; auto. Qed.

Lemma clean_int (z : Z) : clean (NilZero.string_of_int (Z.to_int z)) = true.
Proof.
  destruct z as [|p|p]; simpl; [reflexivity| |];
    unfold NilZero.string_of_uint;
    destruct (Pos.to_uint p); try reflexivity; apply clean_uint.
Qed.

Lemma string_of_int_not_empty (z : Z) : NilZero.string_of_int (Z.to_int z) <> "".
Proof.
  destruct z as [|p|p]; simpl; try discriminate.
  unfold NilZero.string_of_uint.
  destruct (Pos.to_uint p); simpl; discriminate.
Qed.

Lemma string_of_int_inj (a b : Z) :
  NilZero.string_of_int (Z.to_int a) = NilZero.string_of_int (Z.to_int b) -> a = b.
Proof.
  intro H. apply DecimalZ.to_int_inj.
  assert (K : forall z, NilZero.int_of_string (NilZero.string_of_int (Z.to_int z))
                        = Some (Z.to_int z)).
  { intro z. apply NilZero.isi; destruct z as [|p|p]; simpl; try discriminate;
      intros [= E]; now apply (DecimalPos.Unsigned.to_uint_nonnil p). }
  pose proof (K a) as Ka. rewrite H, K in Ka. now injection Ka.
Qed.

(** The level columns: their names hold no separator and tell levels apart. *)
Lemma SINGER_LEVEL_no_sep (level : Z) : has_sep (SingerStream.SINGER_LEVEL level) = false.
Proof.
  unfold SingerStream.SINGER_LEVEL.
  pose proof (clean_int level) as Hc. pose proof (@string_of_int_not_empty level) as Hn.
  destruct (NilZero.string_of_int (Z.to_int level)) as [|c s] eqn:E; [contradiction|].
  pose proof (clean_has_sep_id _ Hc) as Hid.
  simpl in Hc. apply andb_true_iff in Hc. destruct Hc as [Hc _].
  apply negb_true_iff in Hc.
  change ("_sdc_level_" ++ String c s ++ "_id")%string
    with (String "_" (String "s" (String "d" (String "c" (String "_" (String "l"
           (String "e" (String "v" (String "e" (String "l"
             (String "_" (String c (s ++ "_id"))))))))))))).
  change (String c s ++ "_id")%string with (String c (s ++ "_id")) in Hid.
  rewrite !has_sep_cons, Hid, Hc. reflexivity.
Qed.

Lemma SINGER_LEVEL_inj (a b : Z) :
  SingerStream.SINGER_LEVEL a = SingerStream.SINGER_LEVEL b -> a = b.
Proof.
  unfold SingerStream.SINGER_LEVEL. intro H.
  apply append_inv_head in H. apply append_inv_tail in H.
  now apply string_of_int_inj.
Qed.

End DictFacts.

(** ** The record denester *)
Module DenestFacts.
Import SingerStream Postgres DictFacts.

(** A record with an object inside an object-valued property. *)
Definition object_in_object (record : value) : Prop :=
  exists items p sub q inner,
    record = VDict items /\ In (p, VDict sub) items /\ In (q, VDict inner) sub.

(** Dropping the top-level properties whose value is null. *)
Definition without_nulls (record : dict) : dict :=
  filter (fun kv => negb (is_None (snd kv))) record.

Section Walks.

Variable self_denest_records :
  string -> list value -> records_map -> list string -> option dict -> Z ->
  denested (list value).

Lemma subrecord_raises (table_name current_path : string) (sub : dict) :
  forall (parent_record : dict) (rm : records_map) (key_properties : list string)
         (pk_fks : dict) (level : Z),
    (exists q inner, In (q, VDict inner) sub) ->
    walked_error (denest_subrecord self_denest_records table_name current_path
                    parent_record sub rm key_properties pk_fks level) <> None.
Proof.
  induction sub as [|[prop v] rest IH]; intros parent rm kp fks lvl (q & inner & Hin).
  - destruct Hin.
  - assert (Hrest : v = VDict inner /\ prop = q \/ exists q inner, In (q, VDict inner) rest).
    { destruct Hin as [[= -> ->]|Hin]; [left; now split | right; eauto]. }
    destruct v; simpl; try discriminate;
      try (destruct Hrest as [[Hv _]|Hrest]; [discriminate Hv | now apply IH]).
    destruct (error (self_denest_records _ _ _ _ _ _)); simpl; [discriminate|].
    destruct Hrest as [[Hv _]|Hrest]; [discriminate Hv | now apply IH].
Qed.

Lemma record_items_raises (table_name : string) (current_path : option string)
    (items : dict) :
  forall (denested_record : dict) (rm : records_map) (key_properties : list string)
         (pk_fks : dict) (level : Z),
    (exists p sub q inner, In (p, VDict sub) items /\ In (q, VDict inner) sub) ->
    walked_error (denest_record_items self_denest_records table_name current_path
                    items denested_record rm key_properties pk_fks level) <> None.
Proof.
  induction items as [|[prop v] rest IH];
    intros row rm kp fks lvl (p & sub & q & inner & Hin & Hsub).
  - destruct Hin.
  - assert (Hrest : v = VDict sub \/
                    exists p sub q inner, In (p, VDict sub) rest /\ In (q, VDict inner) sub).
    { destruct Hin as [[= -> ->]|Hin]; [now left | right; eauto 6]. }
    destruct v; simpl; try (destruct Hrest as [Hv|Hrest]; [discriminate Hv | now apply IH]).
    + destruct (error (self_denest_records _ _ _ _ _ _)); simpl; [discriminate|].
      destruct Hrest as [Hv|Hrest]; [discriminate Hv | now apply IH].
    + destruct Hrest as [[= ->]|Hrest].
      * pose proof (@subrecord_raises table_name
                      match current_path with
                      | Some p0 => if (p0 =? "")%string then prop
                                   else (p0 ++ NESTED_SEPARATOR ++ prop)%string
                      | None => prop
                      end sub row rm kp fks lvl (ex_intro _ q (ex_intro _ inner Hsub))) as K.
        destruct (walked_error (denest_subrecord _ _ _ _ _ _ _ _ _)); simpl;
          [discriminate | contradiction].
      * destruct (walked_error (denest_subrecord _ _ _ _ _ _ _ _ _)); simpl;
          [discriminate | now apply IH].
Qed.

Lemma record_raises (table_name : string) (record : value) (rm : records_map)
    (key_properties : list string) (pk_fks : dict) (level : Z) :
  object_in_object record ->
  error (denest_record self_denest_records table_name None record rm
           key_properties pk_fks level) <> None.
Proof.
  intros (items & p & sub & q & inner & -> & Hin & Hsub). simpl.
  pose proof (@record_items_raises table_name None items [] rm key_properties pk_fks level
                (ex_intro _ p (ex_intro _ sub (ex_intro _ q
                   (ex_intro _ inner (conj Hin Hsub)))))) as K.
  destruct (walked_error _); simpl; [discriminate | contradiction].
Qed.

Lemma loop_raises (table_name : string) (records : list value) :
  forall (rm : records_map) (key_properties : list string) (level row_index : Z),
    (exists record, In record records /\ object_in_object record) ->
    error (denest_records_loop self_denest_records table_name records rm
             key_properties None level row_index) <> None.
Proof.
  induction records as [|r rest IH]; intros rm kp lvl idx (record & Hin & Hobj).
  - destruct Hin.
  - cbn [denest_records_loop truthy].
    destruct r; cbn [error]; try discriminate.
    destruct (top_level_pk_fks items kp) as [e|fks]; cbn [error]; [discriminate|].
    destruct Hin as [<-|Hin].
    + pose proof (@record_raises table_name (VDict items) rm kp fks lvl Hobj) as K.
      destruct (error (denest_record _ _ _ _ _ _ _ _)); cbn [error];
        [discriminate | contradiction].
    + destruct (error (denest_record _ _ _ _ _ _ _ _)); cbn [error]; [discriminate|].
      apply IH. eauto.
Qed.

(** Top-level nulls are skipped: the walk gives the same row, the same map
    and ends the same way as the walk of the record without them. *)
Lemma record_items_skip_nulls (table_name : string) (current_path : option string)
    (items : dict) :
  forall (denested_record : dict) (rm : records_map) (key_properties : list string)
         (pk_fks : dict) (level : Z),
    let w := denest_record_items self_denest_records table_name current_path
               items denested_record rm key_properties pk_fks level in
    let w' := denest_record_items self_denest_records table_name current_path
                (without_nulls items) denested_record rm key_properties pk_fks level in
    row w = row w' /\ walked_map w = walked_map w' /\ walked_error w = walked_error w'.
Proof.
  induction items as [|[prop v] rest IH]; intros row0 rm kp fks lvl; simpl.
  - repeat split.
  - destruct v; simpl; try apply IH.
    + destruct (error (self_denest_records _ _ _ _ _ _)); simpl;
        [repeat split | apply IH].
    + destruct (walked_error (denest_subrecord _ _ _ _ _ _ _ _ _)); simpl;
        [repeat split | apply IH].
Qed.

(** What the walk of an object-valued property leaves of the keys it does
    not write. *)
Lemma subrecord_row_frame (table_name current_path : string) (sub : dict) (K : string) :
  forall (parent_record : dict) (rm : records_map) (key_properties : list string)
         (pk_fks : dict) (level : Z),
    (forall q, In q (keys sub) -> K <> (current_path ++ NESTED_SEPARATOR ++ q)%string) ->
    dict_lookup (row (denest_subrecord self_denest_records table_name current_path
                        parent_record sub rm key_properties pk_fks level)) K
    = dict_lookup parent_record K.
Proof.
  induction sub as [|[prop v] rest IH]; intros parent rm kp fks lvl Hk; simpl.
  - reflexivity.
  - assert (Hrest : forall q, In q (keys rest) ->
                      K <> (current_path ++ NESTED_SEPARATOR ++ q)%string).
    { intros q Hq. apply Hk. now right. }
    assert (Hprop : K <> (current_path ++ NESTED_SEPARATOR ++ prop)%string).
    { apply Hk. now left. }
    destruct v; simpl;
      try (rewrite IH by exact Hrest; now apply lookup_set_other).
    + destruct (error (self_denest_records _ _ _ _ _ _)); simpl;
        [reflexivity | now apply IH].
    + reflexivity.
Qed.

(** A null inside an object-valued property is written like any scalar: its
    flattened key is bound to null. *)
Lemma subrecord_binds_null (table_name current_path : string) (sub : dict) (q : string) :
  forall (parent_record : dict) (rm : records_map) (key_properties : list string)
         (pk_fks : dict) (level : Z),
    NoDup (keys sub) -> In (q, VNone) sub ->
    walked_error (denest_subrecord self_denest_records table_name current_path
                    parent_record sub rm key_properties pk_fks level) = None ->
    dict_lookup (row (denest_subrecord self_denest_records table_name current_path
                        parent_record sub rm key_properties pk_fks level))
                (current_path ++ NESTED_SEPARATOR ++ q)
    = Some VNone.
Proof.
  induction sub as [|[prop v] rest IH]; intros parent rm kp fks lvl Hnd Hin Hok.
  - destruct Hin.
  - inversion Hnd as [|? ? Hnotin Hnd']; subst.
    destruct Hin as [[= -> ->]|Hin].
    + simpl. rewrite subrecord_row_frame; [apply lookup_set_same|].
      intros q' Hq' E. apply append_inv_head in E.
      apply (@append_inv_head NESTED_SEPARATOR) in E.
      subst. contradiction.
    + destruct v; simpl in *; try (now apply IH).
      * destruct (error (self_denest_records _ _ _ _ _ _)); simpl in *;
          [discriminate | now apply IH].
      * discriminate.
Qed.

End Walks.

(** C4: a record with an object inside an object-valued property never
    denests: the call of [denest_records] made for the root table raises,
    whatever the recursion limit. *)
Theorem object_in_object_raises (fuel : nat) (table_name : string)
    (records : list value) (rm : records_map) (key_properties : list string)
    (level : Z) (record : value) :
  In record records -> object_in_object record ->
  error (denest_records fuel table_name records rm key_properties None level) <> None.
Proof.
  intros Hin Hobj. destruct fuel as [|fuel]; simpl; [discriminate|].
  apply loop_raises. eauto.
Qed.

(** [object_in_object_raises] at [{"id": 1, "address": {"geo": {"lat": 5}}}]. *)
Lemma object_in_object_raises_witness :
  object_in_object DenestExamples.object_in_object
  /\ error (denest_records 1000 "users" [DenestExamples.object_in_object] []
              ["id"] None (-1)) <> None.
Proof.
  assert (Hobj : object_in_object DenestExamples.object_in_object).
  { exists [("id", VInt 1); ("address", VDict [("geo", VDict [("lat", VInt 5)])])],
      "address", [("geo", VDict [("lat", VInt 5)])], "geo", [("lat", VInt 5)].
    split; [reflexivity|]. split; [right; now left | now left]. }
  exact (conj Hobj
           (@object_in_object_raises 1000 "users" [DenestExamples.object_in_object] []
              ["id"] (-1) DenestExamples.object_in_object (or_introl eq_refl) Hobj)).
Defined.

(** The run of the denester on [{"id": 1, "address": {"geo": {"lat": 5}}}]:
    the inner call of [denest_subrecord] raises [TypeError] and no row is
    produced. *)
Lemma object_in_object_type_error :
  denest_records 1000 "users" [DenestExamples.object_in_object] [] ["id"] None (-1)
  = {| objects := [DenestExamples.object_in_object];
       map_after := [];
       error := Some (TypeError "denest_subrecord() missing 2 required positional arguments: 'pk_fks' and 'level'") |}.
Proof. vm_compute. reflexivity. Qed.

(** C7: the claim as stated fails on
    [{"id": 1, "name": null, "address": {"city": null, "zip": "75"}}]: the
    denested row has no key [name], but it has the key [address__city], bound
    to null. *)
Lemma null_in_object_is_bound :
  map_after (denest_records 1000 "users" [DenestExamples.null_in_object] []
               ["id"] None (-1))
  = [("users", [[("id", VInt 1); ("address__city", VNone); ("address__zip", VStr "75")]])]
  /\ dict_lookup [("id", VInt 1); ("address__city", VNone); ("address__zip", VStr "75")]
                 "address__city" = Some VNone
  /\ dict_mem [("id", VInt 1); ("address__city", VNone); ("address__zip", VStr "75")]
              "name" = false.
Proof. vm_compute. repeat split. Qed.

(** C7 (amended).  A top-level property whose value is null contributes no
    key to the denested row: the record denests exactly as it does without
    its top-level nulls.  A null inside an object-valued property is written
    under its flattened key, which the row binds to null. *)
Theorem nulls_in_denested_rows (fuel : nat) (table_name : string)
    (key_properties : list string) (pk_fks : dict) (level : Z) (rm : records_map) :
  (forall (current_path : option string) (items : dict),
      map_after (denest_record (denest_records fuel) table_name current_path
                   (VDict items) rm key_properties pk_fks level)
      = map_after (denest_record (denest_records fuel) table_name current_path
                     (VDict (without_nulls items)) rm key_properties pk_fks level)
      /\ error (denest_record (denest_records fuel) table_name current_path
                  (VDict items) rm key_properties pk_fks level)
         = error (denest_record (denest_records fuel) table_name current_path
                    (VDict (without_nulls items)) rm key_properties pk_fks level))
  /\ (forall (current_path : string) (parent_record sub : dict) (q : string),
         NoDup (keys sub) -> In (q, VNone) sub ->
         walked_error (denest_subrecord (denest_records fuel) table_name current_path
                         parent_record sub rm key_properties pk_fks level) = None ->
         dict_lookup (row (denest_subrecord (denest_records fuel) table_name current_path
                             parent_record sub rm key_properties pk_fks level))
                     (current_path ++ NESTED_SEPARATOR ++ q)
         = Some VNone).
Proof.
  split.
  - intros current_path items. unfold denest_record.
    destruct (@record_items_skip_nulls (denest_records fuel) table_name current_path
                items [] rm key_properties pk_fks level) as (Hrow & Hmap & Herr).
    rewrite <- Herr.
    destruct (walked_error (denest_record_items (denest_records fuel) table_name
                              current_path items [] rm key_properties pk_fks level));
      simpl; [split; [exact Hmap | reflexivity]|].
    rewrite Hrow, Hmap. split; reflexivity.
  - intros current_path parent sub q Hnd Hin Hok.
    now apply subrecord_binds_null.
Qed.

(** [nulls_in_denested_rows] at the object [{"city": null, "zip": "75"}]
    under [address]. *)
Lemma nulls_in_denested_rows_witness :
  NoDup (keys [("city", VNone); ("zip", VStr "75")])
  /\ In ("city", VNone) [("city", VNone); ("zip", VStr "75")]
  /\ dict_lookup (row (denest_subrecord (denest_records 999) "users" "address"
                         [("id", VInt 1)] [("city", VNone); ("zip", VStr "75")] []
                         ["id"] [("_sdc_source_key_id", VInt 1)] (-1)))
                 ("address" ++ NESTED_SEPARATOR ++ "city")
     = Some VNone.
Proof.
  assert (Hnd : NoDup (keys [("city", VNone); ("zip", VStr "75")])).
  { repeat constructor; simpl; intuition discriminate. }
  assert (Hin : In ("city", VNone) [("city", VNone); ("zip", VStr "75")]) by now left.
  exact (conj Hnd (conj Hin
           (proj2 (@nulls_in_denested_rows 999 "users" ["id"]
                     [("_sdc_source_key_id", VInt 1)] (-1) [])
                  "address" [("id", VInt 1)] [("city", VNone); ("zip", VStr "75")]
                  "city" Hnd Hin eq_refl))).
Defined.

End DenestFacts.

(** ** Rows of a subtable *)
Module SubtableFacts.
Import SingerStream Postgres DictFacts.

(** Neither a dict nor a list. *)
Definition scalar (v : value) : bool := negb (is_dict v || is_list v).

Definition all_scalar (d : dict) : bool := forallb (fun kv => scalar (snd kv)) d.

(** The records the denester takes without raising: objects whose
    properties are scalars, objects of scalars and arrays, or arrays that the
    denester takes in turn.  [denestable n] allows arrays nested [n] deep. *)
Definition record_ok (list_ok : list value -> bool) (record : value) : bool :=
  match record with
  | VDict items =>
      forallb (fun kv =>
                 match snd kv with
                 | VDict sub =>
                     forallb (fun kv' =>
                                match snd kv' with
                                | VDict _ => false
                                | VList l => list_ok l
                                | _ => true
                                end) sub
                 | VList l => list_ok l
                 | _ => true
                 end) items
  | _ => false
  end.

Fixpoint denestable (n : nat) (record : value) : bool :=
  record_ok match n with
            | O => fun _ => false
            | S n' => forallb (denestable n')
            end record.

(** The [pk_fks] a subtable call receives: what the top-level branch built
    for the root record, with the row index of every array above it set by
    the calls in between ([level0], [level0 + 1], ...). *)
Fixpoint ancestor_pk_fks (fks : dict) (level0 : Z) (indices : list Z) : dict :=
  match indices with
  | [] => fks
  | i :: rest => ancestor_pk_fks (dict_set fks (SINGER_LEVEL level0) (VInt i)) (level0 + 1) rest
  end.

(** A table of the map is out of reach of the calls made for [table_name]
    when its name does not extend [table_name]. *)
Definition frames (f : string -> list value -> records_map -> list string ->
                       option dict -> Z -> denested (list value)) : Prop :=
  forall table_name records rm key_properties pk_fks level t,
    (forall s, t <> (table_name ++ s)%string) ->
    rm_lookup (map_after (f table_name records rm key_properties pk_fks level)) t
    = rm_lookup rm t.

Lemma rm_append_same (rm : records_map) (t : string) (r : dict) :
  rm_lookup (rm_append rm t r) t = Some (rm_rows rm t ++ [r])%list.
Proof.
  unfold rm_rows. induction rm as [|[t' rows] rm IH]; simpl.
  - now rewrite String.eqb_refl.
  - destruct (String.eqb t t') eqn:E; simpl; rewrite E; [reflexivity | exact IH].
Qed.

Lemma rm_append_other (rm : records_map) (t t' : string) (r : dict) :
  t' <> t -> rm_lookup (rm_append rm t r) t' = rm_lookup rm t'.
Proof.
  intro Hne. induction rm as [|[t0 rows] rm IH]; simpl.
  - destruct (String.eqb_spec t' t); [contradiction | reflexivity].
  - destruct (String.eqb_spec t t0) as [->|Ht]; simpl.
    + destruct (String.eqb_spec t' t0); [contradiction | reflexivity].
    + destruct (String.eqb t' t0); [reflexivity | exact IH].
Qed.

Lemma append_empty (s : string) : (s ++ "")%string = s.
Proof. induction s as [|c s IH]; simpl; [reflexivity | now rewrite IH]. Qed.

Lemma not_below_nested (table_name next_path t : string) :
  (forall s, t <> (table_name ++ NESTED_SEPARATOR ++ s)%string) ->
  forall s, t <> ((table_name ++ NESTED_SEPARATOR ++ next_path) ++ s)%string.
Proof.
  intros H s E. apply (H (next_path ++ s)%string).
  now rewrite E, !append_assoc.
Qed.

Lemma not_below_self (table_name : string) :
  forall s, table_name <> (table_name ++ NESTED_SEPARATOR ++ s)%string.
Proof.
  intros s E. apply (f_equal String.length) in E.
  rewrite !append_length in E. simpl in E. lia.
Qed.

Section Frame.

Variable self_denest_records :
  string -> list value -> records_map -> list string -> option dict -> Z ->
  denested (list value).
Hypothesis self_frames : frames self_denest_records.

Lemma subrecord_map_frame (table_name current_path : string) (sub : dict) (t : string) :
  forall (parent_record : dict) (rm : records_map) (key_properties : list string)
         (pk_fks : dict) (level : Z),
    (forall s, t <> (table_name ++ NESTED_SEPARATOR ++ s)%string) ->
    rm_lookup (walked_map (denest_subrecord self_denest_records table_name current_path
                             parent_record sub rm key_properties pk_fks level)) t
    = rm_lookup rm t.
Proof.
  induction sub as [|[prop v] rest IH]; intros parent rm kp fks lvl Ht; simpl;
    [reflexivity|].
  destruct v; simpl; try (now apply IH); [|reflexivity].
  pose proof (@self_frames
                (table_name ++ NESTED_SEPARATOR ++ current_path ++ NESTED_SEPARATOR ++ prop)
                items rm kp (Some fks) (lvl + 1) t
                (@not_below_nested table_name
                   (current_path ++ NESTED_SEPARATOR ++ prop) t Ht)) as K.
  destruct (error (self_denest_records _ _ _ _ _ _)); simpl; [exact K|].
  rewrite IH by exact Ht. exact K.
Qed.

Lemma record_items_map_frame (table_name : string) (items : dict) (t : string) :
  forall (denested_record : dict) (rm : records_map) (key_properties : list string)
         (pk_fks : dict) (level : Z),
    (forall s, t <> (table_name ++ NESTED_SEPARATOR ++ s)%string) ->
    rm_lookup (walked_map (denest_record_items self_denest_records table_name None
                             items denested_record rm key_properties pk_fks level)) t
    = rm_lookup rm t.
Proof.
  induction items as [|[prop v] rest IH]; intros row0 rm kp fks lvl Ht; simpl;
    [reflexivity|].
  destruct v; simpl; try (now apply IH).
  - pose proof (@self_frames (table_name ++ NESTED_SEPARATOR ++ prop)
                  items rm kp (Some fks) (lvl + 1) t
                  (@not_below_nested table_name prop t Ht)) as K.
    destruct (error (self_denest_records _ _ _ _ _ _)); simpl; [exact K|].
    rewrite IH by exact Ht. exact K.
  - pose proof (@subrecord_map_frame table_name prop items t row0 rm kp fks lvl Ht) as K.
    destruct (walked_error (denest_subrecord _ _ _ _ _ _ _ _ _)); simpl; [exact K|].
    rewrite IH by exact Ht. exact K.
Qed.

(** One record: tables that do not extend the name are untouched; on
    success the table itself gains one row, the record's. *)
Lemma record_map_frame (table_name : string) (record : value) (rm : records_map)
    (key_properties : list string) (pk_fks : dict) (level : Z) (t : string) :
  (forall s, t <> (table_name ++ s)%string) ->
  rm_lookup (map_after (denest_record self_denest_records table_name None record rm
                          key_properties pk_fks level)) t
  = rm_lookup rm t.
Proof.
  intro Ht.
  assert (Hbelow : forall s, t <> (table_name ++ NESTED_SEPARATOR ++ s)%string)
    by (intro s; apply Ht).
  assert (Hne : t <> table_name).
  { intro E. apply (Ht ""%string). now rewrite append_empty. }
  destruct record; simpl; try reflexivity.
  pose proof (@record_items_map_frame table_name items t [] rm key_properties
                pk_fks level Hbelow) as K.
  destruct (walked_error _); simpl; [exact K|].
  rewrite rm_append_other by exact Hne. exact K.
Qed.

Lemma record_appends_row (table_name : string) (items : dict) (rm : records_map)
    (key_properties : list string) (pk_fks : dict) (level : Z) :
  error (denest_record self_denest_records table_name None (VDict items) rm
           key_properties pk_fks level) = None ->
  rm_rows (map_after (denest_record self_denest_records table_name None (VDict items) rm
                        key_properties pk_fks level)) table_name
  = (rm_rows rm table_name
     ++ [row (denest_record_items self_denest_records table_name None items [] rm
                key_properties pk_fks level)])%list
  /\ walked_error (denest_record_items self_denest_records table_name None items [] rm
                     key_properties pk_fks level) = None.
Proof.
  simpl.
  pose proof (@record_items_map_frame table_name items table_name [] rm key_properties
                pk_fks level (@not_below_self table_name)) as K.
  destruct (walked_error _); simpl; [discriminate|].
  intros _. split; [|reflexivity].
  unfold rm_rows at 1. rewrite rm_append_same. unfold rm_rows. now rewrite K.
Qed.

Lemma loop_frames (table_name : string) (records : list value) (t : string) :
  forall (rm : records_map) (key_properties : list string) (pk_fks : option dict)
         (level row_index : Z),
    (forall s, t <> (table_name ++ s)%string) ->
    rm_lookup (map_after (denest_records_loop self_denest_records table_name records rm
                            key_properties pk_fks level row_index)) t
    = rm_lookup rm t.
Proof.
  induction records as [|r rest IH]; intros rm kp fks lvl idx Ht;
    cbn [denest_records_loop]; [reflexivity|].
  destruct (truthy fks) as [d|]; destruct r; cbn [map_after]; try reflexivity.
  - pose proof (@record_map_frame table_name
                  (VDict (merge_pk_fks items (dict_set d (SINGER_LEVEL lvl) (VInt idx))))
                  rm kp (dict_set d (SINGER_LEVEL lvl) (VInt idx)) lvl t Ht) as K.
    destruct (error (denest_record _ _ _ _ _ _ _ _)); cbn [map_after]; [exact K|].
    rewrite IH by exact Ht. exact K.
  - destruct (top_level_pk_fks items kp) as [e|d]; cbn [map_after]; [reflexivity|].
    pose proof (@record_map_frame table_name (VDict items) rm kp d lvl t Ht) as K.
    destruct (error (denest_record _ _ _ _ _ _ _ _)); cbn [map_after]; [exact K|].
    rewrite IH by exact Ht. exact K.
Qed.

End Frame.

Lemma denest_records_frames (fuel : nat) : frames (denest_records fuel).
Proof.
  induction fuel as [|fuel IH]; intros table_name records rm kp fks lvl t Ht; simpl.
  - reflexivity.
  - now apply loop_frames.
Qed.

(** *** What a row holds *)

Lemma merge_lookup (record_pk_fks : dict) :
  forall (items : dict) (K : string),
    NoDup (keys record_pk_fks) ->
    dict_lookup (merge_pk_fks items record_pk_fks) K
    = match dict_lookup record_pk_fks K with
      | Some v => Some v
      | None => dict_lookup items K
      end.
Proof.
  unfold merge_pk_fks.
  induction record_pk_fks as [|[k v] rest IH]; intros items K Hnd; simpl; [reflexivity|].
  inversion Hnd as [|? ? Hnotin Hnd']; subst.
  rewrite IH by exact Hnd'.
  destruct (String.eqb_spec K k) as [->|Hne].
  - apply lookup_none_not_in in Hnotin. rewrite Hnotin. apply lookup_set_same.
  - destruct (dict_lookup rest K); [reflexivity | now apply lookup_set_other].
Qed.

Lemma merge_nodup (record_pk_fks : dict) :
  forall items, NoDup (keys items) -> NoDup (keys (merge_pk_fks items record_pk_fks)).
Proof.
  unfold merge_pk_fks.
  induction record_pk_fks as [|[k v] rest IH]; intros items Hnd; simpl; [exact Hnd|].
  apply IH. now apply set_nodup.
Qed.

Lemma merge_in (record_pk_fks : dict) :
  forall items kv,
    In kv (merge_pk_fks items record_pk_fks) -> In kv items \/ In kv record_pk_fks.
Proof.
  unfold merge_pk_fks.
  induction record_pk_fks as [|[k v] rest IH]; intros items [k' v'] Hin; simpl in *;
    [now left|].
  destruct (IH _ _ Hin) as [H|H]; [|right; now right].
  destruct (in_set _ _ _ _ _ H) as [H'|H']; [now left | right; left; now symmetry].
Qed.

Section Rows.

Variable self_denest_records :
  string -> list value -> records_map -> list string -> option dict -> Z ->
  denested (list value).

(** With no path above it, the walk of a record writes a key without
    separator only for the property of that name. *)
Lemma record_items_row_frame (table_name : string) (items : dict) (K : string) :
  forall (denested_record : dict) (rm : records_map) (key_properties : list string)
         (pk_fks : dict) (level : Z),
    has_sep K = false -> ~ In K (keys items) ->
    dict_lookup (row (denest_record_items self_denest_records table_name None
                        items denested_record rm key_properties pk_fks level)) K
    = dict_lookup denested_record K.
Proof.
  induction items as [|[prop v] rest IH]; intros row0 rm kp fks lvl Hsep Hnotin; simpl;
    [reflexivity|].
  assert (Hne : K <> prop) by (intro E; apply Hnotin; now left).
  assert (Hrest : ~ In K (keys rest)) by (intro E; apply Hnotin; now right).
  assert (Hsub : forall (sub : dict) q, In q (keys sub) ->
                   K <> (prop ++ NESTED_SEPARATOR ++ q)%string).
  { intros sub q _ E. rewrite E in Hsep.
    unfold NESTED_SEPARATOR in Hsep. now rewrite has_sep_app in Hsep. }
  destruct v; simpl;
    try (rewrite IH by assumption; try reflexivity; now apply lookup_set_other).
  - destruct (error (self_denest_records _ _ _ _ _ _)); simpl;
      [reflexivity | now apply IH].
  - destruct (walked_error (denest_subrecord _ _ _ _ _ _ _ _ _)); simpl.
    + apply (DenestFacts.subrecord_row_frame self_denest_records). exact (Hsub items).
    + rewrite IH by assumption. apply (DenestFacts.subrecord_row_frame self_denest_records). exact (Hsub items).
Qed.

(** The row of a record that denested: under a key without separator, the
    record's own value when it is a scalar that is not null, and nothing
    otherwise. *)
Lemma record_items_row_lookup (table_name : string) (items : dict) (K : string) :
  forall (denested_record : dict) (rm : records_map) (key_properties : list string)
         (pk_fks : dict) (level : Z),
    has_sep K = false -> NoDup (keys items) ->
    walked_error (denest_record_items self_denest_records table_name None
                    items denested_record rm key_properties pk_fks level) = None ->
    dict_lookup (row (denest_record_items self_denest_records table_name None
                        items denested_record rm key_properties pk_fks level)) K
    = match dict_lookup items K with
      | Some v => if is_literal v then Some v else dict_lookup denested_record K
      | None => dict_lookup denested_record K
      end.
Proof.
  induction items as [|[prop v] rest IH]; intros row0 rm kp fks lvl Hsep Hnd Hok;
    [reflexivity|].
  inversion Hnd as [|? ? Hnotin Hnd']; subst.
  assert (Hsub : forall (sub : dict) q, In q (keys sub) ->
                   K <> (prop ++ NESTED_SEPARATOR ++ q)%string).
  { intros sub q _ E. rewrite E in Hsep.
    unfold NESTED_SEPARATOR in Hsep. now rewrite has_sep_app in Hsep. }
  cbn [dict_lookup].
  destruct (String.eqb_spec K prop) as [->|Hne].
  - (* the property itself: nothing later writes its key *)
    destruct v; simpl in *;
      try (rewrite record_items_row_frame by assumption;
           try reflexivity; now apply lookup_set_same).
    + destruct (error (self_denest_records _ _ _ _ _ _)); simpl in *;
        [discriminate | now apply record_items_row_frame].
    + destruct (walked_error (denest_subrecord _ _ _ _ _ _ _ _ _)); simpl in *;
        [discriminate|].
      rewrite record_items_row_frame by assumption.
      apply (DenestFacts.subrecord_row_frame self_denest_records). exact (Hsub items).
  - destruct v; simpl in *;
      try (rewrite IH by assumption; try reflexivity;
           now rewrite lookup_set_other by exact Hne).
    + destruct (error (self_denest_records _ _ _ _ _ _)); simpl in *;
        [discriminate | now apply IH].
    + destruct (walked_error (denest_subrecord _ _ _ _ _ _ _ _ _)) eqn:E; simpl in *;
        [discriminate|].
      rewrite IH by assumption.
      now rewrite (DenestFacts.subrecord_row_frame self_denest_records) by exact (Hsub items).
Qed.

End Rows.

(** *** The rows one call appends *)

(** The row of the record at [row_index]: under a key without separator it
    holds what the record holds after the keys of [pk_fks] and the level
    column were written into it, when that is a scalar that is not null. *)
Definition row_of (pk_fks : dict) (level row_index : Z) (items row : dict) : Prop :=
  forall K, has_sep K = false ->
    dict_lookup row K
    = match dict_lookup
              (merge_pk_fks items (dict_set pk_fks (SINGER_LEVEL level) (VInt row_index))) K
      with
      | Some v => if is_literal v then Some v else None
      | None => None
      end.

Fixpoint rows_of (pk_fks : dict) (level row_index : Z) (records : list value)
    (rows : list dict) : Prop :=
  match records, rows with
  | [], [] => True
  | VDict items :: records', r :: rows' =>
      row_of pk_fks level row_index items r
      /\ rows_of pk_fks level (row_index + 1) records' rows'
  | _, _ => False
  end.

Lemma rows_of_nth (pk_fks : dict) (level : Z) (records : list value) :
  forall (rows : list dict) (row_index : Z),
    rows_of pk_fks level row_index records rows ->
    List.length rows = List.length records
    /\ forall i r, nth_error rows i = Some r ->
         exists items, nth_error records i = Some (VDict items)
                       /\ row_of pk_fks level (row_index + Z.of_nat i) items r.
Proof.
  induction records as [|record records IH]; intros [|r0 rows] idx H; simpl in H;
    try contradiction.
  - split; [reflexivity | intros [|i] r E; discriminate].
  - destruct record; try contradiction.
  - destruct record; try contradiction. destruct H as [H0 H].
    destruct (IH _ _ H) as [Hlen Hnth]. split; [simpl; now rewrite Hlen|].
    intros [|i] r E; simpl in E.
    + injection E as <-. exists items. split; [reflexivity|].
      now replace (idx + Z.of_nat 0) with idx by lia.
    + destruct (Hnth _ _ E) as (items' & E' & Hrow). exists items'. split; [exact E'|].
      now replace (idx + Z.of_nat (S i)) with (idx + 1 + Z.of_nat i) by lia.
Qed.

Section LoopRows.

Variable self_denest_records :
  string -> list value -> records_map -> list string -> option dict -> Z ->
  denested (list value).
Hypothesis self_frames : frames self_denest_records.

Lemma loop_rows (table_name : string) (key_properties : list string)
    (kv : string * value) (d : dict) (level : Z) (records : list value) :
  forall (rm : records_map) (row_index : Z),
    NoDup (keys (kv :: d)) ->
    Forall (fun r => NoDup (keys (record_items r))) records ->
    error (denest_records_loop self_denest_records table_name records rm
             key_properties (Some (kv :: d)) level row_index) = None ->
    exists rows,
      rm_rows (map_after (denest_records_loop self_denest_records table_name records rm
                            key_properties (Some (kv :: d)) level row_index)) table_name
      = (rm_rows rm table_name ++ rows)%list
      /\ rows_of (kv :: d) level row_index records rows.
Proof.
  induction records as [|record records IH]; intros rm idx Hfks Hnd Hok.
  - exists []. split; [simpl; now rewrite app_nil_r | exact I].
  - inversion Hnd as [|? ? Hnd0 Hnd']; subst.
    cbn [denest_records_loop truthy] in *.
    destruct record; cbn [error] in Hok; try discriminate.
    simpl in Hnd0.
    set (rfks := dict_set (kv :: d) (SINGER_LEVEL level) (VInt idx)) in *.
    set (merged := merge_pk_fks items rfks) in *.
    pose proof (@record_appends_row self_denest_records self_frames table_name merged rm
                  key_properties rfks level) as Hrow.
    destruct (error (denest_record self_denest_records table_name None (VDict merged) rm
                       key_properties rfks level)) eqn:E; cbn [error map_after] in *;
      [discriminate|].
    destruct (Hrow eq_refl) as [Hrows Hwalk].
    destruct (IH _ _ Hfks Hnd' Hok) as (rows & Hrest & Hspec).
    exists (row (denest_record_items self_denest_records table_name None merged [] rm
                   key_properties rfks level) :: rows).
    split.
    + rewrite Hrest, Hrows, <- app_assoc. reflexivity.
    + split; [|exact Hspec].
      intros K Hsep.
      rewrite (@record_items_row_lookup self_denest_records table_name merged K [] rm
                 key_properties rfks level Hsep
                 (@merge_nodup rfks items Hnd0) Hwalk).
      fold rfks. fold merged. simpl.
      destruct (dict_lookup merged K) as [v|]; [destruct (is_literal v)|]; reflexivity.
Qed.

End LoopRows.

(** *** The calls that return *)

Section Total.

Variable self_denest_records :
  string -> list value -> records_map -> list string -> option dict -> Z ->
  denested (list value).
Variable list_ok : list value -> bool.
Hypothesis self_total :
  forall table_name records rm key_properties kv d level,
    all_scalar (kv :: d) = true -> list_ok records = true ->
    error (self_denest_records table_name records rm key_properties
             (Some (kv :: d)) level) = None.

Definition sub_item_ok (kv : string * value) : bool :=
  match snd kv with
  | VDict _ => false
  | VList l => list_ok l
  | _ => true
  end.

Definition item_ok (kv : string * value) : bool :=
  match snd kv with
  | VDict sub => forallb sub_item_ok sub
  | VList l => list_ok l
  | _ => true
  end.

Lemma subrecord_total (table_name current_path : string) (sub : dict)
    (kv : string * value) (d : dict) :
  forall (parent_record : dict) (rm : records_map) (key_properties : list string)
         (level : Z),
    all_scalar (kv :: d) = true -> forallb sub_item_ok sub = true ->
    walked_error (denest_subrecord self_denest_records table_name current_path
                    parent_record sub rm key_properties (kv :: d) level) = None.
Proof.
  induction sub as [|[prop v] rest IH]; intros parent rm kp lvl Hfks Hok; [reflexivity|].
  cbn [forallb] in Hok. apply andb_true_iff in Hok. destruct Hok as [Hv Hrest].
  unfold sub_item_ok in Hv. cbn [snd] in Hv.
  destruct v; simpl; try (now apply IH); [|discriminate].
  rewrite self_total by assumption. simpl. now apply IH.
Qed.

Lemma record_items_total (table_name : string) (items : dict)
    (kv : string * value) (d : dict) :
  forall (denested_record : dict) (rm : records_map) (key_properties : list string)
         (level : Z),
    all_scalar (kv :: d) = true -> forallb item_ok items = true ->
    walked_error (denest_record_items self_denest_records table_name None items
                    denested_record rm key_properties (kv :: d) level) = None.
Proof.
  induction items as [|[prop v] rest IH]; intros row0 rm kp lvl Hfks Hok; [reflexivity|].
  cbn [forallb] in Hok. apply andb_true_iff in Hok. destruct Hok as [Hv Hrest].
  unfold item_ok in Hv. cbn [snd] in Hv.
  destruct v; simpl; try (now apply IH).
  - rewrite self_total by assumption. simpl. now apply IH.
  - rewrite subrecord_total by assumption. simpl. now apply IH.
Qed.

Lemma record_ok_items (items : dict) :
  record_ok list_ok (VDict items) = forallb item_ok items.
Proof. reflexivity. Qed.

Lemma merged_ok (items record_pk_fks : dict) :
  forallb item_ok items = true -> all_scalar record_pk_fks = true ->
  forallb item_ok (merge_pk_fks items record_pk_fks) = true.
Proof.
  intros Hitems Hfks. apply forallb_forall. intros [k v] Hin.
  destruct (merge_in _ _ _ Hin) as [H|H].
  - exact (proj1 (forallb_forall _ _) Hitems _ H).
  - pose proof (proj1 (forallb_forall _ _) Hfks _ H) as Hs.
    unfold item_ok. simpl in *. destruct v; try reflexivity; discriminate.
Qed.

Lemma set_scalar (pk_fks : dict) (k : string) (n : Z) :
  all_scalar pk_fks = true -> all_scalar (dict_set pk_fks k (VInt n)) = true.
Proof.
  intro H. apply forallb_forall. intros [k' v'] Hin.
  destruct (in_set _ _ _ _ _ Hin) as [H'|H'].
  - exact (proj1 (forallb_forall _ _) H _ H').
  - now injection H' as -> ->.
Qed.

Lemma loop_total (table_name : string) (key_properties : list string)
    (kv : string * value) (d : dict) (level : Z) (records : list value) :
  forall (rm : records_map) (row_index : Z),
    all_scalar (kv :: d) = true ->
    forallb (record_ok list_ok) records = true ->
    error (denest_records_loop self_denest_records table_name records rm
             key_properties (Some (kv :: d)) level row_index) = None.
Proof.
  induction records as [|record records IH]; intros rm idx Hfks Hok; [reflexivity|].
  cbn [forallb] in Hok. apply andb_true_iff in Hok. destruct Hok as [Hrec Hrest].
  cbn [denest_records_loop truthy].
  destruct record; try discriminate.
  rewrite record_ok_items in Hrec.
  set (rfks := dict_set (kv :: d) (SINGER_LEVEL level) (VInt idx)).
  assert (Hscalar : all_scalar rfks = true) by now apply set_scalar.
  assert (Hwalk : walked_error
                    (denest_record_items self_denest_records table_name None
                       (merge_pk_fks items rfks) [] rm key_properties rfks level) = None).
  { destruct rfks as [|kv' d'] eqn:E; [now apply set_not_nil in E|].
    apply record_items_total; [exact Hscalar | now apply merged_ok]. }
  unfold denest_record. rewrite Hwalk. cbn [error map_after objects].
  now apply IH.
Qed.

End Total.

(** Enough fuel and records the denester takes: the call returns. *)
Lemma denest_records_total (n : nat) :
  forall (fuel : nat) (table_name : string) (records : list value) (rm : records_map)
         (key_properties : list string) (kv : string * value) (d : dict) (level : Z),
    (n < fuel)%nat -> all_scalar (kv :: d) = true ->
    forallb (denestable n) records = true ->
    error (denest_records fuel table_name records rm key_properties
             (Some (kv :: d)) level) = None.
Proof.
  induction n as [|n IH]; intros [|fuel] table_name records rm kp kv d lvl Hlt Hfks Hok;
    try lia; cbn [denest_records].
  - apply loop_total with (list_ok := fun _ => false); try assumption.
    intros; discriminate.
  - apply loop_total with (list_ok := forallb (denestable n)); try assumption.
    intros. apply IH; [lia | assumption | assumption].
Qed.

(** *** The keys handed down from the root record *)

Lemma source_key_not_level (k : string) (level : Z) :
  (SINGER_SOURCE_PK_PREFIX ++ k)%string <> SINGER_LEVEL level.
Proof. unfold SINGER_SOURCE_PK_PREFIX, SINGER_LEVEL. simpl. discriminate. Qed.

Lemma source_key_not_sequence (k : string) :
  (SINGER_SOURCE_PK_PREFIX ++ k)%string <> SINGER_SEQUENCE.
Proof. unfold SINGER_SOURCE_PK_PREFIX, SINGER_SEQUENCE. simpl. discriminate. Qed.

Lemma source_keys_spec (root : dict) (key_properties : list string) :
  forall (acc fks : dict),
    source_keys root key_properties acc = inr fks ->
    (NoDup (keys acc) -> NoDup (keys fks))
    /\ (forall k, In k key_properties ->
          dict_lookup root k <> None
          /\ dict_lookup fks (SINGER_SOURCE_PK_PREFIX ++ k) = dict_lookup root k)
    /\ (forall K, (forall k, In k key_properties ->
                     K <> (SINGER_SOURCE_PK_PREFIX ++ k)%string) ->
          dict_lookup fks K = dict_lookup acc K)
    /\ (all_scalar acc = true ->
        (forall k, In k key_properties -> scalar (py_get root k) = true) ->
        all_scalar fks = true).
Proof.
  induction key_properties as [|key rest IH]; intros acc fks H; simpl in H.
  - injection H as <-. split; [tauto|]. split; [intros k []|]. split; [reflexivity | tauto].
  - destruct (dict_lookup root key) as [v|] eqn:E; [|discriminate].
    destruct (IH _ _ H) as (Hnd & Hkeys & Hframe & Hscalar).
    split; [intro Hacc; apply Hnd; now apply set_nodup|].
    split; [|split].
    + intros k [<-|Hin]; [|now apply Hkeys].
      destruct (in_dec string_dec key rest) as [Hin|Hnotin]; [now apply Hkeys|].
      rewrite E. split; [discriminate|].
      rewrite Hframe; [apply lookup_set_same|].
      intros k Hk Heq. apply append_inv_head in Heq. now subst.
    + intros K HK. rewrite Hframe by (intros k Hk; apply HK; now right).
      apply lookup_set_other. apply HK. now left.
    + intros Hacc Hroot. apply Hscalar; [|intros k Hk; apply Hroot; now right].
      apply forallb_forall. intros [k' v'] Hin.
      destruct (in_set _ _ _ _ _ Hin) as [H'|H'].
      * exact (proj1 (forallb_forall _ _) Hacc _ H').
      * injection H' as -> ->. specialize (Hroot key (or_introl eq_refl)).
        unfold py_get in Hroot. now rewrite E in Hroot.
Qed.

(** What the top-level branch hands down: for every key property, the value
    the root record has for it. *)
Lemma top_level_pk_fks_spec (root : dict) (key_properties : list string) (fks : dict) :
  top_level_pk_fks root key_properties = inr fks ->
  NoDup (keys fks)
  /\ forall k, In k key_properties ->
       dict_lookup root k <> None
       /\ dict_lookup fks (SINGER_SOURCE_PK_PREFIX ++ k) = dict_lookup root k.
Proof.
  unfold top_level_pk_fks. intro H.
  destruct (source_keys root key_properties []) as [e|fks0] eqn:E; [discriminate|].
  destruct (source_keys_spec _ _ _ E) as (Hnd & Hkeys & _ & _).
  specialize (Hnd (NoDup_nil _)).
  destruct (dict_lookup root SINGER_SEQUENCE) as [v|]; injection H as <-.
  - split; [now apply set_nodup|].
    intros k Hk. destruct (Hkeys k Hk) as [H1 H2]. split; [exact H1|].
    rewrite lookup_set_other by apply source_key_not_sequence. exact H2.
  - split; [exact Hnd | exact Hkeys].
Qed.

(** The link with the code: the [record_pk_fks] a subtable call builds for
    its row [i] is the [pk_fks] of the calls it makes one level down. *)
Lemma ancestor_snoc (indices : list Z) :
  forall fks level0 i,
    ancestor_pk_fks fks level0 (indices ++ [i])
    = dict_set (ancestor_pk_fks fks level0 indices)
        (SINGER_LEVEL (level0 + Z.of_nat (List.length indices))) (VInt i).
Proof.
  induction indices as [|j rest IH]; intros fks l0 i; cbn [ancestor_pk_fks app].
  - now replace (l0 + Z.of_nat (List.length (@nil Z))) with l0 by (simpl; lia).
  - rewrite IH. do 2 f_equal. simpl List.length. lia.
Qed.

Lemma ancestor_nodup (indices : list Z) :
  forall fks level0, NoDup (keys fks) -> NoDup (keys (ancestor_pk_fks fks level0 indices)).
Proof.
  induction indices as [|i rest IH]; intros fks l0 H; simpl; [exact H|].
  apply IH. now apply set_nodup.
Qed.

Lemma ancestor_scalar (indices : list Z) :
  forall fks level0, all_scalar fks = true ->
    all_scalar (ancestor_pk_fks fks level0 indices) = true.
Proof.
  induction indices as [|i rest IH]; intros fks l0 H; simpl; [exact H|].
  apply IH. now apply set_scalar.
Qed.

(** Keys that are not level columns pass through; the level column of the
    [j]-th array above holds the row index met there. *)
Lemma ancestor_lookup_other (indices : list Z) (K : string) :
  forall fks level0,
    (forall level, K <> SINGER_LEVEL level) ->
    dict_lookup (ancestor_pk_fks fks level0 indices) K = dict_lookup fks K.
Proof.
  induction indices as [|i rest IH]; intros fks l0 HK; simpl; [reflexivity|].
  rewrite IH by exact HK. apply lookup_set_other. apply HK.
Qed.

Lemma ancestor_lookup_below (indices : list Z) :
  forall fks level0 level,
    level < level0 ->
    dict_lookup (ancestor_pk_fks fks level0 indices) (SINGER_LEVEL level)
    = dict_lookup fks (SINGER_LEVEL level).
Proof.
  induction indices as [|i rest IH]; intros fks l0 lvl Hlt; simpl; [reflexivity|].
  rewrite IH by lia. apply lookup_set_other.
  intro E. apply SINGER_LEVEL_inj in E. lia.
Qed.

Lemma ancestor_lookup_level (indices : list Z) :
  forall fks level0 j idx,
    nth_error indices j = Some idx ->
    dict_lookup (ancestor_pk_fks fks level0 indices) (SINGER_LEVEL (level0 + Z.of_nat j))
    = Some (VInt idx).
Proof.
  induction indices as [|i rest IH]; intros fks l0 [|j] idx E; simpl in E;
    try discriminate.
  - injection E as ->. cbn [ancestor_pk_fks].
    replace (l0 + Z.of_nat 0) with l0 by lia.
    rewrite ancestor_lookup_below by lia. apply lookup_set_same.
  - cbn [ancestor_pk_fks].
    replace (l0 + Z.of_nat (S j)) with (l0 + 1 + Z.of_nat j) by lia.
    now apply IH.
Qed.

(** C6.  A call of [denest_records] for a subtable, with the non-empty
    [pk_fks] handed down from a root record through the arrays above
    ([indices]: the row index met at each of them), on records the denester
    takes, returns and appends one row per record to the subtable, in the
    order of the array.  The row at position [i] holds the level column of
    this level with value [i]; the level column of every level above, with
    the integer met there; for every key property [k], under
    [_sdc_source_key_<k>], the value the root record has for [k]; and the
    scalar properties of the [i]-th record itself. *)
Theorem subtable_rows (n fuel : nat) (table_name : string) (records : list value)
    (rm : records_map) (key_properties : list string) (root fks0 : dict)
    (indices : list Z) :
  (n < fuel)%nat ->
  forallb (denestable n) records = true ->
  Forall (fun r => NoDup (keys (record_items r))) records ->
  top_level_pk_fks root key_properties = inr fks0 ->
  all_scalar fks0 = true ->
  ancestor_pk_fks fks0 0 indices <> [] ->
  exists rows,
    error (denest_records fuel table_name records rm key_properties
             (Some (ancestor_pk_fks fks0 0 indices))
             (Z.of_nat (List.length indices))) = None
    /\ rm_rows (map_after (denest_records fuel table_name records rm key_properties
                             (Some (ancestor_pk_fks fks0 0 indices))
                             (Z.of_nat (List.length indices)))) table_name
       = (rm_rows rm table_name ++ rows)%list
    /\ List.length rows = List.length records
    /\ forall i r, nth_error rows i = Some r ->
         dict_lookup r (SINGER_LEVEL (Z.of_nat (List.length indices)))
           = Some (VInt (Z.of_nat i))
         /\ (forall j idx, nth_error indices j = Some idx ->
               dict_lookup r (SINGER_LEVEL (Z.of_nat j)) = Some (VInt idx))
         /\ (forall k, In k key_properties ->
               has_sep (SINGER_SOURCE_PK_PREFIX ++ k) = false ->
               py_get r (SINGER_SOURCE_PK_PREFIX ++ k) = py_get root k)
         /\ (exists items,
               nth_error records i = Some (VDict items)
               /\ forall k v, In (k, v) items -> is_literal v = true ->
                    has_sep k = false ->
                    dict_mem (ancestor_pk_fks fks0 0 indices) k = false ->
                    k <> SINGER_LEVEL (Z.of_nat (List.length indices)) ->
                    dict_lookup r k = Some v).
Proof.
  intros Hfuel Hok Hwf Htop Hscalar0 Hnonempty.
  set (level := Z.of_nat (List.length indices)).
  destruct (top_level_pk_fks_spec _ _ Htop) as [Hnd0 Hkeys].
  pose proof (@ancestor_nodup indices fks0 0 Hnd0) as Hnd.
  pose proof (@ancestor_scalar indices fks0 0 Hscalar0) as Hscalar.
  pose proof (@ancestor_lookup_level indices fks0 0) as Hlevels.
  pose proof (fun K H => @ancestor_lookup_other indices K fks0 0 H) as Hother.
  destruct (ancestor_pk_fks fks0 0 indices) as [|kv d] eqn:Efks; [contradiction|].
  pose proof (@denest_records_total n fuel table_name records rm key_properties kv d level
                Hfuel Hscalar Hok) as Herr.
  destruct fuel as [|fuel]; [lia|]. cbn [denest_records] in *.
  destruct (@loop_rows (denest_records fuel) (denest_records_frames fuel) table_name
              key_properties kv d level records rm 0 Hnd Hwf Herr)
    as (rows & Hrows & Hspec).
  destruct (rows_of_nth _ _ _ _ _ Hspec) as [Hlen Hnth].
  exists rows. split; [exact Herr|]. split; [exact Hrows|]. split; [exact Hlen|].
  intros i r Hr. destruct (Hnth i r Hr) as (items & Hrec & Hrow).
  replace (0 + Z.of_nat i) with (Z.of_nat i) in Hrow by lia.
  set (rfks := dict_set (kv :: d) (SINGER_LEVEL level) (VInt (Z.of_nat i))) in *.
  assert (Hrnd : NoDup (keys rfks)) by now apply set_nodup.
  assert (Hmerged : forall K,
             dict_lookup (merge_pk_fks items rfks) K
             = match dict_lookup rfks K with
               | Some v => Some v
               | None => dict_lookup items K
               end) by (intro K; now apply merge_lookup).
  assert (Hhere : dict_lookup rfks (SINGER_LEVEL level) = Some (VInt (Z.of_nat i)))
    by apply lookup_set_same.
  assert (Habove : forall K, K <> SINGER_LEVEL level ->
                     dict_lookup rfks K = dict_lookup (kv :: d) K)
    by (intros K HK; now apply lookup_set_other).
  split; [|split; [|split]].
  - rewrite (Hrow _ (SINGER_LEVEL_no_sep level)), Hmerged, Hhere. reflexivity.
  - intros j idx Hj.
    assert (Hne : SINGER_LEVEL (Z.of_nat j) <> SINGER_LEVEL level).
    { intro E. apply SINGER_LEVEL_inj in E.
      assert (j < List.length indices)%nat by (apply nth_error_Some; congruence).
      unfold level in E. lia. }
    rewrite (Hrow _ (SINGER_LEVEL_no_sep (Z.of_nat j))), Hmerged, (Habove _ Hne).
    specialize (Hlevels j idx Hj). cbn [Z.add] in Hlevels. rewrite Hlevels. reflexivity.
  - intros k Hk Hsep. destruct (Hkeys k Hk) as [Hsome Hfks].
    assert (Hne : (SINGER_SOURCE_PK_PREFIX ++ k)%string <> SINGER_LEVEL level)
      by apply source_key_not_level.
    assert (Hup : dict_lookup (kv :: d) (SINGER_SOURCE_PK_PREFIX ++ k)
                  = dict_lookup root k).
    { rewrite Hother; [exact Hfks|]. intros l E. now apply source_key_not_level in E. }
    unfold py_get at 1. rewrite (Hrow _ Hsep), Hmerged, (Habove _ Hne), Hup.
    unfold py_get. destruct (dict_lookup root k) as [v|] eqn:Ev; [|congruence].
    assert (Hs : scalar v = true).
    { apply lookup_in in Hup.
      exact (proj1 (forallb_forall _ _) Hscalar _ Hup). }
    destruct v; try reflexivity; discriminate.
  - exists items. split; [exact Hrec|].
    intros k v Hin Hlit Hsep Hmem Hne.
    assert (Hitems : NoDup (keys items)).
    { apply nth_error_In in Hrec.
      exact (proj1 (Forall_forall _ _) Hwf _ Hrec). }
    rewrite (Hrow _ Hsep), Hmerged, (Habove _ Hne).
    unfold dict_mem in Hmem.
    destruct (dict_lookup (kv :: d) k); [discriminate|].
    rewrite (in_lookup _ _ _ Hitems Hin), Hlit. reflexivity.
Qed.

(** [subtable_rows] at the array [tags] of the record [with_arrays]. *)
Lemma subtable_rows_witness :
  (1 < 3)%nat
  /\ forallb (denestable 1) DenestExamples.tags = true
  /\ top_level_pk_fks DenestExamples.with_arrays ["id"]
     = inr DenestExamples.with_arrays_pk_fks
  /\ exists rows,
       rm_rows (map_after (denest_records 3 "users__tags" DenestExamples.tags []
                             ["id"] (Some DenestExamples.with_arrays_pk_fks) 0))
               "users__tags" = rows
       /\ List.length rows = 2%nat
       /\ forall i r, nth_error rows i = Some r ->
            dict_lookup r (SINGER_LEVEL 0) = Some (VInt (Z.of_nat i))
            /\ py_get r "_sdc_source_key_id" = VInt 7.
Proof.
  assert (Hfuel : (1 < 3)%nat) by (repeat constructor).
  assert (Hok : forallb (denestable 1) DenestExamples.tags = true) by reflexivity.
  assert (Htop : top_level_pk_fks DenestExamples.with_arrays ["id"]
                 = inr DenestExamples.with_arrays_pk_fks) by reflexivity.
  assert (Hwf : Forall (fun r => NoDup (keys (record_items r))) DenestExamples.tags).
  { repeat constructor; simpl; intuition discriminate. }
  assert (Hscalar : all_scalar DenestExamples.with_arrays_pk_fks = true) by reflexivity.
  assert (Hne : ancestor_pk_fks DenestExamples.with_arrays_pk_fks 0 [] <> [])
    by discriminate.
  destruct (@subtable_rows 1 3 "users__tags" DenestExamples.tags [] ["id"]
              DenestExamples.with_arrays DenestExamples.with_arrays_pk_fks []
              Hfuel Hok Hwf Htop Hscalar Hne)
    as (rows & _ & Hrows & Hlen & Hnth).
  split; [exact Hfuel|]. split; [exact Hok|]. split; [exact Htop|].
  exists rows. split; [exact Hrows|]. split; [exact Hlen|].
  intros i r Hr. destruct (Hnth i r Hr) as (Hlevel & _ & Hkey & _).
  split; [exact Hlevel|].
  exact (Hkey "id" (or_introl eq_refl) eq_refl).
Defined.

(** The run of the whole denester on this record: the rows of [users__tags]
    in the order of the array, each with its index and the key of the root. *)
Lemma nested_array_run :
  map_after (denest_records 1000 "users" [VDict DenestExamples.with_arrays] []
               ["id"] None (-1))
  = [("users__tags",
      [[("t", VStr "x"); ("_sdc_source_key_id", VInt 7); ("_sdc_sequence", VInt 3);
        ("_sdc_level_0_id", VInt 0)];
       [("t", VStr "y"); ("_sdc_source_key_id", VInt 7); ("_sdc_sequence", VInt 3);
        ("_sdc_level_0_id", VInt 1)]]);
     ("users__tags__more",
      [[("m", VInt 1); ("_sdc_source_key_id", VInt 7); ("_sdc_sequence", VInt 3);
        ("_sdc_level_0_id", VInt 1); ("_sdc_level_1_id", VInt 0)]]);
     ("users", [[("id", VInt 7); ("_sdc_sequence", VInt 3)]])].
Proof. vm_compute. reflexivity. Qed.

End SubtableFacts.

(** ** The batch writer *)
Module WriteBatchFacts.
Import SingerStream Postgres.

(** Two lines that differ at most in their record. *)
Definition same_line (m m' : record_message) : Prop :=
  version m = version m' /\ time_extracted m = time_extracted m'
  /\ sequence m = sequence m'.

Lemma same_line_refl (m : record_message) : same_line m m.
Proof. repeat split. Qed.

Lemma same_lines_refl (l : list record_message) : Forall2 same_line l l.
Proof. induction l; constructor; [apply same_line_refl | assumption]. Qed.

Lemma same_line_with_record (m : record_message) (r : value) :
  same_line m (with_record m r).
Proof. repeat split. Qed.

Lemma same_lines_trans (a b c : list record_message) :
  Forall2 same_line a b -> Forall2 same_line b c -> Forall2 same_line a c.
Proof.
  intro H. revert c. induction H as [|x y l l' Hxy _ IH]; intros c Hc;
    inversion Hc; subst; constructor.
  - destruct Hxy as (? & ? & ?). match goal with H : same_line y _ |- _ =>
      destruct H as (? & ? & ?) end. repeat split; congruence.
  - now apply IH.
Qed.

Lemma scan_buffer_lines (b : backend) (use_uuid_pk : bool) (buffered : list record_message) :
  forall (i : nat) (max_version : value) (versions : list value),
    Forall2 same_line buffered
      (lines (scan_buffer b use_uuid_pk i buffered max_version versions)).
Proof.
  induction buffered as [|m rest IH]; intros i mv vs; cbn [scan_buffer].
  - constructor.
  - destruct (process_record_message use_uuid_pk (now b) (uuid4 b i) (timestamp b i) m)
      as [e|record]; cbn [lines].
    + constructor; [apply same_line_refl | apply same_lines_refl].
    + repeat match goal with
             | |- context [if ?c then _ else _] => destruct c
             | |- context [match py_lt ?x ?y with _ => _ end] => destruct (py_lt x y)
             end; cbn [lines];
        constructor; try apply same_line_with_record;
        try apply same_lines_refl; apply IH.
Qed.

Lemma scatter_lines (selected : record_message -> bool) (buffered : list record_message) :
  forall records, Forall2 same_line buffered (scatter selected buffered records).
Proof.
  induction buffered as [|m rest IH]; intros records; cbn [scatter].
  - constructor.
  - destruct (selected m); [destruct records|]; constructor;
      try apply same_line_refl; try apply same_line_with_record; apply IH.
Qed.

(** What the [try] block leaves of the buffer, however it ends: the counters,
    and the lines up to their records. *)
Lemma try_keeps_counters (b : backend) (sb : BufferedSingerStream) :
  count (buffer_after (write_batch_try b sb)) = count sb
  /\ size (buffer_after (write_batch_try b sb)) = size sb
  /\ Forall2 same_line (buffer sb) (buffer (buffer_after (write_batch_try b sb))).
Proof.
  pose proof (@scan_buffer_lines b (use_uuid_pk sb) (buffer sb) 0%nat VNone []) as Hscan.
  assert (Hscatter : forall selected records,
             Forall2 same_line (buffer sb)
               (scatter selected
                  (lines (scan_buffer b (use_uuid_pk sb) 0 (buffer sb) VNone []))
                  records)).
  { intros. eapply same_lines_trans; [exact Hscan | apply scatter_lines]. }
  unfold write_batch_try, peek_buffer.
  repeat match goal with
         | |- context [match ?x with _ => _ end] =>
             lazymatch x with
             | context [match _ with _ => _ end] => fail
             | _ => destruct x
             end
         end;
    cbn [buffer_after with_buffer count size buffer];
    (split; [reflexivity|]); (split; [reflexivity|]);
    first [apply same_lines_refl | exact Hscan | apply Hscatter].
Qed.

(** The [try] block ends without an exception only with [COMMIT] done; when
    it fails, [COMMIT] has not returned. *)
Lemma try_trace (b : backend) (sb : BufferedSingerStream) :
  (failure (write_batch_try b sb) = None ->
   executed (write_batch_try b sb) = [BEGIN; COMMIT]
   /\ execute_begin b = None /\ execute_commit b = None)
  /\ (forall ex, failure (write_batch_try b sb) = Some ex ->
      (executed (write_batch_try b sb) = [] /\ execute_begin b = Some ex
       /\ buffer_after (write_batch_try b sb) = sb)
      \/ (executed (write_batch_try b sb) = [BEGIN] /\ execute_begin b = None)).
Proof.
  unfold write_batch_try.
  destruct (execute_begin b) eqn:Eb; cbn [failure executed buffer_after].
  - split; [discriminate|]. intros ex [= ->]. left. repeat split.
  - split; [intro H | intros ex H];
      repeat match goal with
             | |- context [match ?x with _ => _ end] =>
                 lazymatch x with
                 | context [match _ with _ => _ end] => fail
                 | _ => destruct x eqn:?
                 end
             end;
      cbn [failure executed] in *; try discriminate;
      first [right; split; reflexivity | repeat split; assumption].
Qed.

(** C1 (amended).  One flush of a stream buffer that holds lines.  When
    every step through [COMMIT] returns, the buffer is flushed after it: no
    lines, [count] and [size] zero.  When a step raises, [ROLLBACK] is issued
    and [COMMIT] has not returned; once [ROLLBACK] returns, [PostgresError]
    is raised around the exception met; the buffer is not flushed: [count]
    and [size] are what they were and the buffer holds the same lines in the
    same order, each with the version, extraction time and sequence it had.
    The records of those lines are the objects the writer worked on: they are
    untouched only when it is [BEGIN] that raised. *)
Theorem write_batch_commit_or_rollback (b : backend) (sb : BufferedSingerStream) :
  count sb <> 0 ->
  (failure (write_batch_try b sb) = None ->
   failure (write_batch b sb) = None
   /\ executed (write_batch b sb) = [BEGIN; COMMIT]
   /\ buffer (buffer_after (write_batch b sb)) = []
   /\ count (buffer_after (write_batch b sb)) = 0
   /\ size (buffer_after (write_batch b sb)) = 0)
  /\ (forall ex, failure (write_batch_try b sb) = Some ex ->
      ~ In COMMIT (executed (write_batch b sb))
      /\ (execute_rollback b = None ->
          failure (write_batch b sb)
            = Some (PostgresError "Exception writing records" (Some ex))
          /\ exists before, executed (write_batch b sb) = (before ++ [ROLLBACK])%list)
      /\ (forall ex', execute_rollback b = Some ex' ->
          failure (write_batch b sb) = Some ex')
      /\ count (buffer_after (write_batch b sb)) = count sb
      /\ size (buffer_after (write_batch b sb)) = size sb
      /\ Forall2 same_line (buffer sb) (buffer (buffer_after (write_batch b sb)))
      /\ (execute_begin b = Some ex -> buffer_after (write_batch b sb) = sb)).
Proof.
  intro Hcount. unfold write_batch.
  destruct (Z.eqb_spec (count sb) 0) as [E|_]; [contradiction|].
  destruct (try_keeps_counters b sb) as (Hc & Hs & Hlines).
  destruct (try_trace b sb) as [Hok Hfail].
  split.
  - intro H. rewrite H. cbn [failure executed buffer_after].
    destruct (Hok H) as (Htrace & _ & _). repeat split. exact Htrace.
  - intros ex H. rewrite H.
    assert (Htrace : executed (write_batch_try b sb) = []
                     \/ executed (write_batch_try b sb) = [BEGIN]).
    { destruct (Hfail ex H) as [(Ht & _)|(Ht & _)]; [now left | now right]. }
    assert (Hbegin : execute_begin b = Some ex ->
                     buffer_after (write_batch_try b sb) = sb).
    { intro Eb. destruct (Hfail ex H) as [(_ & _ & Hsb)|(_ & Hnone)];
        [exact Hsb | congruence]. }
    destruct (execute_rollback b) as [ex'|]; cbn [failure executed buffer_after].
    + split.
      { destruct Htrace as [-> | ->]; simpl; intuition discriminate. }
      split; [discriminate|]. split; [now intros ? [= ->]|].
      repeat split; assumption.
    + split.
      { destruct Htrace as [-> | ->]; simpl; intuition discriminate. }
      split; [intros _; split; [reflexivity | eauto]|].
      split; [discriminate|].
      repeat split; assumption.
Qed.

(** [write_batch_commit_or_rollback] at the buffer holding one line, with a
    database that answers every statement. *)
Lemma write_batch_commit_or_rollback_witness :
  count StreamExamples.users_at_5 <> 0
  /\ failure (write_batch BatchExamples.healthy StreamExamples.users_at_5) = None
  /\ executed (write_batch BatchExamples.healthy StreamExamples.users_at_5)
     = [BEGIN; COMMIT]
  /\ buffer (buffer_after (write_batch BatchExamples.healthy StreamExamples.users_at_5))
     = [].
Proof.
  assert (Hcount : count StreamExamples.users_at_5 <> 0) by discriminate.
  destruct (proj1 (@write_batch_commit_or_rollback BatchExamples.healthy
                     StreamExamples.users_at_5 Hcount) eq_refl)
    as (Hf & Ht & Hb & _).
  exact (conj Hcount (conj Hf (conj Ht Hb))).
Defined.

(** C1: the claim as stated fails for the buffer holding the line
    [{"record": {"id": 1}, "version": 5}] when the connection is lost while
    the table comment is read: the transaction is rolled back,
    [PostgresError] is raised and [count] and [size] stand, but the record of
    the buffered line now carries [_sdc_table_version], [_sdc_batched_at] and
    [_sdc_sequence]. *)
Lemma failed_batch_leaves_processed_records :
  failure (write_batch BatchExamples.losing_connection StreamExamples.users_at_5)
  = Some (PostgresError "Exception writing records"
            (Some (DriverError "server closed the connection unexpectedly")))
  /\ executed (write_batch BatchExamples.losing_connection StreamExamples.users_at_5)
     = [BEGIN; ROLLBACK]
  /\ map record (buffer StreamExamples.users_at_5) = [VDict [("id", VInt 1)]]
  /\ map record
       (buffer (buffer_after
                  (write_batch BatchExamples.losing_connection StreamExamples.users_at_5)))
     = [VDict [("id", VInt 1); ("_sdc_table_version", VInt 5);
               ("_sdc_batched_at", VStr "2018-06-01 00:00:00.0000+00:00");
               ("_sdc_sequence", VInt 1527811200)]]
  /\ count (buffer_after
              (write_batch BatchExamples.losing_connection StreamExamples.users_at_5))
     = 1.
Proof. vm_compute. repeat split. Qed.

End WriteBatchFacts.

(** ** The schema upserter *)
Module UpsertFacts.
Import SqlBase DictFacts.

Section Lookup.
Context {V : Type}.
Implicit Types (d : list (string * V)) (k : string).

Lemma lookup_del_same d k : NoDup (keys d) -> dict_lookup (dict_del d k) k = None.
Proof.
  induction d as [|[k' v'] d IH]; simpl; [reflexivity|].
  intro Hnd. inversion Hnd as [|? ? Hnotin Hnd']; subst.
  destruct (String.eqb_spec k k') as [->|Hne].
  - now apply lookup_none_not_in.
  - simpl. destruct (String.eqb_spec k k'); [contradiction | now apply IH].
Qed.

Lemma lookup_del_other d k k' :
  k' <> k -> dict_lookup (dict_del d k) k' = dict_lookup d k'.
Proof.
  intro Hne. induction d as [|[k0 v0] d IH]; simpl; [reflexivity|].
  destruct (String.eqb_spec k k0) as [->|Hk].
  - destruct (String.eqb_spec k' k0); [contradiction | reflexivity].
  - simpl. destruct (String.eqb k' k0); [reflexivity | exact IH].
Qed.

End Lookup.

Lemma in_list_In (x : string) (l : list string) : in_list x l = true <-> In x l.
Proof.
  unfold in_list. rewrite existsb_exists. split.
  - intros (y & Hy & E). apply String.eqb_eq in E. now subst.
  - intro H. exists x. split; [exact H | apply String.eqb_refl].
Qed.

Lemma name_not_mapping_name (canonical shorthand : string) :
  (canonical ++ SEPARATOR ++ shorthand)%string <> canonical.
Proof.
  intro E. apply (f_equal String.length) in E.
  rewrite !append_length in E. simpl in E. lia.
Qed.

Section FirstTypeSplit.

Variable schema : Type.
Variable to_sql : schema -> string.
Variable sql_shorthand : schema -> string.
Variable make_nullable : schema -> schema.
Context {connection : Type} {self : SQLInterface schema connection}.

(** Section 4.1: two schemas with the same shorthand have the same SQL type
    family. *)
Hypothesis shorthand_family :
  forall a b, sql_shorthand a = sql_shorthand b ->
              to_sql (make_nullable a) = to_sql (make_nullable b).

Lemma first_type_split_step (existing_schema : TABLE_SCHEMA schema)
    (table_name : string) (table_empty : bool) (st : @upsert_state schema connection)
    (raw_column_name : string) (column_schema existing : schema) :
  let canonical := canonicalize_identifier raw_column_name in
  let old_name := _mapping_name sql_shorthand canonical existing in
  let new_name := _mapping_name sql_shorthand canonical column_schema in
  NoDup (keys (existing_columns st)) ->
  dict_lookup (existing_columns st) canonical = Some existing ->
  raw_column_name = canonical \/ In raw_column_name (existing_columns_raw_names st) ->
  to_sql column_schema <> to_sql existing ->
  to_sql (make_nullable column_schema) <> to_sql existing ->
  to_sql (make_nullable column_schema) <> to_sql (make_nullable existing) ->
  same_sql to_sql (existing_columns st) new_name column_schema = false ->
  same_sql to_sql (existing_columns st) new_name (make_nullable column_schema) = false ->
  exists st',
    upsert_column to_sql sql_shorthand make_nullable existing_schema table_name
      table_empty st raw_column_name column_schema = inr st'
    /\ remote st'
       = drop_column
           (migrate_column
              (add_column
                 (add_column
                    (add_column_mapping
                       (add_column_mapping
                          (if found_mapping
                                (_get_mapping sql_shorthand existing_schema
                                   raw_column_name existing)
                           then drop_column_mapping (remote st) table_name canonical
                           else remote st)
                          table_name raw_column_name old_name (make_nullable existing))
                       table_name raw_column_name new_name (make_nullable column_schema))
                    table_name old_name (make_nullable existing))
                 table_name new_name (make_nullable column_schema))
              table_name canonical old_name)
           table_name canonical
    /\ existing_columns_raw_names st' = existing_columns_raw_names st
    /\ old_name <> new_name
    /\ dict_lookup (existing_columns st') old_name = Some (make_nullable existing)
    /\ dict_lookup (existing_columns st') new_name = Some (make_nullable column_schema)
    /\ dict_mem (existing_columns st') canonical = false
    /\ forall other, other <> canonical -> other <> old_name -> other <> new_name ->
         dict_lookup (existing_columns st') other = dict_lookup (existing_columns st) other.
Proof.
  intros canonical old_name new_name Hnd Hexisting Hname Hsql Hnull Hcompat Htyped Htyped'.
  assert (Hnames : old_name <> new_name).
  { unfold old_name, new_name, _mapping_name. intro E.
    apply append_inv_head in E. apply (@append_inv_head SEPARATOR) in E.
    apply Hcompat. symmetry. now apply shorthand_family. }
  assert (Hold : old_name <> canonical) by apply name_not_mapping_name.
  assert (Hnew : new_name <> canonical) by apply name_not_mapping_name.
  assert (Hcollision :
            negb (String.eqb raw_column_name canonical)
            && negb (in_list raw_column_name (existing_columns_raw_names st)) = false).
  { destruct Hname as [E|Hin].
    - rewrite (proj2 (String.eqb_eq _ _) E). reflexivity.
    - rewrite (proj2 (in_list_In _ _) Hin). apply andb_false_r. }
  assert (Hneq : forall a b : string, a <> b -> String.eqb a b = false).
  { intros a b H. now destruct (String.eqb_spec a b). }
  unfold upsert_column.
  fold canonical. fold new_name. fold old_name.
  rewrite Hcollision. cbn [andb].
  unfold same_sql at 1. rewrite Hexisting, (Hneq _ _ Hsql).
  rewrite Htyped.
  unfold same_sql at 1. rewrite Hexisting, (Hneq _ _ Hnull).
  rewrite Htyped'.
  rewrite (Hneq _ _ Hcompat).
  change (_mapping_name sql_shorthand canonical existing) with old_name.
  rewrite lookup_set_other by exact Hnames.
  rewrite !lookup_set_same.
  eexists. split; [reflexivity|]. cbn [remote existing_columns existing_columns_raw_names].
  split; [reflexivity|]. split; [reflexivity|]. split; [exact Hnames|].
  split; [|split; [|split]].
  - rewrite lookup_del_other by exact Hold.
    rewrite lookup_set_other by exact Hnames. apply lookup_set_same.
  - rewrite lookup_del_other by exact Hnew. apply lookup_set_same.
  - unfold dict_mem. rewrite lookup_del_same; [reflexivity|].
    now apply set_nodup, set_nodup.
  - intros other H1 H2 H3.
    rewrite lookup_del_other by exact H1.
    rewrite lookup_set_other by exact H3. now apply lookup_set_other.
Qed.

(** The columns the first type split is for: the canonical name is a
    column of another SQL type family; the EXISTING and NULL COMPATIBILITY
    cases do not apply, for the canonical name nor for the typed one; and the
    column is no NAME COLLISION, which the decision table tries first. *)
Definition is_first_type_split (st : @upsert_state schema connection)
    (raw_column_name : string) (column_schema existing : schema) : Prop :=
  let canonical := canonicalize_identifier raw_column_name in
  let new_name := _mapping_name sql_shorthand canonical column_schema in
  NoDup (keys (existing_columns st))
  /\ dict_lookup (existing_columns st) canonical = Some existing
  /\ (raw_column_name = canonical \/ In raw_column_name (existing_columns_raw_names st))
  /\ to_sql column_schema <> to_sql existing
  /\ to_sql (make_nullable column_schema) <> to_sql existing
  /\ to_sql (make_nullable column_schema) <> to_sql (make_nullable existing)
  /\ same_sql to_sql (existing_columns st) new_name column_schema = false
  /\ same_sql to_sql (existing_columns st) new_name (make_nullable column_schema) = false.

(** What the first type split does, in the order of the calls: the mapping
    of the canonical name is dropped when the raw name is recorded as mapped
    at the existing type; the two typed names are registered as mappings of
    the raw name and added as nullable columns; the data is migrated; the
    canonical column is dropped.  Afterwards the upserter's view of the
    remote columns has the two typed columns, nullable, and no column of the
    canonical name; the other columns are as before. *)
Definition first_type_split_done (existing_schema : TABLE_SCHEMA schema)
    (table_name : string) (st st' : @upsert_state schema connection)
    (raw_column_name : string) (column_schema existing : schema) : Prop :=
  let canonical := canonicalize_identifier raw_column_name in
  let old_name := _mapping_name sql_shorthand canonical existing in
  let new_name := _mapping_name sql_shorthand canonical column_schema in
  remote st'
  = drop_column
      (migrate_column
         (add_column
            (add_column
               (add_column_mapping
                  (add_column_mapping
                     (if found_mapping
                           (_get_mapping sql_shorthand existing_schema
                              raw_column_name existing)
                      then drop_column_mapping (remote st) table_name canonical
                      else remote st)
                     table_name raw_column_name old_name (make_nullable existing))
                  table_name raw_column_name new_name (make_nullable column_schema))
               table_name old_name (make_nullable existing))
            table_name new_name (make_nullable column_schema))
         table_name canonical old_name)
      table_name canonical
  /\ existing_columns_raw_names st' = existing_columns_raw_names st
  /\ old_name <> new_name
  /\ dict_lookup (existing_columns st') old_name = Some (make_nullable existing)
  /\ dict_lookup (existing_columns st') new_name = Some (make_nullable column_schema)
  /\ dict_mem (existing_columns st') canonical = false
  /\ forall other, other <> canonical -> other <> old_name -> other <> new_name ->
       dict_lookup (existing_columns st') other = dict_lookup (existing_columns st) other.

End FirstTypeSplit.

#[local] Existing Instance Remote.in_memory.

(** The reference functions keep the invariant of section 4.1. *)
Lemma reference_shorthand_family (a b : JsonSchema.schema) :
  JsonSchema.sql_shorthand a = JsonSchema.sql_shorthand b ->
  JsonSchema.to_sql (JsonSchema.make_nullable a)
  = JsonSchema.to_sql (JsonSchema.make_nullable b).
Proof.
  assert (Hnull : forall s, JsonSchema.is_nullable (JsonSchema.make_nullable s) = true).
  { intro s. unfold JsonSchema.make_nullable.
    destruct (JsonSchema.is_nullable s) eqn:E; [exact E | reflexivity]. }
  assert (Hfam : forall s, JsonSchema.family (JsonSchema.make_nullable s)
                           = JsonSchema.family s).
  { intro s. unfold JsonSchema.make_nullable.
    destruct (JsonSchema.is_nullable s); reflexivity. }
  unfold JsonSchema.to_sql. rewrite !Hnull, !Hfam.
  unfold JsonSchema.sql_shorthand.
  repeat match goal with
         | |- context [String.eqb ?x ?y] => destruct (String.eqb_spec x y)
         end; intro H; try discriminate H; try reflexivity; congruence.
Qed.

(** After [age: integer], a local schema with [age: string]: the whole call,
    on the reference remote. *)
Lemma age_integer_then_string :
  Remote.upsert_table_helper UpsertExamples.users_age_integer
    (Remote.local_schema "users" [("age", Remote.string_)])
  = inr (UpsertExamples.users_age_split,
         Some {| name := "users";
                 mappings :=
                   Some [("age__i", {| from := "age";
                                       mapped_type := UpsertExamples.nullable_integer |});
                         ("age__s", {| from := "age";
                                       mapped_type := UpsertExamples.nullable_string |})];
                 properties := [("age__i", UpsertExamples.nullable_integer);
                                ("age__s", UpsertExamples.nullable_string)] |}).
Proof. vm_compute. reflexivity. Qed.

(** C2 (amended).  For a local column whose canonical name is a remote
    column of another SQL type family, when none of the exact, nullable-exact
    and null-compatibility cases applies and the column is not a name
    collision, the step of [upsert_table_helper] for that column performs the
    first type split: the mapping of the canonical name is dropped when the
    raw name is recorded as mapped at the existing type; the typed names of
    the old and the new shorthand are registered as mappings of the raw name
    and added as nullable columns; the data of the canonical column is
    migrated into the old one; the canonical column is dropped and is no
    column any more when the step ends.  In particular, after [age: integer]
    then [age: string] the remote has the nullable columns [age__i] and
    [age__s], no column [age], and both mapped from [age]. *)
Theorem first_type_split :
  (forall (schema : Type) (to_sql sql_shorthand : schema -> string)
          (make_nullable : schema -> schema) (connection : Type)
          (self : SQLInterface schema connection)
          (existing_schema : TABLE_SCHEMA schema) (table_name : string)
          (table_empty : bool) (st : @upsert_state schema connection)
          (raw_column_name : string) (column_schema existing : schema),
      (forall a b, sql_shorthand a = sql_shorthand b ->
                   to_sql (make_nullable a) = to_sql (make_nullable b)) ->
      is_first_type_split to_sql sql_shorthand make_nullable st raw_column_name
        column_schema existing ->
      exists st',
        upsert_column to_sql sql_shorthand make_nullable existing_schema table_name
          table_empty st raw_column_name column_schema = inr st'
        /\ first_type_split_done sql_shorthand make_nullable existing_schema table_name
             st st' raw_column_name column_schema existing)
  /\ Remote.upsert_table_helper UpsertExamples.users_age_integer
       (Remote.local_schema "users" [("age", Remote.string_)])
     = inr (UpsertExamples.users_age_split,
            Some {| name := "users";
                    mappings :=
                      Some [("age__i", {| from := "age";
                                          mapped_type := UpsertExamples.nullable_integer |});
                            ("age__s", {| from := "age";
                                          mapped_type := UpsertExamples.nullable_string |})];
                    properties := [("age__i", UpsertExamples.nullable_integer);
                                   ("age__s", UpsertExamples.nullable_string)] |}).
Proof.
  split; [|exact age_integer_then_string].
  intros schema to_sql sql_shorthand make_nullable connection self existing_schema
    table_name table_empty st raw column_schema existing Hfamily
    (Hnd & Hexisting & Hname & Hsql & Hnull & Hcompat & Htyped & Htyped').
  exact (@first_type_split_step schema to_sql sql_shorthand make_nullable connection self
           Hfamily existing_schema table_name table_empty st raw column_schema existing
           Hnd Hexisting Hname Hsql Hnull Hcompat Htyped Htyped').
Qed.

(** C2: the claim as stated fails for the local column [AGE: string] when
    the remote has the column [age: integer] and no mapping: the canonical
    name [age] is a remote column of another type family and no exact,
    nullable-exact or null-compatibility case applies, yet the call raises
    NAME COLLISION and alters nothing. *)
Lemma name_collision_comes_first :
  Remote.lowercase "AGE" = "age"
  /\ dict_lookup (Remote.columns
                    {| Remote.columns := [("age", Remote.integer)];
                       Remote.column_mappings := [];
                       Remote.rows := [[("age", VInt 41)]] |}) "age"
     = Some Remote.integer
  /\ JsonSchema.to_sql Remote.string_ = "text NOT NULL"
  /\ JsonSchema.to_sql (JsonSchema.make_nullable Remote.string_) = "text"
  /\ JsonSchema.to_sql Remote.integer = "bigint NOT NULL"
  /\ JsonSchema.to_sql (JsonSchema.make_nullable Remote.integer) = "bigint"
  /\ Remote.upsert_table_helper UpsertExamples.users_age_integer
       (Remote.local_schema "users" [("AGE", Remote.string_)])
     = inl (PyException "NAME COLLISION: Cannot handle merging column").
Proof. vm_compute. repeat split. Qed.

(** The mapping of the canonical name stays when it was recorded for another
    raw name: here [age], mapped from [AGE], is still a mapping after the
    split of the local column [age]. *)
Lemma mapping_of_other_raw_name_stays :
  match Remote.upsert_table_helper UpsertExamples.users_age_from_AGE
          (Remote.local_schema "users" [("age", Remote.string_)]) with
  | inr (_, Some remote_schema) =>
      match mappings remote_schema with
      | Some ms => option_map (@from _) (dict_lookup ms "age")
      | None => None
      end
  | _ => None
  end = Some "AGE".
Proof. vm_compute. reflexivity. Qed.

(** A later column of the same call can bring the canonical name back: with
    [age: string] and then [Age: boolean], [age] is a column again when the
    call returns. *)
Lemma later_column_restores_name :
  match Remote.upsert_table_helper UpsertExamples.users_age_integer
          (Remote.local_schema "users"
             [("age", Remote.string_); ("Age", Remote.boolean)]) with
  | inr (_, Some remote_schema) => map fst (properties remote_schema)
  | _ => []
  end = ["age__i"; "age__s"; "age"].
Proof. vm_compute. reflexivity. Qed.

(** [first_type_split] at the column [age: string] against the remote column
    [age: integer]. *)
Lemma first_type_split_witness :
  is_first_type_split JsonSchema.to_sql JsonSchema.sql_shorthand JsonSchema.make_nullable
    {| remote := UpsertExamples.users_age_integer;
       existing_columns := [("age", Remote.integer)];
       existing_columns_raw_names := [] |}
    "age" Remote.string_ Remote.integer
  /\ exists st',
       upsert_column JsonSchema.to_sql JsonSchema.sql_shorthand JsonSchema.make_nullable
         {| name := "users"; mappings := Some []; properties := [("age", Remote.integer)] |}
         "users" false
         {| remote := UpsertExamples.users_age_integer;
            existing_columns := [("age", Remote.integer)];
            existing_columns_raw_names := [] |}
         "age" Remote.string_ = inr st'
       /\ dict_mem (existing_columns st') "age" = false.
Proof.
  assert (Hsplit : is_first_type_split JsonSchema.to_sql JsonSchema.sql_shorthand
                     JsonSchema.make_nullable
                     {| remote := UpsertExamples.users_age_integer;
                        existing_columns := [("age", Remote.integer)];
                        existing_columns_raw_names := [] |}
                     "age" Remote.string_ Remote.integer).
  { split; [repeat constructor; intros []|].
    split; [reflexivity|]. split; [left; reflexivity|].
    repeat split; try reflexivity; discriminate. }
  split; [exact Hsplit|].
  destruct (proj1 first_type_split JsonSchema.schema JsonSchema.to_sql
              JsonSchema.sql_shorthand JsonSchema.make_nullable Remote.remote
              Remote.in_memory
              {| name := "users"; mappings := Some [];
                 properties := [("age", Remote.integer)] |}
              "users" false
              {| remote := UpsertExamples.users_age_integer;
                 existing_columns := [("age", Remote.integer)];
                 existing_columns_raw_names := [] |}
              "age" Remote.string_ Remote.integer
              reference_shorthand_family Hsplit)
    as (st' & Hstep & _ & _ & _ & _ & _ & Hgone & _).
  exists st'. split; [exact Hstep | exact Hgone].
Defined.

End UpsertFacts.

(** ** Invariants of the stream buffer *)
Module BufferInvariants.
Import SingerStream.

(** [a] is no later a version than [b]; no version is before any. *)
Definition version_le (a b : option Z) : Prop :=
  match a, b with
  | None, _ => True
  | Some x, Some y => x <= y
  | Some _, None => False
  end.

Lemma version_le_refl (a : option Z) : version_le a a.
Proof. destruct a; simpl; [lia | exact I]. Qed.

Lemma version_le_trans (a b c : option Z) :
  version_le a b -> version_le b c -> version_le a c.
Proof. destruct a, b, c; simpl; try tauto; lia. Qed.

Section Invariants.
Variable get_size : record_message -> Z.

(** The counters say what the buffer holds. *)
Definition counted (sb : BufferedSingerStream) : Prop :=
  count sb = Z.of_nat (List.length (buffer sb))
  /\ size sb = fold_right Z.add 0 (map get_size (buffer sb)).

(** The buffered lines are of the version on record. *)
Definition one_version (sb : BufferedSingerStream) : Prop :=
  Forall (fun m => version m = lifetime_max_version sb) (buffer sb).

(** The buffered lines passed the validator. *)
Definition all_valid (sb : BufferedSingerStream) : Prop :=
  Forall (fun m => validator sb (record m) = None) (buffer sb).

Lemma sum_snoc (l : list Z) (x : Z) :
  fold_right Z.add 0 (l ++ [x]) = fold_right Z.add 0 l + x.
Proof. induction l as [|y l IH]; simpl; [lia | rewrite IH; lia]. Qed.

(** What [__update_version] leaves: the same object, or the flushed one with
    a newer version. *)
Lemma update_version_cases (sb : BufferedSingerStream) (v : option Z) :
  fst (__update_version sb v) = sb
  \/ exists x, v = Some x
               /\ fst (__update_version sb v)
                  = with_lifetime_max_version (flush_buffer sb) (Some x)
               /\ version_le (lifetime_max_version sb) (Some x).
Proof.
  unfold __update_version. destruct v as [x|]; [|now left].
  destruct (lifetime_max_version sb) as [m|] eqn:E.
  - destruct (Z.geb_spec m x); [now left|].
    right. exists x. repeat split. simpl. lia.
  - right. exists x. repeat split.
Qed.

(** What [validate_and_buffer] leaves: the line appended and counted, or the
    line among the invalid records. *)
Lemma validate_and_buffer_cases (sb : BufferedSingerStream) (m : record_message)
    (logs : list log_entry) :
  (validator sb (record m) = None
   /\ after (validate_and_buffer get_size sb m logs)
      = with_buffer sb (buffer sb ++ [m]) (count sb + 1) (size sb + get_size m))
  \/ (exists err, validator sb (record m) = Some err
      /\ after (validate_and_buffer get_size sb m logs)
         = with_invalid_records sb (invalid_records sb ++ [(err, m)])).
Proof.
  unfold validate_and_buffer, _debug_report_on_buffer_sizes.
  destruct (validator sb (record m)) as [err|].
  - right. exists err. split; [reflexivity|].
    destruct (_ && _); [reflexivity|].
    destruct (_ =? 0); reflexivity.
  - left. split; [reflexivity|]. destruct (_ =? 0); reflexivity.
Qed.

(** One call of [add_record_message]: the object after the version check,
    then either nothing more (the line was dropped), or the line buffered, or
    the line recorded as invalid. *)
Lemma add_record_message_cases (sb : BufferedSingerStream) (m : record_message) :
  let sb1 := fst (__update_version sb (version m)) in
  after (add_record_message get_size sb m) = sb1
  \/ (lifetime_max_version sb1 = version m
      /\ validator sb1 (record m) = None
      /\ after (add_record_message get_size sb m)
         = with_buffer sb1 (buffer sb1 ++ [m]) (count sb1 + 1) (size sb1 + get_size m))
  \/ (exists err,
        after (add_record_message get_size sb m)
        = with_invalid_records sb1 (invalid_records sb1 ++ [(err, m)])).
Proof.
  intro sb1. unfold add_record_message. subst sb1.
  destruct (__update_version sb (version m)) as [sb1 logs]. cbn [fst].
  destruct (version_eqb (lifetime_max_version sb1) (version m)) eqn:E; cbn [negb].
  - apply SingerStreamFacts.version_eqb_eq in E.
    destruct (validate_and_buffer_cases sb1 m logs) as [[Hv H]|[err [Hv H]]].
    + right. left. repeat split; assumption.
    + right. right. exists err. exact H.
  - now left.
Qed.

Lemma add_record_message_counted (sb : BufferedSingerStream) (m : record_message) :
  counted sb -> counted (after (add_record_message get_size sb m)).
Proof.
  intro Hc.
  assert (H1 : counted (fst (__update_version sb (version m)))).
  { destruct (update_version_cases sb (version m)) as [->|(x & _ & -> & _)];
      [exact Hc | split; reflexivity]. }
  destruct (add_record_message_cases sb m) as [->|[(_ & _ & ->)|(err & ->)]];
    try exact H1.
  destruct H1 as [Hc1 Hs1]. unfold counted. cbn [with_buffer buffer count size].
  rewrite length_app, map_app. cbn [map]. rewrite sum_snoc, Hc1, Hs1.
  cbn [List.length]. split; lia.
Qed.

Lemma add_record_message_one_version (sb : BufferedSingerStream) (m : record_message) :
  one_version sb -> one_version (after (add_record_message get_size sb m)).
Proof.
  intro Hv.
  assert (H1 : one_version (fst (__update_version sb (version m)))).
  { destruct (update_version_cases sb (version m)) as [->|(x & _ & -> & _)];
      [exact Hv | constructor]. }
  destruct (add_record_message_cases sb m) as [->|[(Hver & _ & ->)|(err & ->)]];
    try exact H1.
  unfold one_version. cbn [with_buffer buffer lifetime_max_version].
  apply Forall_app. split; [exact H1|]. repeat constructor. now symmetry.
Qed.

Lemma add_record_message_all_valid (sb : BufferedSingerStream) (m : record_message) :
  all_valid sb -> all_valid (after (add_record_message get_size sb m)).
Proof.
  intro Ha.
  assert (H1 : all_valid (fst (__update_version sb (version m)))).
  { destruct (update_version_cases sb (version m)) as [->|(x & _ & -> & _)];
      [exact Ha | constructor]. }
  destruct (add_record_message_cases sb m) as [->|[(_ & Hval & ->)|(err & ->)]];
    try exact H1.
  unfold all_valid. cbn [with_buffer buffer validator].
  apply Forall_app. split; [exact H1|]. repeat constructor. exact Hval.
Qed.

Lemma add_record_message_version (sb : BufferedSingerStream) (m : record_message) :
  version_le (lifetime_max_version sb)
             (lifetime_max_version (after (add_record_message get_size sb m))).
Proof.
  assert (H1 : version_le (lifetime_max_version sb)
                 (lifetime_max_version (fst (__update_version sb (version m))))).
  { destruct (update_version_cases sb (version m)) as [->|(x & _ & -> & Hle)];
      [apply version_le_refl | exact Hle]. }
  destruct (add_record_message_cases sb m) as [->|[(_ & _ & ->)|(err & ->)]];
    exact H1.
Qed.

Lemma add_record_message_settings (sb : BufferedSingerStream) (m : record_message) :
  invalid_records_detect (after (add_record_message get_size sb m))
  = invalid_records_detect sb
  /\ validator (after (add_record_message get_size sb m)) = validator sb.
Proof.
  assert (H1 : invalid_records_detect (fst (__update_version sb (version m)))
               = invalid_records_detect sb
               /\ validator (fst (__update_version sb (version m))) = validator sb).
  { destruct (update_version_cases sb (version m)) as [->|(x & _ & -> & _)];
      split; reflexivity. }
  destruct (add_record_message_cases sb m) as [->|[(_ & _ & ->)|(err & ->)]];
    exact H1.
Qed.

(** X1.  Along any run of lines, [count] is the number of buffered lines and
    [size] the sum of their sizes. *)
Theorem feed_keeps_counters (lines : list record_message) (sb : BufferedSingerStream) :
  counted sb ->
  count (after (feed get_size sb lines))
  = Z.of_nat (List.length (buffer (after (feed get_size sb lines))))
  /\ size (after (feed get_size sb lines))
     = fold_right Z.add 0 (map get_size (buffer (after (feed get_size sb lines)))).
Proof.
  revert sb. induction lines as [|l rest IH]; intros sb Hc; cbn [feed].
  - exact Hc.
  - pose proof (add_record_message_counted l Hc) as Hc'.
    destruct (raised (add_record_message get_size sb l)); [exact Hc'|].
    cbn [after]. now apply IH.
Qed.

(** X2.  Along any run of lines, every buffered line is of the version on
    record: the buffer never mixes table versions. *)
Theorem feed_keeps_one_version (lines : list record_message) (sb : BufferedSingerStream) :
  one_version sb ->
  Forall (fun m => version m = lifetime_max_version (after (feed get_size sb lines)))
         (buffer (after (feed get_size sb lines))).
Proof.
  revert sb. induction lines as [|l rest IH]; intros sb Hv; cbn [feed].
  - exact Hv.
  - pose proof (add_record_message_one_version l Hv) as Hv'.
    destruct (raised (add_record_message get_size sb l)); [exact Hv'|].
    cbn [after]. now apply IH.
Qed.

(** X3.  Along any run of lines, every buffered line has passed the
    validator: an invalid record is never buffered. *)
Theorem feed_keeps_valid (lines : list record_message) (sb : BufferedSingerStream) :
  all_valid sb ->
  Forall (fun m => validator sb (record m) = None)
         (buffer (after (feed get_size sb lines))).
Proof.
  revert sb. induction lines as [|l rest IH]; intros sb Ha; cbn [feed].
  - exact Ha.
  - pose proof (add_record_message_all_valid l Ha) as Ha'.
    destruct (add_record_message_settings sb l) as [_ Hval].
    destruct (raised (add_record_message get_size sb l)).
    + unfold all_valid in Ha'. now rewrite Hval in Ha'.
    + cbn [after]. specialize (IH _ Ha'). now rewrite Hval in IH.
Qed.

(** X4.  The version on record never goes back: after any run of lines it is
    the version it was, or a later one. *)
Theorem feed_version_monotone (lines : list record_message) (sb : BufferedSingerStream) :
  version_le (lifetime_max_version sb)
             (lifetime_max_version (after (feed get_size sb lines))).
Proof.
  revert sb. induction lines as [|l rest IH]; intro sb; cbn [feed].
  - apply version_le_refl.
  - pose proof (add_record_message_version sb l) as H.
    destruct (raised (add_record_message get_size sb l)); [exact H|].
    cbn [after]. eapply version_le_trans; [exact H | apply IH].
Qed.

Lemma add_record_message_raises_detect (sb : BufferedSingerStream) (m : record_message)
    (t : Z) (p : list (ValidationError * record_message)) :
  raised (add_record_message get_size sb m) = Some (SingerStreamError t p) ->
  invalid_records_detect sb = true.
Proof.
  assert (H1 : invalid_records_detect (fst (__update_version sb (version m)))
               = invalid_records_detect sb).
  { destruct (update_version_cases sb (version m)) as [->|(x & _ & -> & _)];
      reflexivity. }
  unfold add_record_message.
  destruct (__update_version sb (version m)) as [sb1 logs]. cbn [fst] in H1.
  destruct (negb _); cbn [raised]; [discriminate|].
  unfold validate_and_buffer, _debug_report_on_buffer_sizes.
  destruct (validator sb1 (record m)).
  - cbn [invalid_records_detect with_invalid_records]. rewrite H1.
    destruct (invalid_records_detect sb); [reflexivity|].
    cbn [andb]. destruct (_ =? 0); discriminate.
  - destruct (_ =? 0); discriminate.
Qed.

(** X5.  With [invalid_records_detect] off, no run of lines raises
    [SingerStreamError], whatever the threshold and however many records are
    invalid. *)
Theorem detection_off_never_raises (lines : list record_message)
    (sb : BufferedSingerStream) (t : Z) (p : list (ValidationError * record_message)) :
  invalid_records_detect sb = false ->
  raised (feed get_size sb lines) <> Some (SingerStreamError t p).
Proof.
  revert sb. induction lines as [|l rest IH]; intros sb Hoff; cbn [feed].
  - discriminate.
  - destruct (raised (add_record_message get_size sb l)) as [e|] eqn:E.
    + rewrite E. intro H. rewrite H in E.
      apply add_record_message_raises_detect in E. congruence.
    + cbn [raised]. apply IH.
      destruct (add_record_message_settings sb l) as [Hd _]. congruence.
Qed.

End Invariants.

(** Three lines for the buffer [users]: a valid one of version 5, one whose
    [id] is a string, and a valid one of version 7. *)
Definition three_lines : list record_message :=
  [StreamExamples.line (VInt 1) (Some 5);
   StreamExamples.line (VStr "x") (Some 5);
   StreamExamples.line (VInt 2) (Some 7)].

(** [BufferedSingerStream('users', schema, ['id'], invalid_records_detect=False,
    invalid_records_threshold=0)] *)
Definition users_undetected : BufferedSingerStream :=
  init "users" ["id"] StreamExamples.id_is_integer (Some false) (Some 0)
       DEFAULT__MAX_ROWS DEFAULT__MAX_BUFFER_SIZE.

(** [feed_keeps_counters] at the fresh buffer [users] fed [three_lines]. *)
Lemma feed_keeps_counters_witness :
  counted (fun _ => 64) StreamExamples.users
  /\ count (after (feed (fun _ => 64) StreamExamples.users three_lines)) = 1
  /\ size (after (feed (fun _ => 64) StreamExamples.users three_lines)) = 64.
Proof.
  assert (H : counted (fun _ => 64) StreamExamples.users) by (split; reflexivity).
  destruct (@feed_keeps_counters (fun _ => 64) three_lines StreamExamples.users H)
    as [Hc Hs].
  exact (conj H (conj Hc Hs)).
Defined.

(** [feed_keeps_one_version] at the fresh buffer [users] fed [three_lines]. *)
Lemma feed_keeps_one_version_witness :
  one_version StreamExamples.users
  /\ Forall (fun m => version m = Some 7)
        (buffer (after (feed (fun _ => 64) StreamExamples.users three_lines))).
Proof.
  assert (H : one_version StreamExamples.users) by constructor.
  exact (conj H (@feed_keeps_one_version (fun _ => 64) three_lines
                   StreamExamples.users H)).
Defined.

(** [feed_keeps_valid] at the fresh buffer [users] fed [three_lines]. *)
Lemma feed_keeps_valid_witness :
  all_valid StreamExamples.users
  /\ Forall (fun m => StreamExamples.id_is_integer (record m) = None)
        (buffer (after (feed (fun _ => 64) StreamExamples.users three_lines))).
Proof.
  assert (H : all_valid StreamExamples.users) by constructor.
  exact (conj H (@feed_keeps_valid (fun _ => 64) three_lines
                   StreamExamples.users H)).
Defined.

(** [detection_off_never_raises] at [users_undetected], whose threshold is 0,
    fed [three_lines]. *)
Lemma detection_off_never_raises_witness :
  invalid_records_detect users_undetected = false
  /\ raised (feed (fun _ => 64) users_undetected three_lines)
     <> Some (SingerStreamError 0 []).
Proof.
  assert (H : invalid_records_detect users_undetected = false) by reflexivity.
  exact (conj H (@detection_off_never_raises (fun _ => 64) three_lines
                   users_undetected 0 [] H)).
Defined.

End BufferInvariants.

(** ** What the record denester leaves in the map *)
Module DenesterFacts.
Import SingerStream Postgres DictFacts SubtableFacts.

(** The calls only add rows: what a table held before a call is what it
    holds first after it. *)
Definition appends (f : string -> list value -> records_map -> list string ->
                        option dict -> Z -> denested (list value)) : Prop :=
  forall table_name records rm key_properties pk_fks level t,
    exists rows,
      rm_rows (map_after (f table_name records rm key_properties pk_fks level)) t
      = (rm_rows rm t ++ rows)%list.

(** A top-level record the denester takes as it is: an object of scalars
    that holds every key property. *)
Definition flat (key_properties : list string) (record : value) : bool :=
  match record with
  | VDict items => all_scalar items && forallb (dict_mem items) key_properties
  | _ => false
  end.

Lemma set_fresh (d : dict) (k : string) (v : value) :
  dict_lookup d k = None -> dict_set d k v = (d ++ [(k, v)])%list.
Proof.
  induction d as [|[k' v'] d IH]; cbn [dict_lookup dict_set app]; [reflexivity|].
  destruct (String.eqb k k'); [discriminate|]. intro H. now rewrite IH.
Qed.

Lemma rm_rows_append (rm : records_map) (table_name t : string) (r : dict) :
  exists rows, rm_rows (rm_append rm table_name r) t = (rm_rows rm t ++ rows)%list.
Proof.
  unfold rm_rows. destruct (String.eqb_spec t table_name) as [->|Hne].
  - rewrite rm_append_same. now exists [r].
  - rewrite rm_append_other by exact Hne. exists []. now rewrite app_nil_r.
Qed.

Lemma appends_trans (a b c : records_map) (t : string) :
  (exists rows, rm_rows b t = (rm_rows a t ++ rows)%list) ->
  (exists rows, rm_rows c t = (rm_rows b t ++ rows)%list) ->
  exists rows, rm_rows c t = (rm_rows a t ++ rows)%list.
Proof.
  intros [r1 H1] [r2 H2]. exists (r1 ++ r2)%list. now rewrite H2, H1, app_assoc.
Qed.

Lemma appends_refl (a : records_map) (t : string) :
  exists rows, rm_rows a t = (rm_rows a t ++ rows)%list.
Proof. exists []. now rewrite app_nil_r. Qed.

Section Appends.

Variable self_denest_records :
  string -> list value -> records_map -> list string -> option dict -> Z ->
  denested (list value).
Hypothesis self_appends : appends self_denest_records.

Lemma subrecord_appends (table_name current_path : string) (sub : dict) (t : string) :
  forall (parent_record : dict) (rm : records_map) (key_properties : list string)
         (pk_fks : dict) (level : Z),
    exists rows,
      rm_rows (walked_map (denest_subrecord self_denest_records table_name current_path
                             parent_record sub rm key_properties pk_fks level)) t
      = (rm_rows rm t ++ rows)%list.
Proof.
  induction sub as [|[prop v] rest IH]; intros parent rm kp fks lvl;
    cbn [denest_subrecord walked_map].
  - apply appends_refl.
  - destruct v; cbn [cons_item walked_map]; try apply IH.
    + pose proof (self_appends
                    (table_name ++ NESTED_SEPARATOR ++ current_path ++ NESTED_SEPARATOR ++ prop)
                    items rm kp (Some fks) (lvl + 1) t) as H1.
      destruct (error (self_denest_records _ _ _ _ _ _));
        cbn [cons_item walked_map]; [exact H1|].
      eapply appends_trans; [exact H1 | apply IH].
    + apply appends_refl.
Qed.

Lemma record_items_appends (table_name : string) (current_path : option string)
    (items : dict) (t : string) :
  forall (denested_record : dict) (rm : records_map) (key_properties : list string)
         (pk_fks : dict) (level : Z),
    exists rows,
      rm_rows (walked_map (denest_record_items self_denest_records table_name current_path
                             items denested_record rm key_properties pk_fks level)) t
      = (rm_rows rm t ++ rows)%list.
Proof.
  induction items as [|[prop v] rest IH]; intros dr rm kp fks lvl;
    cbn [denest_record_items walked_map].
  - apply appends_refl.
  - destruct v; cbn [cons_item walked_map]; try apply IH.
    + match goal with
      | |- context [self_denest_records ?tn items rm kp (Some fks) (lvl + 1)] =>
          pose proof (self_appends tn items rm kp (Some fks) (lvl + 1) t) as H1
      end.
      destruct (error (self_denest_records _ _ _ _ _ _));
        cbn [cons_item walked_map]; [exact H1|].
      eapply appends_trans; [exact H1 | apply IH].
    + match goal with
      | |- context [denest_subrecord _ table_name ?p dr items rm kp fks lvl] =>
          pose proof (@subrecord_appends table_name p items t dr rm kp fks lvl) as H1
      end.
      destruct (walked_error (denest_subrecord _ _ _ _ _ _ _ _ _));
        cbn [cons_item walked_map]; [exact H1|].
      eapply appends_trans; [exact H1 | apply IH].
Qed.

Lemma record_appends (table_name : string) (current_path : option string)
    (record : value) (rm : records_map) (key_properties : list string)
    (pk_fks : dict) (level : Z) (t : string) :
  exists rows,
    rm_rows (map_after (denest_record self_denest_records table_name current_path
                          record rm key_properties pk_fks level)) t
    = (rm_rows rm t ++ rows)%list.
Proof.
  unfold denest_record. destruct record; cbn [map_after]; try apply appends_refl.
  pose proof (@record_items_appends table_name current_path items t [] rm
                key_properties pk_fks level) as H1.
  destruct (walked_error (denest_record_items _ _ _ _ _ _ _ _ _)); cbn [map_after];
    [exact H1|].
  eapply appends_trans; [exact H1 | apply rm_rows_append].
Qed.

Lemma loop_appends (table_name : string) (records : list value) (t : string) :
  forall (rm : records_map) (key_properties : list string) (pk_fks : option dict)
         (level row_index : Z),
    exists rows,
      rm_rows (map_after (denest_records_loop self_denest_records table_name records rm
                            key_properties pk_fks level row_index)) t
      = (rm_rows rm t ++ rows)%list.
Proof.
  induction records as [|r rest IH]; intros rm kp fks lvl idx;
    cbn [denest_records_loop map_after].
  - apply appends_refl.
  - assert (Hcont : forall record_pk_fks record' idx',
      exists rows,
        rm_rows (map_after
          (match error (denest_record self_denest_records table_name None record' rm
                          kp record_pk_fks lvl) with
           | Some e =>
               {| objects := objects (denest_record self_denest_records table_name None
                                        record' rm kp record_pk_fks lvl) :: rest;
                  map_after := map_after (denest_record self_denest_records table_name None
                                            record' rm kp record_pk_fks lvl);
                  error := Some e |}
           | None =>
               {| objects := objects (denest_record self_denest_records table_name None
                                        record' rm kp record_pk_fks lvl)
                             :: objects (denest_records_loop self_denest_records table_name
                                           rest (map_after (denest_record self_denest_records
                                                              table_name None record' rm kp
                                                              record_pk_fks lvl))
                                           kp fks lvl idx');
                  map_after := map_after (denest_records_loop self_denest_records table_name
                                            rest (map_after (denest_record self_denest_records
                                                               table_name None record' rm kp
                                                               record_pk_fks lvl))
                                            kp fks lvl idx');
                  error := error (denest_records_loop self_denest_records table_name
                                    rest (map_after (denest_record self_denest_records
                                                       table_name None record' rm kp
                                                       record_pk_fks lvl))
                                    kp fks lvl idx') |}
           end)) t
        = (rm_rows rm t ++ rows)%list).
    { intros record_pk_fks record' idx'.
      pose proof (@record_appends table_name None record' rm kp record_pk_fks lvl t) as H1.
      destruct (error (denest_record _ _ _ _ _ _ _ _)); cbn [map_after]; [exact H1|].
      eapply appends_trans; [exact H1 | apply IH]. }
    destruct (truthy fks) as [d|].
    + destruct r; cbn [map_after]; try apply appends_refl. apply Hcont.
    + destruct r; cbn [map_after]; try apply appends_refl.
      destruct (top_level_pk_fks items kp); cbn [map_after];
        [apply appends_refl | apply Hcont].
Qed.

End Appends.

Lemma denest_records_appends (fuel : nat) : appends (denest_records fuel).
Proof.
  induction fuel as [|fuel IH]; intros table_name records rm kp fks lvl t;
    cbn [denest_records].
  - apply appends_refl.
  - now apply loop_appends.
Qed.

(** X6.  A call for a table changes no table whose name does not extend
    that table's name, whether it returns or raises. *)
Theorem denester_leaves_other_tables (fuel : nat) (table_name : string)
    (records : list value) (rm : records_map) (key_properties : list string)
    (pk_fks : option dict) (level : Z) (t : string) :
  (forall s, t <> (table_name ++ s)%string) ->
  rm_lookup (map_after (denest_records fuel table_name records rm key_properties
                          pk_fks level)) t
  = rm_lookup rm t.
Proof. apply denest_records_frames. Qed.

(** X7.  A call only adds rows: the rows a table held when the call was made
    are, in order, the first rows it holds after it, whether the call returns
    or raises. *)
Theorem denester_only_appends (fuel : nat) (table_name : string)
    (records : list value) (rm : records_map) (key_properties : list string)
    (pk_fks : option dict) (level : Z) (t : string) :
  exists rows,
    rm_rows (map_after (denest_records fuel table_name records rm key_properties
                          pk_fks level)) t
    = (rm_rows rm t ++ rows)%list.
Proof. apply denest_records_appends. Qed.

Section Flat.

Variable self_denest_records :
  string -> list value -> records_map -> list string -> option dict -> Z ->
  denested (list value).

Lemma record_items_flat (table_name : string) (items : dict) :
  forall (denested_record : dict) (rm : records_map) (key_properties : list string)
         (pk_fks : dict) (level : Z),
    all_scalar items = true ->
    NoDup (keys denested_record ++ keys items) ->
    denest_record_items self_denest_records table_name None items denested_record rm
      key_properties pk_fks level
    = {| row := (denested_record ++ DenestFacts.without_nulls items)%list;
         items_after := items; walked_map := rm; walked_error := None |}.
Proof.
  induction items as [|[prop v] rest IH]; intros dr rm kp fks lvl Hs Hnd;
    cbn [denest_record_items DenestFacts.without_nulls filter].
  - now rewrite app_nil_r.
  - cbn [all_scalar forallb snd] in Hs. apply andb_true_iff in Hs as [Hv Hs].
    assert (Hfresh : dict_lookup dr prop = None).
    { apply lookup_none_not_in. intro Hin.
      cbn [keys map fst] in Hnd. apply NoDup_remove_2 in Hnd.
      apply Hnd, in_or_app. now left. }
    assert (Hnd' : forall v', NoDup (keys (dr ++ [(prop, v')]) ++ keys rest)).
    { intro v'. unfold keys. rewrite map_app, <- app_assoc. exact Hnd. }
    assert (Hnd0 : NoDup (keys dr ++ keys rest)).
    { cbn [keys map fst] in Hnd. now apply NoDup_remove_1 in Hnd. }
    destruct v; try discriminate Hv; cbn [snd is_None negb];
      fold (DenestFacts.without_nulls rest).
    + rewrite IH by assumption. reflexivity.
    + rewrite set_fresh by exact Hfresh. rewrite IH by (try assumption; apply Hnd').
      unfold cons_item; cbn [row items_after walked_map walked_error].
      now rewrite <- app_assoc.
    + rewrite set_fresh by exact Hfresh. rewrite IH by (try assumption; apply Hnd').
      unfold cons_item; cbn [row items_after walked_map walked_error].
      now rewrite <- app_assoc.
    + rewrite set_fresh by exact Hfresh. rewrite IH by (try assumption; apply Hnd').
      unfold cons_item; cbn [row items_after walked_map walked_error].
      now rewrite <- app_assoc.
Qed.

Lemma source_keys_present (items : dict) (key_properties : list string) :
  forall acc,
    forallb (dict_mem items) key_properties = true ->
    exists fks, source_keys items key_properties acc = inr fks.
Proof.
  induction key_properties as [|k rest IH]; intros acc H; cbn [source_keys].
  - now exists acc.
  - cbn [forallb] in H. apply andb_true_iff in H as [Hk H].
    unfold dict_mem in Hk. destruct (dict_lookup items k); [|discriminate].
    now apply IH.
Qed.

Lemma source_keys_missing (items : dict) (key_properties : list string) :
  forall acc,
    forallb (dict_mem items) key_properties = false ->
    exists k, In k key_properties /\ dict_lookup items k = None
              /\ source_keys items key_properties acc = inl (KeyError k).
Proof.
  induction key_properties as [|k rest IH]; intros acc H; cbn [source_keys].
  - discriminate.
  - cbn [forallb] in H. unfold dict_mem at 1 in H.
    destruct (dict_lookup items k) eqn:E.
    + destruct (IH (dict_set acc (SINGER_SOURCE_PK_PREFIX ++ k) v) H) as (k' & Hin & Hk & Hs).
      exists k'. repeat split; [now right | assumption | assumption].
    + exists k. repeat split; [now left | assumption].
Qed.

Lemma loop_flat (table_name : string) (key_properties : list string)
    (records : list value) :
  forall (rm : records_map) (level row_index : Z),
    forallb (flat key_properties) records = true ->
    Forall (fun r => NoDup (keys (record_items r))) records ->
    denest_records_loop self_denest_records table_name records rm key_properties
      None level row_index
    = {| objects := records;
         map_after := fold_left (fun m r => rm_append m table_name
                                              (DenestFacts.without_nulls (record_items r)))
                                records rm;
         error := None |}.
Proof.
  induction records as [|r rest IH]; intros rm lvl idx Hflat Hnd;
    cbn [denest_records_loop truthy fold_left].
  - reflexivity.
  - cbn [forallb] in Hflat. apply andb_true_iff in Hflat as [Hr Hflat].
    inversion Hnd as [|? ? Hr_nd Hnd']; subst.
    destruct r; try discriminate Hr. cbn [flat] in Hr.
    apply andb_true_iff in Hr as [Hs Hk]. cbn [record_items] in *.
    destruct (source_keys_present items key_properties [] Hk) as [fks0 Hfks].
    assert (Htop : exists fks, top_level_pk_fks items key_properties = inr fks).
    { unfold top_level_pk_fks. rewrite Hfks.
      destruct (dict_lookup items SINGER_SEQUENCE); eauto. }
    destruct Htop as [fks ->].
    unfold denest_record.
    rewrite record_items_flat by assumption.
    cbn [walked_error error objects map_after items_after walked_map row app].
    rewrite IH by assumption. reflexivity.
Qed.

Lemma loop_missing_key (table_name : string) (key_properties : list string)
    (records : list value) :
  forall (rm : records_map) (level row_index : Z),
    existsb (fun r => negb (forallb (dict_mem (record_items r)) key_properties)) records
    = true ->
    error (denest_records_loop self_denest_records table_name records rm key_properties
             None level row_index) <> None.
Proof.
  induction records as [|r rest IH]; intros rm lvl idx H;
    cbn [denest_records_loop truthy].
  - discriminate.
  - cbn [existsb] in H.
    destruct r; cbn [error]; try discriminate. cbn [record_items] in H.
    destruct (forallb (dict_mem items) key_properties) eqn:Hk;
      [|unfold top_level_pk_fks].
    + cbn [negb orb] in H.
      destruct (top_level_pk_fks items key_properties); cbn [error]; [discriminate|].
      match goal with
      | |- context [denest_record ?s ?a ?b ?c ?d ?e ?f ?g] =>
          destruct (error (denest_record s a b c d e f g))
      end; cbn [error]; [discriminate | now apply IH].
    + destruct (@source_keys_missing items key_properties [] Hk) as (k & _ & _ & ->).
      cbn [error]. discriminate.
Qed.

Lemma loop_non_object (table_name : string) (key_properties : list string)
    (kv : string * value) (d : dict) (records : list value) :
  forall (rm : records_map) (level row_index : Z),
    existsb (fun r => negb (is_dict r)) records = true ->
    error (denest_records_loop self_denest_records table_name records rm key_properties
             (Some (kv :: d)) level row_index) <> None.
Proof.
  induction records as [|r rest IH]; intros rm lvl idx H;
    cbn [denest_records_loop truthy].
  - discriminate.
  - cbn [existsb] in H.
    destruct r; cbn [error]; try discriminate. cbn [is_dict negb orb] in H.
    match goal with
    | |- context [denest_record ?s ?a ?b ?c ?d ?e ?f ?g] =>
        destruct (error (denest_record s a b c d e f g))
    end; cbn [error]; [discriminate | now apply IH].
Qed.

Lemma loop_flat_then (table_name : string) (key_properties : list string)
    (good : list value) (tail : list value) :
  forall (rm : records_map) (level row_index : Z),
    forallb (flat key_properties) good = true ->
    Forall (fun r => NoDup (keys (record_items r))) good ->
    let rm' := fold_left (fun m r => rm_append m table_name
                                       (DenestFacts.without_nulls (record_items r)))
                         good rm in
    let r' := denest_records_loop self_denest_records table_name tail rm'
                key_properties None level row_index in
    denest_records_loop self_denest_records table_name (good ++ tail) rm key_properties
      None level row_index
    = {| objects := (good ++ objects r')%list; map_after := map_after r';
         error := error r' |}.
Proof.
  induction good as [|r rest IH]; intros rm lvl idx Hflat Hnd;
    cbn [app fold_left].
  - now destruct (denest_records_loop _ _ _ _ _ _ _ _).
  - cbn [denest_records_loop truthy].
    cbn [forallb] in Hflat. apply andb_true_iff in Hflat as [Hr Hflat].
    inversion Hnd as [|? ? Hr_nd Hnd']; subst.
    destruct r; try discriminate Hr. cbn [flat] in Hr.
    apply andb_true_iff in Hr as [Hs Hk]. cbn [record_items] in *.
    destruct (source_keys_present items key_properties [] Hk) as [fks0 Hfks].
    assert (Htop : exists fks, top_level_pk_fks items key_properties = inr fks).
    { unfold top_level_pk_fks. rewrite Hfks.
      destruct (dict_lookup items SINGER_SEQUENCE); eauto. }
    destruct Htop as [fks ->].
    unfold denest_record.
    rewrite record_items_flat by assumption.
    cbn [walked_error error objects map_after items_after walked_map row app].
    rewrite IH by assumption. reflexivity.
Qed.

Lemma record_items_array_raises (table_name : string) (current_path : option string)
    (items : dict) (p : string) (l : list value) (kv : string * value) (d : dict) :
  forall (denested_record : dict) (rm : records_map) (key_properties : list string)
         (level : Z),
    (forall tn rm kp lvl,
        error (self_denest_records tn l rm kp (Some (kv :: d)) lvl) <> None) ->
    In (p, VList l) items ->
    walked_error (denest_record_items self_denest_records table_name current_path
                    items denested_record rm key_properties (kv :: d) level) <> None.
Proof.
  intros dr rm kp lvl Hself. revert dr rm.
  induction items as [|[prop v] rest IH]; intros dr rm Hin.
  - destruct Hin.
  - assert (Hrest : v = VList l \/ In (p, VList l) rest).
    { destruct Hin as [[= _ ->]|Hin]; [now left | now right]. }
    cbn [denest_record_items].
    destruct v; cbn [cons_item walked_error];
      try (destruct Hrest as [Hv|Hrest]; [discriminate Hv | now apply IH]).
    + destruct Hrest as [[= ->]|Hrest].
      * destruct (error (self_denest_records _ _ _ _ _ _)) eqn:E;
          cbn [walked_error]; [discriminate|].
        exfalso. exact (Hself _ _ _ _ E).
      * destruct (error (self_denest_records _ _ _ _ _ _)); cbn [cons_item walked_error];
          [discriminate | now apply IH].
    + destruct (walked_error (denest_subrecord _ _ _ _ _ _ _ _ _));
        cbn [cons_item walked_error]; [discriminate|].
      destruct Hrest as [Hv|Hrest]; [discriminate Hv | now apply IH].
Qed.

Lemma loop_array_raises (table_name : string) (key_properties : list string)
    (records : list value) (items : dict) (p : string) (l : list value) :
  forall (rm : records_map) (level row_index : Z),
    (forall tn rm kp kv d lvl,
        error (self_denest_records tn l rm kp (Some (kv :: d)) lvl) <> None) ->
    In (VDict items) records ->
    (forall fks, top_level_pk_fks items key_properties = inr fks -> fks <> []) ->
    In (p, VList l) items ->
    error (denest_records_loop self_denest_records table_name records rm key_properties
             None level row_index) <> None.
Proof.
  intros rm lvl idx Hself Hin Hfks Hp. revert rm idx.
  induction records as [|r rest IH]; intros rm idx; [destruct Hin|].
  cbn [denest_records_loop truthy].
  destruct r as [| | | | |items']; cbn [error]; try discriminate.
  destruct (top_level_pk_fks items' key_properties) as [e|fks] eqn:Etop;
    cbn [error]; [discriminate|].
  destruct Hin as [[= ->]|Hin].
  - specialize (Hfks fks Etop). destruct fks as [|kv d]; [contradiction|].
    pose proof (@record_items_array_raises table_name None items p l kv d [] rm
                  key_properties lvl
                  (fun tn rm kp lv => Hself tn rm kp kv d lv) Hp) as K.
    unfold denest_record.
    destruct (walked_error (denest_record_items _ _ _ _ _ _ _ _ _));
      cbn [error]; [discriminate | contradiction].
  - match goal with
    | |- context [denest_record ?s ?a ?b ?c ?d ?e ?f ?g] =>
        destruct (error (denest_record s a b c d e f g))
    end; cbn [error]; [discriminate | now apply IH].
Qed.

End Flat.

Lemma fold_append_rows (table_name : string) (records : list value) :
  forall rm,
    rm_rows (fold_left (fun m r => rm_append m table_name
                                     (DenestFacts.without_nulls (record_items r)))
                       records rm) table_name
    = (rm_rows rm table_name
       ++ map (fun r => DenestFacts.without_nulls (record_items r)) records)%list.
Proof.
  induction records as [|r rest IH]; intro rm; cbn [fold_left map].
  - now rewrite app_nil_r.
  - rewrite IH. unfold rm_rows at 1. rewrite rm_append_same.
    now rewrite <- app_assoc.
Qed.

Lemma source_keys_not_nil (items : dict) (key_properties : list string) :
  forall acc fks,
    source_keys items key_properties acc = inr fks ->
    acc <> [] \/ key_properties <> [] -> fks <> [].
Proof.
  induction key_properties as [|k rest IH]; intros acc fks H Hne; cbn [source_keys] in H.
  - injection H as <-. destruct Hne as [Hne|Hne]; [exact Hne | contradiction].
  - destruct (dict_lookup items k); [|discriminate].
    apply IH in H; [exact H|]. left. apply set_not_nil.
Qed.

Lemma top_level_pk_fks_not_nil (items : dict) (key_properties : list string) (fks : dict) :
  key_properties <> [] \/ dict_mem items SINGER_SEQUENCE = true ->
  top_level_pk_fks items key_properties = inr fks -> fks <> [].
Proof.
  unfold top_level_pk_fks, dict_mem. intros Hne H.
  destruct (source_keys items key_properties []) as [e|fks0] eqn:E; [discriminate|].
  destruct (dict_lookup items SINGER_SEQUENCE).
  - injection H as <-. apply set_not_nil.
  - injection H as <-. destruct Hne as [Hne|Hne]; [|discriminate].
    apply (@source_keys_not_nil items key_properties [] fks0 E). now right.
Qed.

(** X8.  At the top level, records that are objects of scalars holding every
    key property are taken as they are: the call returns, writes into no
    record, and appends to the table one row per record, in order, which is
    the record without its null properties. *)
Theorem flat_records_become_rows (fuel : nat) (table_name : string)
    (records : list value) (rm : records_map) (key_properties : list string)
    (level : Z) :
  forallb (flat key_properties) records = true ->
  Forall (fun r => NoDup (keys (record_items r))) records ->
  error (denest_records (S fuel) table_name records rm key_properties None level) = None
  /\ objects (denest_records (S fuel) table_name records rm key_properties None level)
     = records
  /\ rm_rows (map_after (denest_records (S fuel) table_name records rm key_properties
                           None level)) table_name
     = (rm_rows rm table_name
        ++ map (fun r => DenestFacts.without_nulls (record_items r)) records)%list.
Proof.
  intros Hflat Hnd. cbn [denest_records].
  rewrite loop_flat by assumption. cbn [error objects map_after].
  repeat split. apply fold_append_rows.
Qed.

(** X9.  At the top level, the first record that lacks a key property stops
    the call with [KeyError] for a key it lacks; the rows of the records
    before it are in the map by then. *)
Theorem missing_key_property_raises (fuel : nat) (table_name : string)
    (good rest : list value) (items : dict) (rm : records_map)
    (key_properties : list string) (level : Z) :
  forallb (flat key_properties) good = true ->
  Forall (fun r => NoDup (keys (record_items r))) good ->
  forallb (dict_mem items) key_properties = false ->
  exists k,
    In k key_properties /\ dict_lookup items k = None
    /\ error (denest_records (S fuel) table_name (good ++ VDict items :: rest) rm
                key_properties None level) = Some (KeyError k)
    /\ rm_rows (map_after (denest_records (S fuel) table_name
                             (good ++ VDict items :: rest) rm key_properties None level))
               table_name
       = (rm_rows rm table_name
          ++ map (fun r => DenestFacts.without_nulls (record_items r)) good)%list.
Proof.
  intros Hflat Hnd Hmiss. cbn [denest_records].
  rewrite loop_flat_then by assumption.
  cbn [denest_records_loop truthy]. unfold top_level_pk_fks.
  destruct (@source_keys_missing items key_properties [] Hmiss) as (k & Hin & Hk & ->).
  cbn [error map_after]. exists k. repeat split; try assumption.
  apply fold_append_rows.
Qed.

(** X10.  An array that holds anything but objects stops the call: when the
    record has a key property or a sequence number, the call for the items
    of the array writes these into each item, which an item that is no
    object does not take. *)
Theorem array_of_non_objects_raises (fuel : nat) (table_name : string)
    (records : list value) (items : dict) (p : string) (l : list value)
    (rm : records_map) (key_properties : list string) (level : Z) :
  In (VDict items) records ->
  key_properties <> [] \/ dict_mem items SINGER_SEQUENCE = true ->
  In (p, VList l) items ->
  existsb (fun x => negb (is_dict x)) l = true ->
  error (denest_records fuel table_name records rm key_properties None level) <> None.
Proof.
  intros Hin Hkey Hp Hl. destruct fuel as [|fuel]; cbn [denest_records]; [discriminate|].
  apply (@loop_array_raises (denest_records fuel) table_name key_properties records
           items p l rm level 0); try assumption.
  - intros tn rm' kp kv d lvl. destruct fuel as [|fuel']; cbn [denest_records];
      [discriminate|].
    now apply loop_non_object.
  - intros fks Hfks. exact (@top_level_pk_fks_not_nil items key_properties fks Hkey Hfks).
Qed.

(** [{"id": 1, "name": null, "email": "a@b"}] and [{"id": 2}] *)
Definition two_flat_records : list value :=
  [VDict [("id", VInt 1); ("name", VNone); ("email", VStr "a@b")];
   VDict [("id", VInt 2)]].

(** [{"id": 1, "tags": ["x", "y"]}] *)
Definition scalar_tags : dict :=
  [("id", VInt 1); ("tags", VList [VStr "x"; VStr "y"])].

(** [denester_leaves_other_tables] at the call for the items of
    [with_arrays], with a row of [orders] in the map. *)
Lemma denester_leaves_other_tables_witness :
  (forall s, "orders" <> ("users__tags" ++ s)%string)
  /\ rm_lookup (map_after (denest_records 3 "users__tags" DenestExamples.tags
                             [("orders", [[("id", VInt 1)]])] ["id"]
                             (Some DenestExamples.with_arrays_pk_fks) 0)) "orders"
     = Some [[("id", VInt 1)]].
Proof.
  assert (H : forall s, "orders" <> ("users__tags" ++ s)%string)
    by (intros s; discriminate).
  exact (conj H (@denester_leaves_other_tables 3 "users__tags" DenestExamples.tags
                   [("orders", [[("id", VInt 1)]])] ["id"]
                   (Some DenestExamples.with_arrays_pk_fks) 0 "orders" H)).
Defined.

(** [flat_records_become_rows] at [two_flat_records], keyed by [id]. *)
Lemma flat_records_become_rows_witness :
  forallb (flat ["id"]) two_flat_records = true
  /\ rm_rows (map_after (denest_records 1 "users" two_flat_records [] ["id"] None (-1)))
             "users"
     = [[("id", VInt 1); ("email", VStr "a@b")]; [("id", VInt 2)]].
Proof.
  assert (H : forallb (flat ["id"]) two_flat_records = true) by reflexivity.
  assert (Hnd : Forall (fun r => NoDup (keys (record_items r))) two_flat_records).
  { repeat constructor; cbn; intuition discriminate. }
  destruct (@flat_records_become_rows 0 "users" two_flat_records [] ["id"] (-1) H Hnd)
    as (_ & _ & Hrows).
  exact (conj H Hrows).
Defined.

(** [missing_key_property_raises] at [two_flat_records] followed by
    [{"name": "c"}], keyed by [id]. *)
Lemma missing_key_property_raises_witness :
  forallb (flat ["id"]) two_flat_records = true
  /\ forallb (dict_mem [("name", VStr "c")]) ["id"] = false
  /\ exists k,
       error (denest_records 1 "users"
                (two_flat_records ++ [VDict [("name", VStr "c")]]) [] ["id"] None (-1))
       = Some (KeyError k).
Proof.
  assert (H : forallb (flat ["id"]) two_flat_records = true) by reflexivity.
  assert (Hnd : Forall (fun r => NoDup (keys (record_items r))) two_flat_records).
  { repeat constructor; cbn; intuition discriminate. }
  assert (Hm : forallb (dict_mem [("name", VStr "c")]) ["id"] = false) by reflexivity.
  destruct (@missing_key_property_raises 0 "users" two_flat_records []
              [("name", VStr "c")] [] ["id"] (-1) H Hnd Hm) as (k & _ & _ & He & _).
  exact (conj H (conj Hm (ex_intro _ k He))).
Defined.

(** [array_of_non_objects_raises] at [scalar_tags], keyed by [id]. *)
Lemma array_of_non_objects_raises_witness :
  In (VDict scalar_tags) [VDict scalar_tags]
  /\ In ("tags", VList [VStr "x"; VStr "y"]) scalar_tags
  /\ error (denest_records 100 "users" [VDict scalar_tags] [] ["id"] None (-1)) <> None.
Proof.
  assert (H1 : In (VDict scalar_tags) [VDict scalar_tags]) by (now left).
  assert (H2 : ["id"] <> [] \/ dict_mem scalar_tags SINGER_SEQUENCE = true)
    by (left; discriminate).
  assert (H3 : In ("tags", VList [VStr "x"; VStr "y"]) scalar_tags)
    by (right; now left).
  assert (H4 : existsb (fun x => negb (is_dict x)) [VStr "x"; VStr "y"] = true)
    by reflexivity.
  exact (conj H1 (conj H3
           (@array_of_non_objects_raises 100 "users" [VDict scalar_tags] scalar_tags
              "tags" [VStr "x"; VStr "y"] [] ["id"] (-1) H1 H2 H3 H4))).
Defined.

End DenesterFacts.

(** ** Records on their way into a batch *)
Module BatchWriterFacts.
Import SingerStream Postgres DictFacts.

Ltac differ := let H := fresh in intro H; discriminate H.

(** The five columns [process_record_message] writes. *)
Definition metadata_columns : list string :=
  [SINGER_TABLE_VERSION; SINGER_RECEIVED_AT; SINGER_PK; SINGER_BATCHED_AT;
   SINGER_SEQUENCE].

Lemma set_same (d : dict) (k : string) (v : value) :
  dict_lookup d k = Some v -> dict_set d k v = d.
Proof.
  induction d as [|[k' v'] d IH]; cbn [dict_lookup dict_set]; [discriminate|].
  destruct (String.eqb_spec k k') as [->|Hne].
  - now intros [= ->].
  - intro H. now rewrite IH.
Qed.

Section Process.

Variables (use_uuid_pk : bool) (batched_at uuid : string) (timestamp : Z).
Variable m : record_message.

(** The five assignments of [process_record_message], one by one. *)
Definition versioned (d : dict) : dict :=
  match version m with
  | Some v => dict_set d SINGER_TABLE_VERSION (VInt v)
  | None => d
  end.

Definition received (d : dict) : dict :=
  match time_extracted m with
  | Some t => if is_None (py_get d SINGER_RECEIVED_AT)
              then dict_set d SINGER_RECEIVED_AT (VStr t) else d
  | None => d
  end.

Definition keyed (d : dict) : dict :=
  if use_uuid_pk && is_None (py_get d SINGER_PK)
  then dict_set d SINGER_PK (VStr uuid) else d.

Definition batched (d : dict) : dict := dict_set d SINGER_BATCHED_AT (VStr batched_at).

Definition sequence_or_timestamp : Z :=
  match sequence m with Some s => s | None => timestamp end.

Definition sequenced (d : dict) : dict :=
  dict_set d SINGER_SEQUENCE (VInt sequence_or_timestamp).

Definition processed (d : dict) : dict :=
  sequenced (batched (keyed (received (versioned d)))).

Lemma process_stages (d : dict) :
  record m = VDict d ->
  process_record_message use_uuid_pk batched_at uuid timestamp m = inr (processed d).
Proof.
  intro H. unfold process_record_message, processed, sequenced, sequence_or_timestamp,
    batched, keyed, received, versioned.
  rewrite H. now destruct (sequence m).
Qed.

Lemma versioned_other (d : dict) (K : string) :
  K <> SINGER_TABLE_VERSION -> dict_lookup (versioned d) K = dict_lookup d K.
Proof.
  intro H. unfold versioned. destruct (version m); [now apply lookup_set_other | reflexivity].
Qed.

Lemma received_other (d : dict) (K : string) :
  K <> SINGER_RECEIVED_AT -> dict_lookup (received d) K = dict_lookup d K.
Proof.
  intro H. unfold received. destruct (time_extracted m); [|reflexivity].
  destruct (is_None _); [now apply lookup_set_other | reflexivity].
Qed.

Lemma keyed_other (d : dict) (K : string) :
  K <> SINGER_PK -> dict_lookup (keyed d) K = dict_lookup d K.
Proof.
  intro H. unfold keyed. destruct (_ && _); [now apply lookup_set_other | reflexivity].
Qed.

Lemma batched_other (d : dict) (K : string) :
  K <> SINGER_BATCHED_AT -> dict_lookup (batched d) K = dict_lookup d K.
Proof. intro H. now apply lookup_set_other. Qed.

Lemma sequenced_other (d : dict) (K : string) :
  K <> SINGER_SEQUENCE -> dict_lookup (sequenced d) K = dict_lookup d K.
Proof. intro H. now apply lookup_set_other. Qed.

Lemma processed_other (d : dict) (K : string) :
  ~ In K metadata_columns -> dict_lookup (processed d) K = dict_lookup d K.
Proof.
  intro H. unfold processed.
  rewrite sequenced_other, batched_other, keyed_other, received_other, versioned_other;
    [reflexivity| | | | |]; intros ->; apply H; cbn; tauto.
Qed.

Lemma processed_version (d : dict) :
  dict_lookup (processed d) SINGER_TABLE_VERSION
  = match version m with
    | Some v => Some (VInt v)
    | None => dict_lookup d SINGER_TABLE_VERSION
    end.
Proof.
  unfold processed.
  rewrite sequenced_other, batched_other, keyed_other, received_other by differ.
  unfold versioned. destruct (version m); [apply lookup_set_same | reflexivity].
Qed.

Lemma processed_received (d : dict) :
  dict_lookup (processed d) SINGER_RECEIVED_AT
  = dict_lookup (received (versioned d)) SINGER_RECEIVED_AT.
Proof.
  unfold processed. now rewrite sequenced_other, batched_other, keyed_other by differ.
Qed.

Lemma processed_pk (d : dict) :
  dict_lookup (processed d) SINGER_PK
  = dict_lookup (keyed (received (versioned d))) SINGER_PK.
Proof.
  unfold processed. now rewrite sequenced_other, batched_other by differ.
Qed.

Lemma processed_batched_at (d : dict) :
  dict_lookup (processed d) SINGER_BATCHED_AT = Some (VStr batched_at).
Proof.
  unfold processed. rewrite sequenced_other by differ. apply lookup_set_same.
Qed.

Lemma processed_sequence (d : dict) :
  dict_lookup (processed d) SINGER_SEQUENCE = Some (VInt sequence_or_timestamp).
Proof. apply lookup_set_same. Qed.

Lemma received_not_null (d : dict) (t : string) :
  time_extracted m = Some t -> is_None (py_get (received d) SINGER_RECEIVED_AT) = false.
Proof.
  intro H. unfold received. rewrite H.
  destruct (is_None (py_get d SINGER_RECEIVED_AT)) eqn:E; [|exact E].
  unfold py_get. now rewrite lookup_set_same.
Qed.

Lemma keyed_not_null (d : dict) :
  use_uuid_pk = true -> is_None (py_get (keyed d) SINGER_PK) = false.
Proof.
  intro H. unfold keyed. rewrite H. cbn [andb].
  destruct (is_None (py_get d SINGER_PK)) eqn:E; [|exact E].
  unfold py_get. now rewrite lookup_set_same.
Qed.

Lemma processed_fixed (d : dict) :
  versioned (processed d) = processed d
  /\ received (processed d) = processed d
  /\ keyed (processed d) = processed d
  /\ batched (processed d) = processed d
  /\ sequenced (processed d) = processed d.
Proof.
  split; [|split; [|split; [|split]]].
  - unfold versioned at 1. pose proof (processed_version d) as H.
    destruct (version m); [now apply set_same | reflexivity].
  - unfold received at 1. destruct (time_extracted m) as [t|] eqn:E; [|reflexivity].
    unfold py_get. rewrite processed_received.
    pose proof (@received_not_null (versioned d) t E) as H. unfold py_get in H.
    now rewrite H.
  - unfold keyed at 1. destruct use_uuid_pk eqn:E; [|reflexivity]. cbn [andb].
    unfold py_get. rewrite processed_pk.
    pose proof (@keyed_not_null (received (versioned d)) E) as H. unfold py_get in H.
    now rewrite H.
  - apply set_same, processed_batched_at.
  - apply set_same, processed_sequence.
Qed.

End Process.

(** X11.  [process_record_message] takes every object and touches only the
    five metadata columns: every other property of the record is as it was;
    [_sdc_batched_at] is the time of the batch, [_sdc_sequence] the sequence
    of the line or else the timestamp, and [_sdc_table_version] the version
    of the line when it has one. *)
Theorem process_record_message_fields (use_uuid_pk : bool) (batched_at uuid : string)
    (timestamp : Z) (m : record_message) (d : dict) :
  exists r,
    process_record_message use_uuid_pk batched_at uuid timestamp (with_record m (VDict d))
    = inr r
    /\ (forall K, ~ In K metadata_columns -> dict_lookup r K = dict_lookup d K)
    /\ dict_lookup r SINGER_BATCHED_AT = Some (VStr batched_at)
    /\ dict_lookup r SINGER_SEQUENCE
       = Some (VInt (match sequence m with Some s => s | None => timestamp end))
    /\ dict_lookup r SINGER_TABLE_VERSION
       = match version m with
         | Some v => Some (VInt v)
         | None => dict_lookup d SINGER_TABLE_VERSION
         end.
Proof.
  exists (processed use_uuid_pk batched_at uuid timestamp m d).
  split; [exact (@process_stages use_uuid_pk batched_at uuid timestamp
                   (with_record m (VDict d)) d eq_refl)|].
  split; [intros K HK; now apply processed_other|].
  split; [apply processed_batched_at|].
  split; [apply processed_sequence | apply processed_version].
Qed.

(** X12.  Processing is idempotent: a record that went through
    [process_record_message] comes out of a second pass, with the same batch
    time, uuid and timestamp, exactly as it went in. *)
Theorem process_record_message_idempotent (use_uuid_pk : bool)
    (batched_at uuid : string) (timestamp : Z) (m : record_message) (d : dict) :
  exists r,
    process_record_message use_uuid_pk batched_at uuid timestamp (with_record m (VDict d))
    = inr r
    /\ process_record_message use_uuid_pk batched_at uuid timestamp
         (with_record m (VDict r))
       = inr r.
Proof.
  exists (processed use_uuid_pk batched_at uuid timestamp m d).
  split; [exact (@process_stages use_uuid_pk batched_at uuid timestamp
                   (with_record m (VDict d)) d eq_refl)|].
  rewrite (@process_stages use_uuid_pk batched_at uuid timestamp (with_record m
             (VDict (processed use_uuid_pk batched_at uuid timestamp m d)))
             (processed use_uuid_pk batched_at uuid timestamp m d) eq_refl).
  f_equal.
  destruct (processed_fixed use_uuid_pk batched_at uuid timestamp m d)
    as (H1 & H2 & H3 & H4 & H5).
  change (processed use_uuid_pk batched_at uuid timestamp (with_record m _))
    with (processed use_uuid_pk batched_at uuid timestamp m).
  unfold processed at 1. now rewrite H1, H2, H3, H4, H5.
Qed.

(** A buffered line whose version the batch writer can compare: its record
    is an object and, when the line has no version, neither has the record. *)
Definition versionable (m : record_message) : bool :=
  match record m with
  | VDict d =>
      match version m with
      | Some _ => true
      | None => is_None (py_get d SINGER_TABLE_VERSION)
      end
  | _ => false
  end.

Definition unversioned (m : record_message) : bool :=
  match version m with None => true | Some _ => false end.

Definition is_version (v : value) : bool :=
  match v with VNone | VInt _ => true | _ => false end.

Lemma versionable_processed (use_uuid_pk : bool) (batched_at uuid : string)
    (timestamp : Z) (m : record_message) :
  versionable m = true ->
  exists r,
    process_record_message use_uuid_pk batched_at uuid timestamp m = inr r
    /\ py_get r SINGER_TABLE_VERSION
       = match version m with Some v => VInt v | None => VNone end.
Proof.
  unfold versionable. destruct (record m) as [| | | | |d] eqn:E; try discriminate.
  intro H. exists (processed use_uuid_pk batched_at uuid timestamp m d).
  split; [now apply process_stages|].
  unfold py_get at 1. rewrite processed_version.
  destruct (version m); [reflexivity|].
  unfold py_get in H. destruct (dict_lookup d SINGER_TABLE_VERSION) as [v|];
    [now destruct v | reflexivity].
Qed.

Lemma set_add_keeps (versions : list value) (v x : value) :
  In x versions -> In x (set_add versions v).
Proof.
  intro H. unfold set_add. destruct (existsb _ _); [exact H|].
  apply in_or_app. now left.
Qed.

Lemma set_add_None (versions : list value) : In VNone (set_add versions VNone).
Proof.
  unfold set_add. destruct (existsb (py_eq VNone) versions) eqn:E.
  - apply existsb_exists in E as (y & Hy & Heq). now destruct y.
  - apply in_or_app. right. now left.
Qed.

Lemma scan_versionable (b : backend) (use_uuid_pk : bool) (buffered : list record_message) :
  forall (i : nat) (max_version : value) (versions : list value),
    forallb versionable buffered = true ->
    is_version max_version = true ->
    scanned_error (scan_buffer b use_uuid_pk i buffered max_version versions) = None
    /\ (forall x, In x versions ->
          In x (scanned_versions (scan_buffer b use_uuid_pk i buffered max_version versions)))
    /\ (existsb unversioned buffered = true ->
        In VNone (scanned_versions (scan_buffer b use_uuid_pk i buffered max_version versions))).
Proof.
  induction buffered as [|m rest IH]; intros i mv vs Hall Hmv; cbn [scan_buffer].
  - cbn [scanned_error scanned_versions existsb]. repeat split; [tauto | discriminate].
  - cbn [forallb] in Hall. apply andb_true_iff in Hall as [Hm Hall].
    destruct (@versionable_processed use_uuid_pk (now b) (uuid4 b i) (timestamp b i) m Hm)
      as (r & -> & Hrv).
    rewrite Hrv. cbn [existsb]. unfold unversioned at 1.
    destruct (version m) as [v|].
    + cbn [is_None hashable is_dict is_list orb negb].
      destruct mv; try discriminate Hmv; cbn [is_None py_lt number].
      * destruct (IH (S i) (VInt v) (set_add vs (VInt v)) Hall eq_refl) as (He & Hk & Hn).
        cbn [scanned_error scanned_versions]. repeat split; [exact He | | exact Hn].
        intros x Hx. now apply Hk, set_add_keeps.
      * destruct (n <? v).
        -- destruct (IH (S i) (VInt v) (set_add vs (VInt v)) Hall eq_refl) as (He & Hk & Hn).
           cbn [scanned_error scanned_versions]. repeat split; [exact He | | exact Hn].
           intros x Hx. now apply Hk, set_add_keeps.
        -- destruct (IH (S i) (VInt n) (set_add vs (VInt v)) Hall eq_refl) as (He & Hk & Hn).
           cbn [scanned_error scanned_versions]. repeat split; [exact He | | exact Hn].
           intros x Hx. now apply Hk, set_add_keeps.
    + cbn [is_None hashable is_dict is_list orb negb].
      destruct (IH (S i) mv (set_add vs VNone) Hall Hmv) as (He & Hk & Hn).
      cbn [scanned_error scanned_versions]. repeat split; [exact He | |].
      * intros x Hx. now apply Hk, set_add_keeps.
      * intros _. apply Hk, set_add_None.
Qed.

Definition not_comparable : exception :=
  TypeError "'<' not supported between these instances".

Lemma py_lt_error (a b : value) (e : exception) :
  py_lt a b = inl e -> e = not_comparable.
Proof.
  unfold py_lt. destruct (number a), (number b), a, b; intro H;
    try discriminate H; now injection H as <-.
Qed.

Lemma py_lt_None_l (b : value) : py_lt VNone b = inl not_comparable.
Proof. unfold py_lt. cbn [number]. now destruct (number b), b. Qed.

Lemma py_lt_None_r (a : value) : py_lt a VNone = inl not_comparable.
Proof. unfold py_lt. cbn [number]. now destruct (number a), a. Qed.

Lemma py_min_from_None (rest : list value) :
  forall least x,
    py_min_from least rest = inr x ->
    ~ In VNone rest /\ (least = VNone -> rest = []).
Proof.
  induction rest as [|v rest IH]; intros least x H; cbn [py_min_from] in H.
  - split; [intros [] | reflexivity].
  - destruct (py_lt v least) as [e|[|]] eqn:E; [discriminate| |].
    + destruct (IH _ _ H) as [Hn Hl]. split.
      * intros [->|Hin]; [now rewrite py_lt_None_l in E | contradiction].
      * intros ->. now rewrite py_lt_None_r in E.
    + destruct (IH _ _ H) as [Hn Hl]. split.
      * intros [->|Hin]; [now rewrite py_lt_None_l in E | contradiction].
      * intros ->. now rewrite py_lt_None_r in E.
Qed.

Lemma py_min_from_error (rest : list value) :
  forall least e, py_min_from least rest = inl e -> e = not_comparable.
Proof.
  induction rest as [|v rest IH]; intros least e H; cbn [py_min_from] in H.
  - discriminate.
  - destruct (py_lt v least) as [e'|[|]] eqn:E; [|now apply IH in H..].
    injection H as <-. now apply py_lt_error in E.
Qed.

(** [min(versions) < current] for a set that holds [None] *)
Lemma earlier_check_None (versions : list value) (c : Z) :
  In VNone versions ->
  match py_min versions with
  | inl e => Some e
  | inr least => match py_lt least (VInt c) with inl e => Some e | inr _ => None end
  end = Some not_comparable.
Proof.
  intro Hin. destruct versions as [|v rest]; [destruct Hin|]. cbn [py_min].
  destruct (py_min_from v rest) as [e|least] eqn:E.
  - now apply py_min_from_error in E as ->.
  - destruct (py_min_from_None _ _ E) as [Hn Hl].
    destruct Hin as [->|Hin]; [|contradiction].
    rewrite (Hl eq_refl) in E. cbn [py_min_from] in E. injection E as <-.
    now rewrite py_lt_None_l.
Qed.

Lemma write_batch_of_failed_try (b : backend) (sb : BufferedSingerStream)
    (ex : exception) :
  count sb <> 0 ->
  failure (write_batch_try b sb) = Some ex ->
  execute_rollback b = None ->
  failure (write_batch b sb) = Some (PostgresError "Exception writing records" (Some ex))
  /\ executed (write_batch b sb) = (executed (write_batch_try b sb) ++ [ROLLBACK])%list
  /\ buffer_after (write_batch b sb) = buffer_after (write_batch_try b sb).
Proof.
  intros Hc Hf Hr. unfold write_batch.
  destruct (Z.eqb_spec (count sb) 0); [contradiction|].
  rewrite Hf, Hr. repeat split.
Qed.

(** X13.  When the table comment names key properties other than those of
    the stream, [write_batch] raises [PostgresError] around the
    `key_properties` error, after [ROLLBACK]; nothing was written to the
    database, and the buffer is not flushed. *)
Theorem key_properties_change_raises (b : backend) (sb : BufferedSingerStream)
    (meta : table_metadata) :
  count sb <> 0 ->
  forallb versionable (buffer sb) = true ->
  execute_begin b = None ->
  get_table_metadata b = inr (Some meta) ->
  same_elements (key_properties sb) (meta_key_properties meta) = false ->
  execute_rollback b = None ->
  failure (write_batch b sb)
  = Some (PostgresError "Exception writing records"
            (Some (PostgresError "`key_properties` change detected." None)))
  /\ executed (write_batch b sb) = [BEGIN; ROLLBACK]
  /\ count (buffer_after (write_batch b sb)) = count sb
  /\ List.length (buffer (buffer_after (write_batch b sb))) = List.length (buffer sb).
Proof.
  intros Hc Hv Hb Hm Hk Hr.
  destruct (@scan_versionable b (use_uuid_pk sb) (buffer sb) 0%nat VNone [] Hv eq_refl)
    as (Hs & _ & _).
  assert (Htry : failure (write_batch_try b sb)
                 = Some (PostgresError "`key_properties` change detected." None)
                 /\ executed (write_batch_try b sb) = [BEGIN]).
  { unfold write_batch_try, peek_buffer. rewrite Hb, Hs, Hm, Hk. now cbn. }
  destruct Htry as [Hf He].
  destruct (@write_batch_of_failed_try b sb _ Hc Hf Hr) as (H1 & H2 & H3).
  rewrite H1, H2, H3, He.
  destruct (WriteBatchFacts.try_keeps_counters b sb) as (Hcount & _ & Hlines).
  repeat split; [exact Hcount|].
  symmetry. exact (Forall2_length Hlines).
Qed.

(** X14.  A buffered line without version cannot be written to a table whose
    comment holds a version: [min(versions) < current_table_version] then
    compares [None] with an integer, and [write_batch] raises [PostgresError]
    around that [TypeError], after [ROLLBACK]. *)
Theorem unversioned_line_for_versioned_table (b : backend) (sb : BufferedSingerStream)
    (meta : table_metadata) (c : Z) :
  count sb <> 0 ->
  forallb versionable (buffer sb) = true ->
  existsb unversioned (buffer sb) = true ->
  execute_begin b = None ->
  get_table_metadata b = inr (Some meta) ->
  same_elements (key_properties sb) (meta_key_properties meta) = true ->
  meta_version meta = Some c ->
  execute_rollback b = None ->
  failure (write_batch b sb)
  = Some (PostgresError "Exception writing records" (Some not_comparable))
  /\ executed (write_batch b sb) = [BEGIN; ROLLBACK]
  /\ count (buffer_after (write_batch b sb)) = count sb.
Proof.
  intros Hc Hv Hu Hb Hm Hk Hver Hr.
  destruct (@scan_versionable b (use_uuid_pk sb) (buffer sb) 0%nat VNone [] Hv eq_refl)
    as (Hs & _ & Hn).
  specialize (Hn Hu).
  assert (Htry : failure (write_batch_try b sb) = Some not_comparable
                 /\ executed (write_batch_try b sb) = [BEGIN]).
  { unfold write_batch_try, peek_buffer. rewrite Hb, Hs, Hm, Hk. cbn [negb].
    rewrite Hver, (earlier_check_None _ c Hn). now cbn. }
  destruct Htry as [Hf He].
  destruct (@write_batch_of_failed_try b sb _ Hc Hf Hr) as (H1 & H2 & H3).
  rewrite H1, H2, H3, He.
  destruct (WriteBatchFacts.try_keeps_counters b sb) as (Hcount & _ & _).
  repeat split. exact Hcount.
Qed.

(** A database whose table [users] is keyed by [email] and is at version 4. *)
Definition keyed_by_email : backend :=
  {| execute_begin := None;
     now := "2018-06-01 00:00:00.0000+00:00";
     uuid4 := fun _ => "1b4e28ba2fa111d2883f0016d3cca427";
     timestamp := fun _ => 1527811200;
     get_table_metadata :=
       inr (Some {| meta_key_properties := ["email"]; meta_version := Some 4 |});
     upsert_table_schemas := fun _ => inr [];
     persist_rows := fun _ _ => None;
     execute_commit := None;
     execute_rollback := None;
     recursion_limit := 1000 |}.

(** A database whose table [users] is keyed by [id] and is at version 4. *)
Definition at_version_4 : backend :=
  {| execute_begin := None;
     now := "2018-06-01 00:00:00.0000+00:00";
     uuid4 := fun _ => "1b4e28ba2fa111d2883f0016d3cca427";
     timestamp := fun _ => 1527811200;
     get_table_metadata :=
       inr (Some {| meta_key_properties := ["id"]; meta_version := Some 4 |});
     upsert_table_schemas := fun _ => inr [];
     persist_rows := fun _ _ => None;
     execute_commit := None;
     execute_rollback := None;
     recursion_limit := 1000 |}.

(** The buffer [users] holding one line without version. *)
Definition users_unversioned : BufferedSingerStream :=
  after (add_record_message (fun _ => 64) StreamExamples.users
           (StreamExamples.line (VInt 1) None)).

(** [key_properties_change_raises] at the buffer [users], keyed by [id], for
    the table keyed by [email]. *)
Lemma key_properties_change_raises_witness :
  count StreamExamples.users_at_5 <> 0
  /\ same_elements (key_properties StreamExamples.users_at_5) ["email"] = false
  /\ failure (write_batch keyed_by_email StreamExamples.users_at_5)
     = Some (PostgresError "Exception writing records"
               (Some (PostgresError "`key_properties` change detected." None)))
  /\ executed (write_batch keyed_by_email StreamExamples.users_at_5) = [BEGIN; ROLLBACK].
Proof.
  assert (Hc : count StreamExamples.users_at_5 <> 0) by discriminate.
  assert (Hk : same_elements (key_properties StreamExamples.users_at_5) ["email"] = false)
    by reflexivity.
  destruct (@key_properties_change_raises keyed_by_email StreamExamples.users_at_5
              {| meta_key_properties := ["email"]; meta_version := Some 4 |}
              Hc eq_refl eq_refl eq_refl Hk eq_refl) as (Hf & He & _).
  exact (conj Hc (conj Hk (conj Hf He))).
Defined.

(** [unversioned_line_for_versioned_table] at the buffer [users] holding one
    line without version, for the table at version 4. *)
Lemma unversioned_line_for_versioned_table_witness :
  count users_unversioned <> 0
  /\ existsb unversioned (buffer users_unversioned) = true
  /\ failure (write_batch at_version_4 users_unversioned)
     = Some (PostgresError "Exception writing records" (Some not_comparable))
  /\ executed (write_batch at_version_4 users_unversioned) = [BEGIN; ROLLBACK].
Proof.
  assert (Hc : count users_unversioned <> 0) by discriminate.
  assert (Hu : existsb unversioned (buffer users_unversioned) = true) by reflexivity.
  destruct (@unversioned_line_for_versioned_table at_version_4 users_unversioned
              {| meta_key_properties := ["id"]; meta_version := Some 4 |} 4
              Hc eq_refl Hu eq_refl eq_refl eq_refl eq_refl eq_refl) as (Hf & He & _).
  exact (conj Hc (conj Hu (conj Hf He))).
Defined.

End BatchWriterFacts.

(** ** One step of the schema upserter, whatever the case *)
Module UpsertStepFacts.
Import SqlBase DictFacts UpsertFacts.

Section Step.

Variable schema : Type.
Variable to_sql : schema -> string.
Variable sql_shorthand : schema -> string.
Variable make_nullable : schema -> schema.
Context {connection : Type} {self : SQLInterface schema connection}.

(** One of the four EXISTING COLUMNS tests holds. *)
Definition exists_already (existing_columns : list (string * schema))
    (raw_column_name : string) (column_schema : schema) : bool :=
  let canonical := canonicalize_identifier raw_column_name in
  let typed := _mapping_name sql_shorthand canonical column_schema in
  same_sql to_sql existing_columns canonical column_schema
  || same_sql to_sql existing_columns typed column_schema
  || same_sql to_sql existing_columns canonical (make_nullable column_schema)
  || same_sql to_sql existing_columns typed (make_nullable column_schema).

(** The raw name is a valid identifier, or is known as the source of a
    mapping. *)
Definition known_name (st : @upsert_state schema connection) (raw_column_name : string)
  : bool :=
  String.eqb raw_column_name (canonicalize_identifier raw_column_name)
  || in_list raw_column_name (existing_columns_raw_names st).

(** What a step that returns has made of the columns and of the raw names. *)
Lemma upsert_column_cases (existing_schema : TABLE_SCHEMA schema) (table_name : string)
    (table_empty : bool) (st st' : @upsert_state schema connection)
    (raw_column_name : string) (column_schema : schema) :
  let canonical := canonicalize_identifier raw_column_name in
  let typed := _mapping_name sql_shorthand canonical column_schema in
  let nullable := make_nullable column_schema in
  upsert_column to_sql sql_shorthand make_nullable existing_schema table_name
    table_empty st raw_column_name column_schema = inr st' ->
  (st' = st /\ exists_already (existing_columns st) raw_column_name column_schema = true)
  \/ (exists existing,
        dict_lookup (existing_columns st) canonical = Some existing
        /\ String.eqb (to_sql nullable) (to_sql (make_nullable existing)) = true
        /\ existing_columns st'
           = dict_set (existing_columns st) canonical (make_nullable existing)
        /\ existing_columns_raw_names st' = existing_columns_raw_names st)
  \/ (exists existing,
        dict_lookup (existing_columns st) canonical = Some existing
        /\ existing_columns st'
           = dict_del
               (dict_set
                  (dict_set (existing_columns st)
                     (_mapping_name sql_shorthand canonical existing)
                     (make_nullable existing))
                  typed nullable)
               canonical
        /\ existing_columns_raw_names st' = existing_columns_raw_names st)
  \/ (dict_lookup (existing_columns st) canonical = None
      /\ in_list raw_column_name (existing_columns_raw_names st) = true
      /\ existing_columns st' = dict_set (existing_columns st) typed nullable
      /\ existing_columns_raw_names st'
         = (existing_columns_raw_names st ++ [typed])%list)
  \/ (dict_lookup (existing_columns st) canonical = None
      /\ in_list raw_column_name (existing_columns_raw_names st) = false
      /\ (existing_columns st' = dict_set (existing_columns st) canonical column_schema
          \/ existing_columns st' = dict_set (existing_columns st) canonical nullable)
      /\ (String.eqb canonical raw_column_name = true ->
          existing_columns_raw_names st' = existing_columns_raw_names st)).
Proof.
  intros canonical typed nullable H. unfold upsert_column in H. cbv zeta in H.
  fold canonical in H. fold typed in H. fold nullable in H.
  unfold exists_already. cbv zeta. fold canonical. fold typed. fold nullable.
  destruct (negb (String.eqb raw_column_name canonical) && _ && _); [discriminate|].
  destruct (same_sql to_sql (existing_columns st) canonical column_schema);
    [injection H as <-; left; now split|].
  destruct (same_sql to_sql (existing_columns st) typed column_schema);
    [injection H as <-; left; now split|].
  destruct (same_sql to_sql (existing_columns st) canonical nullable);
    [injection H as <-; left; now split|].
  destruct (same_sql to_sql (existing_columns st) typed nullable);
    [injection H as <-; left; now split|].
  right.
  destruct (dict_lookup (existing_columns st) canonical) as [existing|] eqn:Ecan.
  - destruct (String.eqb (to_sql nullable) (to_sql (make_nullable existing))) eqn:Enull.
    + injection H as <-. left. exists existing. repeat split. exact Enull.
    + right. left. exists existing.
      rewrite lookup_set_same in H.
      destruct (dict_lookup _ (_mapping_name sql_shorthand canonical existing));
        [|discriminate].
      injection H as <-. repeat split.
  - right. right.
    destruct (in_list raw_column_name (existing_columns_raw_names st)) eqn:Ein.
    + injection H as <-. left. repeat split.
    + right. split; [reflexivity|]. split; [reflexivity|].
      destruct (String.eqb canonical raw_column_name) eqn:Eraw; cbn [andb] in H.
      * destruct table_empty; injection H as <-; cbn [existing_columns
          existing_columns_raw_names]; split; auto.
      * destruct table_empty; injection H as <-; cbn [existing_columns
          existing_columns_raw_names]; split; auto; discriminate.
Qed.

(** An existing column that fits is left alone. *)
Lemma upsert_column_noop (existing_schema : TABLE_SCHEMA schema) (table_name : string)
    (table_empty : bool) (st : @upsert_state schema connection)
    (raw_column_name : string) (column_schema : schema) :
  known_name st raw_column_name = true ->
  exists_already (existing_columns st) raw_column_name column_schema = true ->
  upsert_column to_sql sql_shorthand make_nullable existing_schema table_name
    table_empty st raw_column_name column_schema = inr st.
Proof.
  unfold known_name, exists_already, upsert_column. cbv zeta. intros Hk He.
  assert (Hcol : negb (String.eqb raw_column_name (canonicalize_identifier raw_column_name))
                 && negb (in_list raw_column_name (existing_columns_raw_names st))
                 = false).
  { destruct (String.eqb _ _); [reflexivity|].
    cbn [orb] in Hk. now rewrite Hk. }
  rewrite Hcol. cbn [andb].
  destruct (same_sql to_sql (existing_columns st) (canonicalize_identifier raw_column_name)
              column_schema); [reflexivity|].
  destruct (same_sql to_sql (existing_columns st)
              (_mapping_name sql_shorthand (canonicalize_identifier raw_column_name)
                 column_schema) column_schema); [reflexivity|].
  destruct (same_sql to_sql (existing_columns st) (canonicalize_identifier raw_column_name)
              (make_nullable column_schema)); [reflexivity|].
  cbn [orb] in He. now rewrite He.
Qed.

Lemma same_sql_set (cols : list (string * schema)) (name : string) (e s : schema) :
  same_sql to_sql (dict_set cols name e) name s = String.eqb (to_sql s) (to_sql e).
Proof. unfold same_sql. now rewrite lookup_set_same. Qed.

Lemma step_leaves_column (existing_schema : TABLE_SCHEMA schema)
    (table_name : string) (table_empty : bool) (st st' : @upsert_state schema connection)
    (raw_column_name : string) (column_schema : schema) :
  upsert_column to_sql sql_shorthand make_nullable existing_schema table_name
    table_empty st raw_column_name column_schema = inr st' ->
  exists_already (existing_columns st') raw_column_name column_schema = true.
Proof.
  intro H. apply upsert_column_cases in H.
  destruct H as [[-> H]|[(e & He & Hn & Hc & _)|[(e & He & Hc & _)|
                [(Hcan & _ & Hc & _)|(Hcan & _ & [Hc|Hc] & _)]]]]; [exact H| | | | |];
    unfold exists_already; cbv zeta; rewrite Hc.
  - rewrite !same_sql_set, Hn. now rewrite !orb_true_r.
  - assert (Hlast : same_sql to_sql
              (dict_del
                 (dict_set
                    (dict_set (existing_columns st)
                       (_mapping_name sql_shorthand
                          (canonicalize_identifier raw_column_name) e)
                       (make_nullable e))
                    (_mapping_name sql_shorthand
                       (canonicalize_identifier raw_column_name) column_schema)
                    (make_nullable column_schema))
                 (canonicalize_identifier raw_column_name))
              (_mapping_name sql_shorthand (canonicalize_identifier raw_column_name)
                 column_schema)
              (make_nullable column_schema) = true).
    { unfold same_sql. rewrite lookup_del_other by apply name_not_mapping_name.
      rewrite lookup_set_same. apply String.eqb_refl. }
    rewrite Hlast. now rewrite !orb_true_r.
  - rewrite !same_sql_set, String.eqb_refl. now rewrite !orb_true_r.
  - rewrite !same_sql_set, String.eqb_refl. reflexivity.
  - rewrite !same_sql_set, String.eqb_refl. now rewrite !orb_true_r.
Qed.

(** X15.  A step that returns leaves a column for the local one: in the
    upserter's view of the remote, the canonical name or the typed name then
    has the SQL type of the local column or of its nullable form, which is
    what the four EXISTING COLUMNS tests ask for. *)
Theorem upsert_column_leaves_column (existing_schema : TABLE_SCHEMA schema)
    (table_name : string) (table_empty : bool) (st st' : @upsert_state schema connection)
    (raw_column_name : string) (column_schema : schema) :
  upsert_column to_sql sql_shorthand make_nullable existing_schema table_name
    table_empty st raw_column_name column_schema = inr st' ->
  exists_already (existing_columns st') raw_column_name column_schema = true.
Proof. apply step_leaves_column. Qed.

(** X16.  A step changes no column but those of its own name: a column
    that is neither the canonical name nor a typed name of it has, after the
    step, the schema it had. *)
Theorem upsert_column_keeps_other_columns (existing_schema : TABLE_SCHEMA schema)
    (table_name : string) (table_empty : bool) (st st' : @upsert_state schema connection)
    (raw_column_name : string) (column_schema : schema) (other : string) :
  upsert_column to_sql sql_shorthand make_nullable existing_schema table_name
    table_empty st raw_column_name column_schema = inr st' ->
  other <> canonicalize_identifier raw_column_name ->
  (forall s, other <> _mapping_name sql_shorthand
                        (canonicalize_identifier raw_column_name) s) ->
  dict_lookup (existing_columns st') other = dict_lookup (existing_columns st) other.
Proof.
  intros H Hcan Htyped. apply upsert_column_cases in H.
  destruct H as [[-> H]|[(e & He & Hn & Hc & _)|[(e & He & Hc & _)|
                [(_ & _ & Hc & _)|(_ & _ & [Hc|Hc] & _)]]]]; [reflexivity| | | | |];
    rewrite Hc.
  - now apply lookup_set_other.
  - rewrite lookup_del_other by exact Hcan.
    rewrite !lookup_set_other by apply Htyped. reflexivity.
  - now apply lookup_set_other.
  - now apply lookup_set_other.
  - now apply lookup_set_other.
Qed.

Lemma in_list_app (x : string) (l l' : list string) :
  in_list x l = true -> in_list x (l ++ l') = true.
Proof. unfold in_list. rewrite existsb_app. now intros ->. Qed.

(** X17.  A step is idempotent for a column whose raw name is a valid
    identifier or the source of a mapping: taken again on what it left, it
    changes nothing. *)
Theorem upsert_column_idempotent (existing_schema : TABLE_SCHEMA schema)
    (table_name : string) (table_empty : bool) (st st' : @upsert_state schema connection)
    (raw_column_name : string) (column_schema : schema) :
  known_name st raw_column_name = true ->
  upsert_column to_sql sql_shorthand make_nullable existing_schema table_name
    table_empty st raw_column_name column_schema = inr st' ->
  upsert_column to_sql sql_shorthand make_nullable existing_schema table_name
    table_empty st' raw_column_name column_schema = inr st'.
Proof.
  intros Hk H. pose proof (step_leaves_column _ _ _ _ _ _ H) as Hleft.
  apply upsert_column_noop; [|exact Hleft].
  apply upsert_column_cases in H. unfold known_name in *.
  destruct H as [[-> H]|[(e & _ & _ & _ & ->)|[(e & _ & _ & ->)|
                [(_ & _ & _ & ->)|(_ & Hin & _ & Hn)]]]]; try exact Hk.
  - apply orb_true_iff in Hk as [Hk|Hk]; [now rewrite Hk|].
    rewrite (@in_list_app raw_column_name (existing_columns_raw_names st) _ Hk).
    apply orb_true_r.
  - rewrite Hin, orb_false_r in Hk. rewrite Hk. reflexivity.
Qed.

Lemma get_mapping_fold (field : string) (s : schema) (ms : list (string * mapping schema)) :
  forall acc,
    let step := fun (found : option string) (entry : string * mapping schema) =>
                  if String.eqb (from (snd entry)) field
                     && String.eqb (sql_shorthand (mapped_type (snd entry)))
                                   (sql_shorthand s)
                  then Some (fst entry) else found in
    (forall to_field, fold_left step ms acc = Some to_field ->
       acc = Some to_field
       \/ exists mp, In (to_field, mp) ms /\ from mp = field
                     /\ sql_shorthand (mapped_type mp) = sql_shorthand s)
    /\ (fold_left step ms acc = None ->
        acc = None
        /\ forall to_field mp, In (to_field, mp) ms ->
             ~ (from mp = field /\ sql_shorthand (mapped_type mp) = sql_shorthand s)).
Proof.
  induction ms as [|[to_field0 mp0] ms IH]; intros acc step; cbn [fold_left].
  - split; [intros t H; now left | intro H; split; [exact H | intros ? ? []]].
  - destruct (IH (step acc (to_field0, mp0))) as [IHs IHn]. fold step in IHs, IHn.
    split.
    + intros t H. apply IHs in H as [H|(mp & Hin & Hf & Hs)].
      * unfold step in H. cbn [fst snd] in H.
        destruct (String.eqb_spec (from mp0) field) as [Ef|_]; cbn [andb] in H;
          [|now left].
        destruct (String.eqb_spec (sql_shorthand (mapped_type mp0)) (sql_shorthand s))
          as [Es|_]; [|now left].
        injection H as <-. right. exists mp0. repeat split; [now left | | ]; assumption.
      * right. exists mp. repeat split; [now right | | ]; assumption.
    + intro H. apply IHn in H as [H Hno]. unfold step in H. cbn [fst snd] in H.
      destruct (String.eqb_spec (from mp0) field) as [Ef|Ef]; cbn [andb] in H.
      * destruct (String.eqb_spec (sql_shorthand (mapped_type mp0)) (sql_shorthand s))
          as [Es|Es]; [discriminate|].
        split; [exact H|]. intros t mp [[= <- <-]|Hin]; [tauto | exact (Hno t mp Hin)].
      * split; [exact H|]. intros t mp [[= <- <-]|Hin]; [tauto | exact (Hno t mp Hin)].
Qed.

(** X18.  [_get_mapping] finds the column a field was mapped to: the name
    it returns is a mapping from that field whose type has the shorthand
    asked for, and it returns nothing only when there is no such mapping. *)
Theorem get_mapping_finds (existing_schema : TABLE_SCHEMA schema) (field : string)
    (s : schema) :
  (forall to_field,
      _get_mapping sql_shorthand existing_schema field s = Some to_field ->
      exists ms mp,
        mappings existing_schema = Some ms /\ In (to_field, mp) ms
        /\ from mp = field /\ sql_shorthand (mapped_type mp) = sql_shorthand s)
  /\ (_get_mapping sql_shorthand existing_schema field s = None ->
      forall ms to_field mp,
        mappings existing_schema = Some ms -> In (to_field, mp) ms ->
        ~ (from mp = field /\ sql_shorthand (mapped_type mp) = sql_shorthand s)).
Proof.
  unfold _get_mapping. destruct (mappings existing_schema) as [ms|].
  - destruct (get_mapping_fold field s ms None) as [Hs Hn]. split.
    + intros t H. apply Hs in H as [H|(mp & Hin & Hf & Hsh)]; [discriminate|].
      exists ms, mp. repeat split; assumption.
    + intros H ms' t mp [= <-] Hin. now apply (proj2 (Hn H) t mp).
  - split; [discriminate | intros _ ms t mp H; discriminate H].
Qed.

End Step.

#[local] Existing Instance Remote.in_memory.

(** Table [users] with the columns [age: integer] and [name: string] and one
    row, and the same table after the step for the local column
    [age: string]. *)
Definition users_two_columns : Remote.remote :=
  [("users", {| Remote.columns := [("age", Remote.integer); ("name", Remote.string_)];
                Remote.column_mappings := [];
                Remote.rows := [[("age", VInt 41); ("name", VStr "Ann")]] |})].

Definition users_two_columns_split : Remote.remote :=
  [("users",
    {| Remote.columns := [("name", Remote.string_);
                          ("age__i", UpsertExamples.nullable_integer);
                          ("age__s", UpsertExamples.nullable_string)];
       Remote.column_mappings :=
         [("age__i", {| from := "age"; mapped_type := UpsertExamples.nullable_integer |});
          ("age__s", {| from := "age"; mapped_type := UpsertExamples.nullable_string |})];
       Remote.rows := [[("name", VStr "Ann"); ("age__i", VInt 41)]] |})].

(** The upserter's view of that table before and after the step. *)
Definition users_before_split : @upsert_state JsonSchema.schema Remote.remote :=
  {| remote := users_two_columns;
     existing_columns := [("age", Remote.integer); ("name", Remote.string_)];
     existing_columns_raw_names := [] |}.

Definition users_after_split : @upsert_state JsonSchema.schema Remote.remote :=
  {| remote := users_two_columns_split;
     existing_columns := [("name", Remote.string_);
                          ("age__i", UpsertExamples.nullable_integer);
                          ("age__s", UpsertExamples.nullable_string)];
     existing_columns_raw_names := [] |}.

Definition users_schema : TABLE_SCHEMA JsonSchema.schema :=
  {| name := "users"; mappings := Some [];
     properties := [("age", Remote.integer); ("name", Remote.string_)] |}.

Lemma age_string_step :
  upsert_column JsonSchema.to_sql JsonSchema.sql_shorthand JsonSchema.make_nullable
    users_schema "users" false users_before_split "age" Remote.string_
  = inr users_after_split.
Proof. vm_compute. reflexivity. Qed.

(** [upsert_column_leaves_column] at the step for [age: string] against the
    remote column [age: integer]. *)
Lemma upsert_column_leaves_column_witness :
  upsert_column JsonSchema.to_sql JsonSchema.sql_shorthand JsonSchema.make_nullable
    users_schema "users" false users_before_split "age" Remote.string_
  = inr users_after_split
  /\ exists_already JsonSchema.to_sql JsonSchema.sql_shorthand JsonSchema.make_nullable
       (existing_columns users_after_split) "age" Remote.string_ = true.
Proof.
  exact (conj age_string_step
           (@upsert_column_leaves_column _ JsonSchema.to_sql JsonSchema.sql_shorthand
              JsonSchema.make_nullable _ _ users_schema "users" false
              users_before_split users_after_split "age" Remote.string_
              age_string_step)).
Defined.

(** [upsert_column_keeps_other_columns] at the same step, for the column
    [name]. *)
Lemma upsert_column_keeps_other_columns_witness :
  "name" <> canonicalize_identifier "age"
  /\ (forall s, "name" <> _mapping_name JsonSchema.sql_shorthand
                            (canonicalize_identifier "age") s)
  /\ dict_lookup (existing_columns users_after_split) "name" = Some Remote.string_.
Proof.
  assert (H1 : "name" <> canonicalize_identifier "age") by discriminate.
  assert (H2 : forall s, "name" <> _mapping_name JsonSchema.sql_shorthand
                                     (canonicalize_identifier "age") s)
    by (intro s; discriminate).
  exact (conj H1 (conj H2
           (@upsert_column_keeps_other_columns _ JsonSchema.to_sql
              JsonSchema.sql_shorthand JsonSchema.make_nullable _ _ users_schema
              "users" false users_before_split users_after_split "age" Remote.string_
              "name" age_string_step H1 H2))).
Defined.

(** [upsert_column_idempotent] at the same step. *)
Lemma upsert_column_idempotent_witness :
  known_name users_before_split "age" = true
  /\ upsert_column JsonSchema.to_sql JsonSchema.sql_shorthand JsonSchema.make_nullable
       users_schema "users" false users_after_split "age" Remote.string_
     = inr users_after_split.
Proof.
  assert (H : known_name users_before_split "age" = true) by reflexivity.
  exact (conj H
           (@upsert_column_idempotent _ JsonSchema.to_sql JsonSchema.sql_shorthand
              JsonSchema.make_nullable _ _ users_schema "users" false
              users_before_split users_after_split "age" Remote.string_
              H age_string_step)).
Defined.

End UpsertStepFacts.

(** ** Columns added, tables swapped *)
Module TablesFacts.
Import SingerStream Postgres PostgresTables DictFacts.

Section Merge.

Variable to_sql : value -> string.

Lemma mem_set_other (d : dict) (k k' : string) (v : value) :
  k' <> k -> dict_mem (dict_set d k v) k' = dict_mem d k'.
Proof. intro H. unfold dict_mem. now rewrite lookup_set_other. Qed.

Lemma merge_keeps (table_name : string) (new_properties : dict) :
  forall (existing_properties : dict) (prop : string) (s : value),
    dict_lookup existing_properties prop = Some s ->
    dict_lookup (merged_properties
                   (merge_put_schemas to_sql table_name existing_properties
                      new_properties)) prop = Some s
    /\ forall data_type default_value,
         ~ In (AddColumn table_name prop data_type default_value)
              (added (merge_put_schemas to_sql table_name existing_properties
                        new_properties)).
Proof.
  induction new_properties as [|[p n] rest IH]; intros existing prop s H;
    cbn [merge_put_schemas].
  - cbn [merged_properties added]. split; [exact H | intros ? ? []].
  - unfold dict_mem. destruct (dict_lookup existing p) eqn:Ep.
    + now apply IH.
    + assert (Hne : prop <> p) by (intros ->; congruence).
      assert (H' : dict_lookup (dict_set existing p n) prop = Some s)
        by (now rewrite lookup_set_other).
      destruct (get_null_default p n) as [e|d]; cbn [merged_properties added].
      * split; [exact H' | intros ? ? []].
      * destruct (IH _ _ _ H') as [IH1 IH2]. split; [exact IH1|].
        intros dt dv [E|Hin]; [|now apply (IH2 dt dv)].
        unfold add_column in E. congruence.
Qed.

Lemma merge_covers (table_name : string) (new_properties : dict) :
  forall (existing_properties : dict),
    merge_error (merge_put_schemas to_sql table_name existing_properties new_properties)
    = None ->
    forall p, In p (keys new_properties) ->
      dict_mem (merged_properties
                  (merge_put_schemas to_sql table_name existing_properties
                     new_properties)) p = true.
Proof.
  induction new_properties as [|[p n] rest IH]; intros existing Herr q Hq;
    cbn [merge_put_schemas] in *.
  - destruct Hq.
  - destruct (dict_mem existing p) eqn:Em; cbv iota in *.
    + destruct Hq as [<-|Hq]; [|now apply IH].
      unfold dict_mem in Em. destruct (dict_lookup existing p) as [s|] eqn:Ep;
        [|discriminate].
      unfold dict_mem. cbn [fst].
      now rewrite (proj1 (@merge_keeps table_name rest existing p s Ep)).
    + destruct (get_null_default p n) as [e|d]; cbn [merge_error merged_properties] in *;
        [discriminate|].
      destruct Hq as [<-|Hq]; [|now apply IH].
      unfold dict_mem. cbn [fst].
      now rewrite (proj1 (@merge_keeps table_name rest (dict_set existing p n) p n
                            (lookup_set_same existing p n))).
Qed.

Lemma merge_nothing_new (table_name : string) (new_properties : dict) :
  forall (existing_properties : dict),
    (forall p, In p (keys new_properties) -> dict_mem existing_properties p = true) ->
    merge_put_schemas to_sql table_name existing_properties new_properties
    = {| merged_properties := existing_properties; added := []; merge_error := None |}.
Proof.
  induction new_properties as [|[p n] rest IH]; intros existing H;
    cbn [merge_put_schemas]; [reflexivity|].
  rewrite (H p) by now left. apply IH. intros q Hq. apply H. now right.
Qed.

(** X19.  [merge_put_schemas] never touches a column the table has: its
    schema after the call is the one it had, also when the new schema gives
    the property another type, and no [ADD COLUMN] is sent for it. *)
Theorem merge_keeps_existing_columns (table_name : string)
    (existing_properties new_properties : dict) (prop : string) (s : value) :
  dict_lookup existing_properties prop = Some s ->
  dict_lookup (merged_properties
                 (merge_put_schemas to_sql table_name existing_properties
                    new_properties)) prop = Some s
  /\ forall data_type default_value,
       ~ In (AddColumn table_name prop data_type default_value)
            (added (merge_put_schemas to_sql table_name existing_properties
                      new_properties)).
Proof. apply merge_keeps. Qed.

(** X20.  When [merge_put_schemas] returns, every property the table lacked
    has the schema of the new schema, and the statements sent are one
    [ADD COLUMN] for each of them, in the order of the new schema, with the
    SQL type of [to_sql] and the default of [get_null_default]. *)
Theorem merge_adds_missing_columns (table_name : string)
    (existing_properties new_properties : dict) :
  NoDup (keys new_properties) ->
  merge_error (merge_put_schemas to_sql table_name existing_properties new_properties)
  = None ->
  (forall p s, In (p, s) new_properties -> dict_lookup existing_properties p = None ->
     dict_lookup (merged_properties
                    (merge_put_schemas to_sql table_name existing_properties
                       new_properties)) p = Some s)
  /\ Forall2 (fun stmt kv =>
                exists default_value,
                  get_null_default (fst kv) (snd kv) = inr default_value
                  /\ stmt = add_column table_name (fst kv) (to_sql (snd kv)) default_value)
       (added (merge_put_schemas to_sql table_name existing_properties new_properties))
       (filter (fun kv => negb (dict_mem existing_properties (fst kv))) new_properties).
Proof.
  revert existing_properties.
  induction new_properties as [|[p n] rest IH]; intros existing Hnd Herr;
    cbn [merge_put_schemas filter fst] in *.
  - cbn [added]. split; [intros ? ? [] | constructor].
  - inversion Hnd as [|? ? Hnotin Hnd']; subst.
    destruct (dict_mem existing p) eqn:Em; cbn [negb]; cbv iota in *.
    + destruct (IH existing Hnd' Herr) as [IH1 IH2]. split; [|exact IH2].
      intros q s [[= <- <-]|Hin] Hq; [|now apply IH1].
      unfold dict_mem in Em. rewrite Hq in Em. discriminate.
    + destruct (get_null_default p n) as [e|d] eqn:Ed;
        cbn [merge_error merged_properties added] in *; [discriminate|].
      destruct (IH (dict_set existing p n) Hnd' Herr) as [IH1 IH2]. split.
      * intros q s [[= <- <-]|Hin] Hq.
        -- exact (proj1 (@merge_keeps table_name rest (dict_set existing p n) p n
                           (lookup_set_same existing p n))).
        -- apply IH1; [exact Hin|].
           rewrite lookup_set_other; [exact Hq|].
           intros ->. apply Hnotin. apply (in_map fst) in Hin. exact Hin.
      * constructor; [exists d; now split|].
        assert (Hfilter :
                  filter (fun kv => negb (dict_mem (dict_set existing p n) (fst kv))) rest
                  = filter (fun kv => negb (dict_mem existing (fst kv))) rest).
        { apply filter_ext_in. intros [q s] Hin. cbn [fst].
          rewrite mem_set_other; [reflexivity|].
          intros ->. apply Hnotin. apply (in_map fst) in Hin. exact Hin. }
        rewrite <- Hfilter. exact IH2.
Qed.

(** X21.  [merge_put_schemas] is idempotent: merging the same schema into
    what a call that returned has left sends no statement and changes no
    property. *)
Theorem merge_put_schemas_idempotent (table_name : string)
    (existing_properties new_properties : dict) :
  merge_error (merge_put_schemas to_sql table_name existing_properties new_properties)
  = None ->
  merge_put_schemas to_sql table_name
    (merged_properties
       (merge_put_schemas to_sql table_name existing_properties new_properties))
    new_properties
  = {| merged_properties :=
         merged_properties
           (merge_put_schemas to_sql table_name existing_properties new_properties);
       added := []; merge_error := None |}.
Proof. intro H. apply merge_nothing_new. now apply merge_covers. Qed.

(** X22.  A new column that [get_null_default] has no default for stops
    [merge_put_schemas]: the call raises, whatever else the schema holds. *)
Theorem column_without_default_stops_merge (table_name : string)
    (existing_properties new_properties : dict) (prop : string) (s : value)
    (e : raised) :
  NoDup (keys new_properties) ->
  In (prop, s) new_properties ->
  dict_lookup existing_properties prop = None ->
  get_null_default prop s = inl e ->
  merge_error (merge_put_schemas to_sql table_name existing_properties new_properties)
  <> None.
Proof.
  revert existing_properties.
  induction new_properties as [|[p n] rest IH]; intros existing Hnd Hin Hp He;
    [destruct Hin|].
  inversion Hnd as [|? ? Hnotin Hnd']; subst. cbn [merge_put_schemas].
  destruct Hin as [[= -> ->]|Hin].
  - unfold dict_mem. rewrite Hp, He. discriminate.
  - assert (Hne : prop <> p).
    { intros ->. apply Hnotin. apply (in_map fst) in Hin. exact Hin. }
    destruct (dict_mem existing p); [now apply IH|].
    destruct (get_null_default p n); cbn [merge_error]; [discriminate|].
    apply IH; try assumption. now rewrite lookup_set_other.
Qed.

(** For a schema without [default] whose [type] is a list,
    [get_null_default] is decided by [null] and by the first type alone:
    [None] when the list holds [null]; else the empty string for [string],
    ['FALSE'] for [boolean], and [PostgresError] for any other first type,
    whatever types follow it. *)
Lemma get_null_default_of_type_list (column : string) (schema : dict)
    (types : list value) :
  dict_lookup schema "default" = None ->
  dict_lookup schema "type" = Some (VList types) ->
  get_null_default column (VDict schema)
  = if existsb (is_str "null") types then inr VNone
    else match types with
         | [] => inl IndexError
         | t :: _ =>
             if is_str "string" t then inr (VStr "")
             else if is_str "boolean" t then inr (VStr "FALSE")
             else inl (Raised (PostgresError
                         "Non-trival default needed on new non-null column" None))
         end.
Proof.
  intros Hd Ht. unfold get_null_default. rewrite Hd, Ht. cbn [contains_null].
  destruct (existsb (is_str "null") types); [reflexivity|].
  cbn [is_str negb]. rewrite orb_true_r. cbn [item].
  destruct types as [|t rest]; reflexivity.
Qed.

(** X24.  When [upsert_table_schema] returns, the last statement it sent
    creates the temporary table it names, and every property of the schema
    it was given is a column of that table. *)
Theorem temp_table_has_streamed_columns (existing_table_schema : option dict)
    (uuid_hex table_name : string) (properties : dict)
    (key_properties : option (list string)) (table_version : value)
    (statements : list statement) (temp : string) :
  upsert_table_schema to_sql existing_table_schema uuid_hex table_name properties
    key_properties table_version = (statements, inr temp) ->
  temp = (table_name ++ NESTED_SEPARATOR ++ uuid_hex)%string
  /\ exists before columns comment,
       statements = (before ++ [CreateTable temp columns comment])%list
       /\ forall p, In p (keys properties) -> In p (map fst columns).
Proof.
  unfold upsert_table_schema, get_temp_table_name, create_table.
  destruct existing_table_schema as [existing|].
  - destruct (merge_error (merge_put_schemas to_sql table_name existing properties))
      eqn:E; [discriminate|].
    intros [= <- <-]. split; [reflexivity|].
    eexists _, _, _. split; [reflexivity|].
    intros p Hp. rewrite map_map. cbn [fst].
    pose proof (merge_covers table_name properties existing E p Hp) as Hm.
    unfold dict_mem in Hm.
    destruct (dict_lookup _ p) eqn:El; [|discriminate].
    apply lookup_in in El. apply (in_map fst) in El. exact El.
  - intros [= <- <-]. split; [reflexivity|].
    exists [CreateTable table_name
              (map (fun kv => (fst kv, to_sql (snd kv))) properties)
              match key_properties with
              | Some (k :: ks) => Some (k :: ks, table_version)
              | _ => None
              end].
    eexists _, _. split; [reflexivity|].
    intros p Hp. rewrite map_map. exact Hp.
Qed.

End Merge.

(** A stand-in for [to_sql] in worked examples: the first type name. *)
Definition first_type (s : value) : string :=
  match s with
  | VDict d => match py_get d "type" with
               | VList (VStr t :: _) => t
               | _ => ""
               end
  | _ => ""
  end.

Definition of_type (types : list string) : value :=
  VDict [("type", VList (map VStr types))].

(** The columns of a table [users], and a stream schema that retypes [id]
    and brings two properties the table lacks. *)
Definition users_columns : dict := [("id", of_type ["integer"])].

Definition users_stream_schema : dict :=
  [("id", of_type ["string"]); ("name", of_type ["null"; "string"]);
   ("active", of_type ["boolean"])].

(** The same stream schema with a property [age] that admits no null. *)
Definition users_with_age : dict :=
  (users_stream_schema ++ [("age", of_type ["integer"; "string"])])%list.

Lemma users_stream_schema_nodup : NoDup (keys users_stream_schema).
Proof. repeat constructor; cbn; intuition discriminate. Qed.

Lemma users_with_age_nodup : NoDup (keys users_with_age).
Proof. repeat constructor; cbn; intuition discriminate. Qed.

(** [merge_keeps_existing_columns] at the column [id] of [users]. *)
Lemma merge_keeps_existing_columns_witness :
  dict_lookup users_columns "id" = Some (of_type ["integer"])
  /\ dict_lookup users_stream_schema "id" = Some (of_type ["string"])
  /\ dict_lookup (merged_properties
                    (merge_put_schemas first_type "users" users_columns
                       users_stream_schema)) "id"
     = Some (of_type ["integer"]).
Proof.
  assert (H : dict_lookup users_columns "id" = Some (of_type ["integer"])) by reflexivity.
  assert (H' : dict_lookup users_stream_schema "id" = Some (of_type ["string"]))
    by reflexivity.
  exact (conj H (conj H'
           (proj1 (@merge_keeps_existing_columns first_type "users" users_columns
                     users_stream_schema "id" (of_type ["integer"]) H)))).
Defined.

(** [merge_adds_missing_columns] at the table [users]. *)
Lemma merge_adds_missing_columns_witness :
  merge_error (merge_put_schemas first_type "users" users_columns users_stream_schema)
  = None
  /\ Forall2 (fun stmt kv =>
                exists default_value,
                  get_null_default (fst kv) (snd kv) = inr default_value
                  /\ stmt = add_column "users" (fst kv) (first_type (snd kv))
                              default_value)
       [AddColumn "users" "name" "null" None;
        AddColumn "users" "active" "boolean" (Some (VStr "FALSE"))]
       [("name", of_type ["null"; "string"]); ("active", of_type ["boolean"])].
Proof.
  assert (H : merge_error (merge_put_schemas first_type "users" users_columns
                             users_stream_schema) = None) by reflexivity.
  exact (conj H (proj2 (@merge_adds_missing_columns first_type "users" users_columns
                          users_stream_schema users_stream_schema_nodup H))).
Defined.

(** [merge_put_schemas_idempotent] at the table [users]. *)
Lemma merge_put_schemas_idempotent_witness :
  merge_error (merge_put_schemas first_type "users" users_columns users_stream_schema)
  = None
  /\ added (merge_put_schemas first_type "users"
              (merged_properties
                 (merge_put_schemas first_type "users" users_columns
                    users_stream_schema))
              users_stream_schema)
     = [].
Proof.
  assert (H : merge_error (merge_put_schemas first_type "users" users_columns
                             users_stream_schema) = None) by reflexivity.
  exact (conj H (f_equal (@added)
                   (@merge_put_schemas_idempotent first_type "users" users_columns
                      users_stream_schema H))).
Defined.

(** [column_without_default_stops_merge] at the property [age] of type
    [["integer", "string"]]. *)
Lemma column_without_default_stops_merge_witness :
  In ("age", of_type ["integer"; "string"]) users_with_age
  /\ dict_lookup users_columns "age" = None
  /\ get_null_default "age" (of_type ["integer"; "string"])
     = inl (Raised (PostgresError
                      "Non-trival default needed on new non-null column" None))
  /\ merge_error (merge_put_schemas first_type "users" users_columns users_with_age)
     <> None.
Proof.
  assert (H1 : In ("age", of_type ["integer"; "string"]) users_with_age)
    by (do 3 right; now left).
  assert (H2 : dict_lookup users_columns "age" = None) by reflexivity.
  assert (H3 : get_null_default "age" (of_type ["integer"; "string"])
               = inl (Raised (PostgresError
                                "Non-trival default needed on new non-null column" None)))
    by reflexivity.
  exact (conj H1 (conj H2 (conj H3
           (@column_without_default_stops_merge first_type "users" users_columns
              users_with_age "age" (of_type ["integer"; "string"]) _
              users_with_age_nodup H1 H2 H3)))).
Defined.

(** [temp_table_has_streamed_columns] at the table [users]. *)
Lemma temp_table_has_streamed_columns_witness :
  exists statements,
    upsert_table_schema first_type (Some users_columns) "1b4e28ba" "users"
      users_stream_schema (Some ["id"]) (VInt 5)
    = (statements, inr "users__1b4e28ba")
    /\ exists before columns comment,
         statements = (before ++ [CreateTable "users__1b4e28ba" columns comment])%list
         /\ forall p, In p (keys users_stream_schema) -> In p (map fst columns).
Proof.
  eexists. split; [reflexivity|].
  exact (proj2 (@temp_table_has_streamed_columns first_type (Some users_columns)
                  "1b4e28ba" "users" users_stream_schema (Some ["id"]) (VInt 5)
                  _ "users__1b4e28ba" eq_refl)).
Defined.

Lemma skip_digits_uint (d : Decimal.uint) :
  skip_digits (NilEmpty.string_of_uint d ++ "_id") = "_id".
Proof. induction d; cbn; auto. Qed.

(** X25.  Of the columns the denester writes, [persist_rows] takes as
    subkeys exactly the level columns: [SINGER_LEVEL.format(i)] matches the
    pattern for every level from 0 on, and neither the column of level -1,
    nor a source key column, nor [_sdc_sequence] does. *)
Theorem level_columns_are_subkeys :
  (forall i, matches_level_pattern (SINGER_LEVEL i) = (0 <=? i))
  /\ (forall key, matches_level_pattern (SINGER_SOURCE_PK_PREFIX ++ key) = false)
  /\ matches_level_pattern SINGER_SEQUENCE = false.
Proof.
  split; [|split; [intro key; reflexivity | reflexivity]].
  intro i. unfold SINGER_LEVEL, matches_level_pattern.
  change (strip_prefix "_sdc_level_"
            ("_sdc_level_" ++ NilZero.string_of_int (Z.to_int i) ++ "_id"))
    with (Some (NilZero.string_of_int (Z.to_int i) ++ "_id")%string).
  destruct i as [|p|p]; [reflexivity| |].
  - cbn [Z.to_int NilZero.string_of_int]. unfold NilZero.string_of_uint.
    destruct (Pos.to_uint p) as [|d|d|d|d|d|d|d|d|d|d]; try reflexivity;
      cbn [NilEmpty.string_of_uint append];
      rewrite skip_digits_uint; reflexivity.
  - reflexivity.
Qed.

Lemma drop_prefix (p q : string) : drop_chars (String.length p) (p ++ q) = q.
Proof. induction p as [|c p IH]; cbn; [reflexivity | exact IH]. Qed.

(** The statement that swaps the table of [suffix] for its versioned one. *)
Definition swap_of (stream versioned_root_table suffix : string) : statement :=
  RenameDropCommit ((stream ++ suffix) ++ NESTED_SEPARATOR ++ "old") (stream ++ suffix)
    (versioned_root_table ++ suffix).

Lemma swap_tables_run (b : version_backend) (stream root : string)
    (done : list string) (tail : list string) :
  (forall suffix, In suffix done -> rename_drop_commit b (root ++ suffix) = None) ->
  swap_tables b stream root (map (append root) done ++ tail)
  = ((map (swap_of stream root) done ++ fst (swap_tables b stream root tail))%list,
     snd (swap_tables b stream root tail)).
Proof.
  induction done as [|suffix done IH]; intro H; cbn [map app swap_tables].
  - now destruct (swap_tables b stream root tail).
  - rewrite (H suffix) by now left. rewrite drop_prefix.
    rewrite IH by (intros x Hx; apply H; now right). reflexivity.
Qed.

(** X26.  [activate_version] swaps every table whose name starts with the
    versioned name of the stream: the table [stream ++ suffix] is renamed
    aside, the versioned table [stream__version ++ suffix] takes its name, and
    the old one is dropped, table by table in the order of the [SELECT]. *)
Theorem activate_version_swaps_tables (b : version_backend) (stream : string)
    (version : value) (table_metadata : table_metadata) (suffixes : list string) :
  begin b = None ->
  table_comment b = inr (Some table_metadata) ->
  py_eq (match meta_version table_metadata with Some v => VInt v | None => VNone end)
        version = false ->
  tables_like b ((stream ++ NESTED_SEPARATOR ++ py_str version) ++ "%")
  = inr (map (append (stream ++ NESTED_SEPARATOR ++ py_str version)) suffixes) ->
  (forall suffix, In suffix suffixes ->
     rename_drop_commit b ((stream ++ NESTED_SEPARATOR ++ py_str version) ++ suffix)
     = None) ->
  activate_version b stream version
  = (Begin
     :: SelectTablesLike ((stream ++ NESTED_SEPARATOR ++ py_str version) ++ "%")
     :: map (swap_of stream (stream ++ NESTED_SEPARATOR ++ py_str version)) suffixes,
     None).
Proof.
  intros Hb Hc Hv Hs Hr. unfold activate_version, activate_version_try.
  rewrite Hb, Hc, Hv, Hs.
  pose proof (@swap_tables_run b stream (stream ++ NESTED_SEPARATOR ++ py_str version)
                suffixes [] Hr) as H.
  rewrite !app_nil_r in H. cbn [swap_tables fst snd] in H.
  rewrite H. reflexivity.
Qed.

(** X27.  Activation is not atomic across tables: every swap ends with its
    own [COMMIT], so when the swap of one table raises, the swaps before it
    have been sent and committed; [ROLLBACK] follows them and
    [PostgresError] is raised around the exception. *)
Theorem failed_activation_keeps_earlier_swaps (b : version_backend) (stream : string)
    (version : value) (table_metadata : table_metadata) (done : list string)
    (failing : string) (rest : list string) (e : exception) :
  begin b = None ->
  table_comment b = inr (Some table_metadata) ->
  py_eq (match meta_version table_metadata with Some v => VInt v | None => VNone end)
        version = false ->
  tables_like b ((stream ++ NESTED_SEPARATOR ++ py_str version) ++ "%")
  = inr (map (append (stream ++ NESTED_SEPARATOR ++ py_str version)) done
         ++ failing :: rest)%list ->
  (forall suffix, In suffix done ->
     rename_drop_commit b ((stream ++ NESTED_SEPARATOR ++ py_str version) ++ suffix)
     = None) ->
  rename_drop_commit b failing = Some e ->
  rollback b = None ->
  activate_version b stream version
  = ((Begin
      :: SelectTablesLike ((stream ++ NESTED_SEPARATOR ++ py_str version) ++ "%")
      :: map (swap_of stream (stream ++ NESTED_SEPARATOR ++ py_str version)) done
      ++ [Rollback])%list,
     Some (PostgresError
             (stream ++ " - Exception activating table version " ++ py_str version)
             (Some e))).
Proof.
  intros Hb Hc Hv Hs Hr Hf Hroll. unfold activate_version, activate_version_try.
  rewrite Hb, Hc, Hv, Hs.
  rewrite (@swap_tables_run b stream (stream ++ NESTED_SEPARATOR ++ py_str version)
             done (failing :: rest) Hr).
  cbn [swap_tables]. rewrite Hf. cbn [fst snd]. rewrite Hroll, app_nil_r.
  reflexivity.
Qed.

(** For a stream whose table has no comment, or whose comment holds
    the version asked for, [activate_version] returns after [BEGIN]: it
    renames nothing, raises nothing, and sends neither [COMMIT] nor
    [ROLLBACK]. *)
Lemma activate_version_without_change (b : version_backend) (stream : string)
    (version : value) :
  begin b = None ->
  table_comment b = inr None
  \/ (exists table_metadata,
        table_comment b = inr (Some table_metadata)
        /\ py_eq (match meta_version table_metadata with
                  | Some v => VInt v
                  | None => VNone
                  end) version = true) ->
  activate_version b stream version = ([Begin], None).
Proof.
  intros Hb [Hc|(m & Hc & Hv)]; unfold activate_version, activate_version_try;
    rewrite Hb, Hc; [reflexivity|]. now rewrite Hv.
Qed.

(** A database with the tables [orders], [orders__11] and
    [orders__11__items], [orders] being at version 10. *)
Definition orders_at_10 : version_backend :=
  {| begin := None;
     table_comment := inr (Some {| meta_key_properties := ["id"];
                                   meta_version := Some 10 |});
     tables_like := fun _ => inr ["orders__11"; "orders__11__items"];
     rename_drop_commit := fun _ => None;
     rollback := None |}.

(** The same database, where the swap of [orders__11__items] fails. *)
Definition orders_items_locked : version_backend :=
  {| begin := None;
     table_comment := inr (Some {| meta_key_properties := ["id"];
                                   meta_version := Some 10 |});
     tables_like := fun _ => inr ["orders__11"; "orders__11__items"];
     rename_drop_commit :=
       fun t => if String.eqb t "orders__11__items"
                then Some (DriverError "lock timeout") else None;
     rollback := None |}.

(** [activate_version_swaps_tables] at [ACTIVATE_VERSION] 11 for [orders]. *)
Lemma activate_version_swaps_tables_witness :
  begin orders_at_10 = None
  /\ activate_version orders_at_10 "orders" (VInt 11)
     = ([Begin; SelectTablesLike "orders__11%";
         RenameDropCommit "orders__old" "orders" "orders__11";
         RenameDropCommit "orders__items__old" "orders__items" "orders__11__items"],
        None).
Proof.
  assert (H : begin orders_at_10 = None) by reflexivity.
  exact (conj H (@activate_version_swaps_tables orders_at_10 "orders" (VInt 11)
                   {| meta_key_properties := ["id"]; meta_version := Some 10 |}
                   [""; "__items"] H eq_refl eq_refl eq_refl (fun _ _ => eq_refl))).
Defined.

(** [failed_activation_keeps_earlier_swaps] at the same message, the swap of
    [orders__11__items] failing. *)
Lemma failed_activation_keeps_earlier_swaps_witness :
  rename_drop_commit orders_items_locked "orders__11__items"
  = Some (DriverError "lock timeout")
  /\ activate_version orders_items_locked "orders" (VInt 11)
     = ([Begin; SelectTablesLike "orders__11%";
         RenameDropCommit "orders__old" "orders" "orders__11"; Rollback],
        Some (PostgresError "orders - Exception activating table version 11"
                (Some (DriverError "lock timeout")))).
Proof.
  assert (H : rename_drop_commit orders_items_locked "orders__11__items"
              = Some (DriverError "lock timeout")) by reflexivity.
  assert (Hdone : forall suffix, In suffix [""] ->
                    rename_drop_commit orders_items_locked
                      (("orders" ++ NESTED_SEPARATOR ++ py_str (VInt 11)) ++ suffix)
                    = None).
  { intros suffix [<-|[]]. reflexivity. }
  exact (conj H (@failed_activation_keeps_earlier_swaps orders_items_locked "orders"
                   (VInt 11)
                   {| meta_key_properties := ["id"]; meta_version := Some 10 |}
                   [""] "orders__11__items" [] (DriverError "lock timeout")
                   eq_refl eq_refl eq_refl eq_refl Hdone H eq_refl)).
Defined.

End TablesFacts.

(** ** Rows as the remote takes them *)
Module RowsFacts.
Import Postgres SqlBase SqlBaseRows DictFacts.

Section Serializer.

Variable sql_shorthand : dict -> string.
Variable serialize_table_record_null_value :
  TABLE_SCHEMA dict -> TABLE_SCHEMA dict -> option string -> value -> value.
Variable serialize_table_record_datetime_value :
  TABLE_SCHEMA dict -> TABLE_SCHEMA dict -> string -> value -> value.
Variable set_order : list string -> list string.

(** A set holds the names it was built from, and no other. *)
Hypothesis set_order_names : forall l x, In x (set_order l) <-> In x l.

Variables remote_schema streamed_schema : TABLE_SCHEMA dict.

Let remote_fields := set_order (keys (properties remote_schema)).
Let fields :=
  set_order (keys (properties remote_schema) ++ keys (properties streamed_schema)).
Let NULL_DEFAULT :=
  serialize_table_record_null_value remote_schema streamed_schema None VNone.
Let default_row :=
  fold_left (fun row field => dict_set row field NULL_DEFAULT) remote_fields [].
Let field_name :=
  _serialize_table_record_field_name sql_shorthand remote_schema streamed_schema.

Lemma mem_keys (d : dict) (x : string) : dict_mem d x = true <-> In x (keys d).
Proof.
  unfold dict_mem. destruct (dict_lookup d x) eqn:E.
  - split; [intros _|reflexivity]. apply lookup_in in E.
    apply (in_map fst) in E. exact E.
  - split; [discriminate|]. intro H. now apply lookup_none_not_in in E.
Qed.

Lemma fold_set_keys (l : list string) (v : value) :
  forall (row : dict) (x : string),
    In x (keys (fold_left (fun row field => dict_set row field v) l row))
    <-> In x (keys row) \/ In x l.
Proof.
  induction l as [|f l IH]; intros row x; cbn [fold_left].
  - cbn [In]. tauto.
  - rewrite IH, keys_set. cbn [In].
    destruct (dict_mem row f) eqn:E.
    + apply mem_keys in E. split; [tauto|]. intros [H|[<-|H]]; tauto.
    + rewrite in_app_iff. cbn [In]. tauto.
Qed.

Lemma default_row_keys (x : string) :
  In x (keys default_row) <-> In x (keys (properties remote_schema)).
Proof.
  unfold default_row. rewrite fold_set_keys. cbn [keys map In].
  unfold remote_fields. rewrite set_order_names. tauto.
Qed.

Lemma in_remote_fields (x : string) :
  in_list x remote_fields = true <-> In x (keys (properties remote_schema)).
Proof.
  unfold remote_fields. rewrite <- set_order_names. apply UpsertFacts.in_list_In.
Qed.

(** One field: the row keeps its keys, or [KeyError] for a name that is no
    column. *)
Lemma serialize_field_keys (record row : dict) (field : string) :
  keys row = keys default_row ->
  match serialize_field sql_shorthand serialize_table_record_null_value
          serialize_table_record_datetime_value remote_schema streamed_schema
          NULL_DEFAULT remote_fields record row field with
  | inr row' => keys row' = keys default_row
                /\ In (field_name field) (keys (properties remote_schema))
  | inl e => e = KeyError (field_name field)
             /\ ~ In (field_name field) (keys (properties remote_schema))
  end.
Proof.
  intro Hk. unfold serialize_field. fold field_name.
  assert (Hmem : dict_mem row (field_name field) = true
                 <-> In (field_name field) (keys (properties remote_schema))).
  { rewrite mem_keys, Hk. apply default_row_keys. }
  destruct (in_list (field_name field) remote_fields) eqn:Ein; cbn [andb].
  - apply in_remote_fields in Ein. rewrite (proj2 Hmem Ein). cbn [negb].
    pose proof (proj2 Hmem Ein) as Hm. unfold dict_mem in Hm.
    destruct (dict_lookup row (field_name field)) eqn:El; [|discriminate].
    destruct (py_eq v NULL_DEFAULT); split; try exact Ein; try exact Hk.
    rewrite keys_set, (proj2 Hmem Ein). exact Hk.
  - assert (Hnot : ~ In (field_name field) (keys (properties remote_schema))).
    { intro H. apply in_remote_fields in H. congruence. }
    destruct (dict_lookup row (field_name field)) eqn:El.
    + exfalso. apply Hnot, Hmem. unfold dict_mem. now rewrite El.
    + split; [reflexivity | exact Hnot].
Qed.

Lemma serialize_fields_total (record : dict) (l : list string) :
  forall row,
    keys row = keys default_row ->
    (forall f, In f l -> In (field_name f) (keys (properties remote_schema))) ->
    exists row',
      serialize_fields sql_shorthand serialize_table_record_null_value
        serialize_table_record_datetime_value remote_schema streamed_schema
        NULL_DEFAULT remote_fields record row l = inr row'
      /\ keys row' = keys default_row.
Proof.
  induction l as [|f l IH]; intros row Hk Hall; cbn [serialize_fields].
  - now exists row.
  - pose proof (@serialize_field_keys record row f Hk) as H.
    destruct (serialize_field _ _ _ _ _ _ _ _ _ _) as [e|row'].
    + destruct H as [_ H]. exfalso. apply H, Hall. now left.
    + destruct H as [Hk' _]. apply IH; [exact Hk'|].
      intros g Hg. apply Hall. now right.
Qed.

Lemma serialize_fields_raises (record : dict) (l : list string) :
  forall row,
    keys row = keys default_row ->
    (exists f, In f l /\ ~ In (field_name f) (keys (properties remote_schema))) ->
    exists k,
      serialize_fields sql_shorthand serialize_table_record_null_value
        serialize_table_record_datetime_value remote_schema streamed_schema
        NULL_DEFAULT remote_fields record row l = inl (KeyError k)
      /\ ~ In k (keys (properties remote_schema)).
Proof.
  induction l as [|f l IH]; intros row Hk (g & Hg & Hnot); [destruct Hg|].
  cbn [serialize_fields].
  pose proof (@serialize_field_keys record row f Hk) as H.
  destruct (serialize_field _ _ _ _ _ _ _ _ _ _) as [e|row'].
  - destruct H as [-> H]. now exists (field_name f).
  - destruct H as [Hk' Hin]. apply IH; [exact Hk'|].
    destruct Hg as [->|Hg]; [contradiction|]. now exists g.
Qed.

(** X29.  When every field of the remote and of the streamed schema has a
    column of the remote (its own name or the one it is mapped to),
    [_serialize_table_records] returns one row per record, and all rows have
    one and the same list of keys, which holds the properties of the remote
    schema and nothing else. *)
Theorem serialized_rows_have_remote_columns (records : list dict) :
  (forall f, In f fields -> In (field_name f) (keys (properties remote_schema))) ->
  exists rows columns,
    _serialize_table_records sql_shorthand serialize_table_record_null_value
      serialize_table_record_datetime_value set_order remote_schema streamed_schema
      records = inr rows
    /\ List.length rows = List.length records
    /\ (forall x, In x columns <-> In x (keys (properties remote_schema)))
    /\ Forall (fun row => keys row = columns) rows.
Proof.
  intro Hall. unfold _serialize_table_records.
  fold remote_fields. fold fields. fold NULL_DEFAULT. fold default_row.
  assert (H : exists rows,
             serialize_rows sql_shorthand serialize_table_record_null_value
               serialize_table_record_datetime_value remote_schema streamed_schema
               NULL_DEFAULT remote_fields fields default_row records = inr rows
             /\ List.length rows = List.length records
             /\ Forall (fun row => keys row = keys default_row) rows).
  { induction records as [|record rest IH]; cbn [serialize_rows].
    - exists []. repeat split. constructor.
    - destruct (@serialize_fields_total record fields default_row eq_refl Hall)
        as (row & -> & Hk).
      destruct IH as (rows & -> & Hlen & Hrows).
      exists (row :: rows). cbn [List.length]. repeat split;
        [now rewrite Hlen | now constructor]. }
  destruct H as (rows & Hs & Hlen & Hrows).
  exists rows, (keys default_row). repeat split; try assumption; apply default_row_keys.
Qed.

(** X30.  A field that has no column of the remote stops
    [_serialize_table_records] at the first record: [row[field_name]] raises
    [KeyError] for a name that is no property of the remote schema. *)
Theorem field_without_column_raises (record : dict) (records : list dict) (f : string) :
  In f fields ->
  ~ In (field_name f) (keys (properties remote_schema)) ->
  exists k,
    _serialize_table_records sql_shorthand serialize_table_record_null_value
      serialize_table_record_datetime_value set_order remote_schema streamed_schema
      (record :: records) = inl (KeyError k)
    /\ ~ In k (keys (properties remote_schema)).
Proof.
  intros Hf Hnot. unfold _serialize_table_records.
  fold remote_fields. fold fields. fold NULL_DEFAULT. fold default_row.
  cbn [serialize_rows].
  destruct (@serialize_fields_raises record fields default_row eq_refl
              (ex_intro _ f (conj Hf Hnot))) as (k & -> & Hk).
  now exists k.
Qed.

End Serializer.

(** A shorthand for worked examples: [s] for [string], [i] for [integer]. *)
Definition shorthand (s : dict) : string :=
  match py_get s "type" with
  | VList [VStr "string"] => "s"
  | VList [VStr "integer"] => "i"
  | _ => ""
  end.

Definition typed (t : string) : dict := [("type", VList [VStr t])].

(** The remote table [users] after the split of [age], and the streamed
    schema with [age: string]. *)
Definition users_remote : TABLE_SCHEMA dict :=
  {| name := "users";
     mappings := Some [("age__i", {| from := "age"; mapped_type := typed "integer" |});
                       ("age__s", {| from := "age"; mapped_type := typed "string" |})];
     properties := [("id", typed "integer"); ("age__i", typed "integer");
                    ("age__s", typed "string")] |}.

Definition users_streamed : TABLE_SCHEMA dict :=
  {| name := "users"; mappings := Some [];
     properties := [("id", typed "integer"); ("age", typed "string")] |}.

(** The same streamed schema with a property [email], which the remote does
    not have. *)
Definition users_streamed_email : TABLE_SCHEMA dict :=
  {| name := "users"; mappings := Some [];
     properties := [("id", typed "integer"); ("email", typed "string")] |}.

Definition as_given (_ _ : TABLE_SCHEMA dict) (_ : option string) (v : value) : value := v.
Definition datetime_as_given (_ _ : TABLE_SCHEMA dict) (_ : string) (v : value) : value := v.
Definition first_seen (l : list string) : list string := nodup string_dec l.

Lemma first_seen_names (l : list string) (x : string) : In x (first_seen l) <-> In x l.
Proof. apply nodup_In. Qed.

(** [serialized_rows_have_remote_columns] at the record
    [{"id": 1, "age": "41"}] of [users]. *)
Lemma serialized_rows_have_remote_columns_witness :
  (forall f,
      In f (first_seen (keys (properties users_remote)
                        ++ keys (properties users_streamed))) ->
      In (_serialize_table_record_field_name shorthand users_remote users_streamed f)
         (keys (properties users_remote)))
  /\ _serialize_table_records shorthand as_given datetime_as_given first_seen
       users_remote users_streamed [[("id", VInt 1); ("age", VStr "41")]]
     = inr [[("id", VInt 1); ("age__i", VNone); ("age__s", VStr "41")]]
  /\ exists rows columns,
       _serialize_table_records shorthand as_given datetime_as_given first_seen
         users_remote users_streamed [[("id", VInt 1); ("age", VStr "41")]]
       = inr rows
       /\ List.length rows = 1%nat
       /\ (forall x, In x columns <-> In x (keys (properties users_remote)))
       /\ Forall (fun row => keys row = columns) rows.
Proof.
  assert (H : forall f,
             In f (first_seen (keys (properties users_remote)
                               ++ keys (properties users_streamed))) ->
             In (_serialize_table_record_field_name shorthand users_remote
                   users_streamed f)
                (keys (properties users_remote))).
  { intros f Hf. vm_compute in Hf.
    repeat (destruct Hf as [<-|Hf]; [vm_compute; tauto|]). destruct Hf. }
  exact (conj H (conj eq_refl
           (@serialized_rows_have_remote_columns shorthand as_given datetime_as_given
              first_seen first_seen_names users_remote users_streamed
              [[("id", VInt 1); ("age", VStr "41")]] H))).
Defined.

(** [field_without_column_raises] at the field [email]. *)
Lemma field_without_column_raises_witness :
  In "email" (first_seen (keys (properties users_remote)
                          ++ keys (properties users_streamed_email)))
  /\ ~ In (_serialize_table_record_field_name shorthand users_remote
             users_streamed_email "email")
          (keys (properties users_remote))
  /\ exists k,
       _serialize_table_records shorthand as_given datetime_as_given first_seen
         users_remote users_streamed_email [[("id", VInt 1); ("email", VStr "a@b")]]
       = inl (KeyError k)
       /\ ~ In k (keys (properties users_remote)).
Proof.
  assert (H1 : In "email" (first_seen (keys (properties users_remote)
                                       ++ keys (properties users_streamed_email))))
    by (vm_compute; tauto).
  assert (H2 : ~ In (_serialize_table_record_field_name shorthand users_remote
                       users_streamed_email "email")
                    (keys (properties users_remote)))
    by (vm_compute; intuition discriminate).
  exact (conj H1 (conj H2
           (@field_without_column_raises shorthand as_given datetime_as_given
              first_seen first_seen_names users_remote users_streamed_email
              [("id", VInt 1); ("email", VStr "a@b")] [] "email" H1 H2))).
Defined.

End RowsFacts.

(** ** How often the line loop flushes *)
Module LoopFacts.
Import TargetTools.

Definition is_flush (e : event) : bool :=
  match e with Flushed => true | _ => false end.

(** The number of calls of [flush_streams()] among the events. *)
Definition flushes (events : list event) : Z :=
  Z.of_nat (List.length (filter is_flush events)).

(** The multiples of [t] below [m]. *)
Definition multiples_below (t m : Z) : Z := (m + t - 1) / t.

Lemma multiples_step (t c : Z) :
  0 < t -> 0 <= c ->
  multiples_below t (c + 1)
  = multiples_below t c + (if c mod t =? 0 then 1 else 0).
Proof.
  intros Ht Hc. unfold multiples_below.
  pose proof (Z.div_mod c t ltac:(lia)) as Hdm.
  pose proof (Z.mod_pos_bound c t Ht) as Hb.
  replace (c + 1 + t - 1) with (c mod t + (c / t + 1) * t) by lia.
  replace (c + t - 1) with ((c mod t + t - 1) + (c / t) * t) by lia.
  rewrite !Z.div_add by lia.
  destruct (Z.eqb_spec (c mod t) 0) as [E|E].
  - rewrite E. rewrite Z.div_0_l by lia.
    replace (0 + t - 1) with (t - 1) by lia.
    rewrite (Z.div_small (t - 1) t) by lia. lia.
  - rewrite (Z.div_small (c mod t) t) by lia.
    replace (c mod t + t - 1) with ((c mod t - 1) + 1 * t) by lia.
    rewrite Z.div_add by lia.
    rewrite (Z.div_small (c mod t - 1) t) by lia. lia.
Qed.

Section Loop.

Variable line : Type.
Variable _line_handler : Z -> line -> option exception.
Variable flush_streams : Z -> bool -> option exception.

Hypothesis handler_returns : forall line_count line_data,
    _line_handler line_count line_data = None.
Hypothesis flush_returns : forall line_count force,
    flush_streams line_count force = None.

Lemma flushes_cons (e : event) (events : list event) :
  flushes (e :: events) = (if is_flush e then 1 else 0) + flushes events.
Proof.
  unfold flushes. cbn [filter]. destruct (is_flush e); cbn [List.length]; lia.
Qed.

Lemma lines_loop_flushes (t : Z) (lines : list line) :
  0 < t ->
  forall c, 0 < c ->
    snd (lines_loop _line_handler flush_streams t lines c) = None
    /\ flushes (fst (lines_loop _line_handler flush_streams t lines c))
       = multiples_below t (c + Z.of_nat (List.length lines)) - multiples_below t c.
Proof.
  intro Ht. induction lines as [|l rest IH]; intros c Hc; cbn [lines_loop].
  - cbn [fst snd List.length]. split; [reflexivity|].
    unfold flushes. cbn. replace (c + 0) with c by lia. lia.
  - rewrite handler_returns.
    destruct (Z.ltb_spec 0 c); [|lia].
    destruct (Z.eqb_spec t 0); [lia|].
    destruct (IH (c + 1) ltac:(lia)) as [IHs IHf].
    pose proof (@multiples_step t c Ht ltac:(lia)) as Hstep.
    replace (c + Z.of_nat (List.length (l :: rest)))
      with (c + 1 + Z.of_nat (List.length rest)) by (cbn [List.length]; lia).
    destruct (c mod t =? 0).
    + rewrite flush_returns. cbn [fst snd app]. split; [exact IHs|].
      rewrite !flushes_cons. cbn [is_flush]. rewrite IHf. lia.
    + cbn [fst snd app]. split; [exact IHs|].
      rewrite !flushes_cons. cbn [is_flush]. rewrite IHf. lia.
Qed.

(** X23.  With a threshold [t > 0] and collaborators that return,
    [stream_to_target] runs to its end for any lines: for [n >= 1] lines it
    calls [flush_streams()] [(n - 1) / t] times, then makes the forced flush
    and reports the invalid records. *)
Theorem flush_cadence (t : Z) (first : line) (rest : list line) :
  0 < t ->
  exists events,
    stream_to_target _line_handler flush_streams t (first :: rest)
    = ((events ++ [ForceFlushed; Reported])%list, None)
    /\ flushes events = Z.of_nat (List.length rest) / t.
Proof.
  intro Ht. unfold stream_to_target. cbn [lines_loop].
  rewrite handler_returns. cbn [Z.ltb Z.compare].
  destruct (@lines_loop_flushes t rest Ht 1 ltac:(lia)) as [Hs Hf].
  change (0 + 1) with 1. cbn [fst snd app]. rewrite Hs, flush_returns.
  exists (Handled 0 :: fst (lines_loop _line_handler flush_streams t rest 1)).
  split; [reflexivity|].
  rewrite flushes_cons. cbn [is_flush]. rewrite Hf. unfold multiples_below.
  replace (1 + Z.of_nat (List.length rest) + t - 1)
    with (Z.of_nat (List.length rest) + 1 * t) by lia.
  rewrite Z.div_add by lia.
  replace (1 + t - 1) with t by lia. rewrite Z.div_same by lia. lia.
Qed.

End Loop.

(** X28.  With the threshold 0, the second line stops [stream_to_target]:
    [line_count % batch_detection_threshold] raises [ZeroDivisionError] once
    the line is handled, and neither [flush_streams()] nor the forced flush
    is reached. *)
Theorem zero_threshold_stops_at_second_line (line : Type)
    (_line_handler : Z -> line -> option exception)
    (flush_streams : Z -> bool -> option exception)
    (first second : line) (rest : list line) :
  _line_handler 0 first = None ->
  _line_handler 1 second = None ->
  stream_to_target _line_handler flush_streams 0 (first :: second :: rest)
  = ([Handled 0; Handled 1; Critical; Reported], Some ZeroDivisionError).
Proof.
  intros H0 H1. unfold stream_to_target. cbn [lines_loop].
  rewrite H0. cbn [Z.ltb Z.compare Z.add]. rewrite H1. reflexivity.
Qed.

(** [flush_cadence] at seven lines with the threshold 3: a flush after the
    lines counted 3 and 6. *)
Lemma flush_cadence_witness :
  0 < 3
  /\ exists events,
       stream_to_target (fun _ (_ : nat) => None) (fun _ _ => None) 3
         [0; 1; 2; 3; 4; 5; 6]%nat
       = ((events ++ [ForceFlushed; Reported])%list, None)
       /\ flushes events = 2.
Proof.
  assert (H : 0 < 3) by reflexivity.
  exact (conj H (@flush_cadence nat (fun _ _ => None) (fun _ _ => None)
                   (fun _ _ => eq_refl) (fun _ _ => eq_refl) 3 0%nat
                   [1; 2; 3; 4; 5; 6]%nat H)).
Defined.

(** [zero_threshold_stops_at_second_line] at three lines. *)
Lemma zero_threshold_stops_at_second_line_witness :
  stream_to_target (fun _ (_ : nat) => None) (fun _ _ => None) 0 [0; 1; 2]%nat
  = ([Handled 0; Handled 1; Critical; Reported], Some ZeroDivisionError).
Proof.
  exact (@zero_threshold_stops_at_second_line nat (fun _ _ => None) (fun _ _ => None)
           0%nat 1%nat [2%nat] eq_refl eq_refl).
Defined.

End LoopFacts.
